(** * serverless-offline: the request pipeline of [src/index.js]

    A shallow embedding of the [Offline] plugin class: route registration
    ([_createRoutes]), the per-request state kept in [this.requests] and
    [this.currentRequestId], the completion callback handed to
    [createLambdaContext], and the three reply helpers [_reply500],
    [_replyTimeout] and [_clearTimeout].

    Conventions.
    - A JavaScript string is a [string]; one [ascii] stands for one code
      unit below 256, and the strings of a service and of a request are
      taken to have no other. In the fixed texts the plugin prints, a
      character above, such as the lambda of the log lines, is written as
      the bytes of its UTF-8 form; the plugin never looks inside it.
    - A JavaScript object used as a dictionary ([endpoint.responses],
      [responseParameters], [responseTemplates]) is the list of its own
      enumerable properties in the order [for ... in] and [Object.keys]
      enumerate them, which [forInOrder] gives from the order of
      declaration; [this.requests] is a [gmap] keyed by request id.
    - [debugLog] only prints when a debug flag is set and is left out.
    - Exceptions are explicit: a computation returns an [Outcome]. *)

From stdpp Require Import gmap strings list fin_maps pretty.
From Stdlib Require Import Ascii String ZArith.

#[local] Set Warnings "-register-all".
Open Scope string_scope.
Open Scope list_scope.

(** ** JavaScript strings and arrays *)

Module Js.

(** [s.startsWith(p)] *)
Definition startsWith (s p : string) : bool := String.prefix p s.

(** [s.endsWith(p)] *)
Definition endsWith (s p : string) : bool :=
  String.prefix (String.rev p) (String.rev s).

(** Clamping of a relative index, as [slice] does for strings and arrays. *)
Definition clamp (len : nat) (i : Z) : nat :=
  if (i <? 0)%Z then Z.to_nat (Z.max (Z.of_nat len + i) 0)
  else Nat.min (Z.to_nat i) len.

(** [s.slice(from, to)] *)
Definition slice (s : string) (from to : Z) : string :=
  let len := String.length s in
  let a := clamp len from in
  let b := clamp len to in
  String.substring a (b - a) s.

(** [s.slice(from)] *)
Definition sliceFrom (s : string) (from : Z) : string :=
  slice s from (Z.of_nat (String.length s)).

(** [xs.slice(from, to)] on arrays *)
Definition sliceArr {A} (xs : list A) (from to : Z) : list A :=
  let len := List.length xs in
  let a := clamp len from in
  let b := clamp len to in
  take (b - a) (drop a xs).

(** [s.split(sep)] for a one-character separator *)
Fixpoint split (sep : ascii) (s : string) : list string :=
  match s with
  | EmptyString => [EmptyString]
  | String c rest =>
      if Ascii.eqb c sep then EmptyString :: split sep rest
      else match split sep rest with
           | [] => [String c EmptyString]
           | w :: ws => String c w :: ws
           end
  end.

(** [s.split(sep, limit)] *)
Definition splitLimit (sep : ascii) (limit : nat) (s : string) : list string :=
  take limit (split sep s).

(** [xs.join(sep)] for an array of strings *)
Fixpoint join (sep : string) (xs : list string) : string :=
  match xs with
  | [] => ""
  | [x] => x
  | x :: rest => x +:+ sep +:+ join sep rest
  end.

(** The letters below U+0100 with a capital below U+0100: [a] to [z],
    and [à] to [þ] but for the division sign. The capitals of [µ], [ß] and
    [ÿ] are not single code units below 256; they are left as they are. *)
Definition upper (c : ascii) : ascii :=
  let n := nat_of_ascii c in
  if ((97 <=? n)%nat && (n <=? 122)%nat)
     || ((224 <=? n)%nat && (n <=? 254)%nat && negb (n =? 247)%nat)
  then ascii_of_nat (n - 32) else c.

(** The capitals below U+0100: [A] to [Z], and [À] to [Þ] but for the
    multiplication sign. *)
Definition lower (c : ascii) : ascii :=
  let n := nat_of_ascii c in
  if ((65 <=? n)%nat && (n <=? 90)%nat)
     || ((192 <=? n)%nat && (n <=? 222)%nat && negb (n =? 215)%nat)
  then ascii_of_nat (n + 32) else c.

Fixpoint mapChars (f : ascii -> ascii) (s : string) : string :=
  match s with
  | EmptyString => EmptyString
  | String c rest => String (f c) (mapChars f rest)
  end.

(** [s.toUpperCase()] and [s.toLowerCase()] *)
Definition toUpperCase : string -> string := mapChars upper.
Definition toLowerCase : string -> string := mapChars lower.

(** White space and line terminators below U+0100: tab to carriage return,
    the space and the no-break space. *)
Definition isSpace (c : ascii) : bool :=
  let n := nat_of_ascii c in
  ((9 <=? n)%nat && (n <=? 13)%nat) || (n =? 32)%nat || (n =? 160)%nat.

Fixpoint trimStart (s : string) : string :=
  match s with
  | String c rest => if isSpace c then trimStart rest else s
  | EmptyString => EmptyString
  end.

(** [s.trim()] *)
Definition trim (s : string) : string :=
  String.rev (trimStart (String.rev (trimStart s))).

(** Line terminators: [.] in a regular expression does not match them. *)
Definition isLineTerminator (c : ascii) : bool :=
  let n := nat_of_ascii c in (n =? 10)%nat || (n =? 13)%nat.

(** A string is truthy when it is not empty. *)
Definition truthy (s : string) : bool :=
  match s with EmptyString => false | _ => true end.

(** [a || b] on strings *)
Definition orElse (a b : string) : string := if truthy a then a else b.

(** [xs.findIndex(p)], [-1] when no element satisfies [p] *)
Fixpoint findIndex {A} (p : A -> bool) (xs : list A) : Z :=
  match xs with
  | [] => (-1)%Z
  | x :: rest =>
      if p x then 0%Z
      else let i := findIndex p rest in
           if (i <? 0)%Z then (-1)%Z else (i + 1)%Z
  end.

End Js.

(** ** JavaScript values *)

(** A number is kept as its canonical decimal rendering, which is what
    [toString()] and template literals print. *)
Inductive JsValue : Type :=
| JUndefined
| JNull
| JBool (b : bool)
| JNum (repr : string)
| JStr (s : string)
| JArr (items : list JsValue)
| JObj (fields : list (string * JsValue)).

(** What a handler may pass as [err], throw, or return, by what the plugin
    reads of it:
    - [ErrObject]: an [Error] instance, with the name of its constructor,
      its [name], its [message] (empty when missing) and its [stack];
    - [ErrString]: a string primitive;
    - [ErrNullish]: [null] or [undefined];
    - [ErrNumber]: a number primitive, by its decimal rendering;
    - [ErrBool]: a boolean primitive;
    - [ErrPlain]: any other object (a plain object, an array, an instance
      of a class that does not extend [Error]), with the name of its
      constructor, what its [toString()] returns (["[object Object]"] for
      a plain object), its [message] property (empty when missing or
      falsy) and its [stack] property. *)
Inductive ErrValue : Type :=
| ErrObject (ctor name message : string) (stack : option string)
| ErrString (s : string)
| ErrNullish
| ErrNumber (repr : string)
| ErrBool (b : bool)
| ErrPlain (ctor text message : string) (stack : option string).

(** What can be thrown: an error raised by the engine, or any value thrown
    by user code. *)
Inductive JsException : Type :=
| TypeError (msg : string)
| ReferenceError (msg : string)
| SyntaxError (msg : string)
| Uncaught (v : ErrValue).

(** The outcome of running a piece of code: it returns, it throws, or it
    ends the process ([process.exit]). *)
Inductive Outcome (A : Type) : Type :=
| Ret (a : A)
| Throw (e : JsException)
| Exit.
Arguments Ret {A} a.
Arguments Throw {A} e.
Arguments Exit {A}.

(** [v.toString()]: a [TypeError] on [null] and [undefined]. Inside an
    array [null] and [undefined] print as the empty string. *)
Fixpoint toStringItem (v : JsValue) : string :=
  match v with
  | JUndefined | JNull => ""
  | JBool true => "true"
  | JBool false => "false"
  | JNum r => r
  | JStr s => s
  | JArr items => Js.join "," (map toStringItem items)
  | JObj _ => "[object Object]"
  end.

Definition toString (v : JsValue) : Outcome string :=
  match v with
  | JUndefined => Throw (TypeError "Cannot read property 'toString' of undefined")
  | JNull => Throw (TypeError "Cannot read property 'toString' of null")
  | _ => Ret (toStringItem v)
  end.

(** Truthiness of the values above: an object is truthy, a string unless
    it is empty, a number unless it is [0] or [NaN]. *)
Definition errTruthy (e : ErrValue) : bool :=
  match e with
  | ErrObject _ _ _ _ | ErrPlain _ _ _ _ => true
  | ErrString s => Js.truthy s
  | ErrNullish => false
  | ErrNumber repr => negb (bool_decide (repr = "0")) && negb (bool_decide (repr = "NaN"))
  | ErrBool b => b
  end.

(** [err.toString()]: [Error.prototype.toString] on an [Error] instance. *)
Definition errToString (e : ErrValue) : string :=
  match e with
  | ErrObject _ name message _ =>
      if Js.truthy name
      then (if Js.truthy message then name +:+ ": " +:+ message else name)
      else message
  | ErrString s => s
  | ErrNullish => ""
  | ErrNumber repr => repr
  | ErrBool true => "true"
  | ErrBool false => "false"
  | ErrPlain _ text _ _ => text
  end.

(** [(err.message || err).toString()] for a truthy [err] *)
Definition errorMessageOf (e : ErrValue) : string :=
  match e with
  | ErrObject _ _ message _ | ErrPlain _ _ message _ =>
      if Js.truthy message then message else errToString e
  | ErrString _ | ErrNumber _ | ErrBool _ => errToString e
  | ErrNullish => ""
  end.

(** [err.constructor.name] *)
Definition errorTypeOf (e : ErrValue) : Outcome string :=
  match e with
  | ErrObject ctor _ _ _ | ErrPlain ctor _ _ _ => Ret ctor
  | ErrString _ => Ret "String"
  | ErrNumber _ => Ret "Number"
  | ErrBool _ => Ret "Boolean"
  | ErrNullish => Throw (TypeError "Cannot read property 'constructor' of null")
  end.

(** [err.stack] *)
Definition errStack (e : ErrValue) : Outcome (option string) :=
  match e with
  | ErrObject _ _ _ stack | ErrPlain _ _ _ stack => Ret stack
  | ErrString _ | ErrNumber _ | ErrBool _ => Ret None
  | ErrNullish => Throw (TypeError "Cannot read property 'stack' of null")
  end.

(** ** The order of the properties of an object *)

(** The value of a string of decimal digits. *)
Fixpoint digitsValue (acc : N) (s : string) : option N :=
  match s with
  | EmptyString => Some acc
  | String c rest =>
      let d := N_of_ascii c in
      if (48 <=? d)%N && (d <=? 57)%N
      then digitsValue (acc * 10 + (d - 48)) rest
      else None
  end.

(** An array index: the canonical decimal rendering of an integer below
    [2^32 - 1], such as ["400"] but not ["0400"]. *)
Definition arrayIndex (key : string) : option N :=
  match key with
  | EmptyString => None
  | _ =>
      match digitsValue 0 key with
      | Some n =>
          if bool_decide (pretty n = key) && (n <? 4294967295)%N then Some n else None
      | None => None
      end
  end.

(** A property named by the index [n], put at its place among the
    properties named by indices, kept in ascending order. *)
Fixpoint insertIndexed {V} (n : N) (kv : string * V) (sorted : list (N * (string * V)))
    : list (N * (string * V)) :=
  match sorted with
  | [] => [(n, kv)]
  | (m, kv') :: rest =>
      if (n <? m)%N then (n, kv) :: sorted else (m, kv') :: insertIndexed n kv rest
  end.

(** The own properties of an object in the order in which [for ... in] and
    [Object.keys] enumerate them, from the order in which they were declared:
    first those named by an array index, in ascending numeric order, then
    the others in the order of their declaration. *)
Definition forInOrder {V} (declared : list (string * V)) : list (string * V) :=
  map snd
    (foldl (fun sorted kv =>
              match arrayIndex (fst kv) with
              | Some n => insertIndexed n kv sorted
              | None => sorted
              end) [] declared)
  ++ List.filter (fun kv => match arrayIndex (fst kv) with
                            | Some _ => false
                            | None => true
                            end) declared.

(** ** Configuration *)

(** One entry of [endpoint.responses]. [statusCode] is falsy when missing
    or [0]; a template is falsy when empty. *)
Record ResponseRule : Type := {
  statusCode : option N;
  selectionPattern : option string;
  responseParameters : option (list (string * string));
  responseTemplates : option (list (string * string));
}.

Inductive Authorizer : Type :=
| AuthorizerName (name : string)
| AuthorizerObject (arn : option string) (name : string).

(** [event.http] once normalised to an object. *)
Record Endpoint : Type := {
  path : option string;
  method : option string;
  requestTemplates : option (list (string * string));
  responses : option (list (string * ResponseRule));
  authorizer : option Authorizer;
}.

(** [event.http] as configured: the short form ["GET /users"] or an object. *)
Inductive Http : Type :=
| HttpString (s : string)
| HttpObject (e : Endpoint).

(** A function of the service with what [functionHelper.getFunctionOptions]
    derives from it: [funTimeout] is in milliseconds. *)
Record Fun : Type := {
  events : list (option Http);
  funTimeout : N;
}.

Record Service : Type := {
  runtime : string;
  functions : list (string * Fun);
}.

(** [this.service.getFunction(name)] *)
Definition getFunction (sv : Service) (name : string) : option Fun :=
  snd <$> List.find (fun kv => bool_decide (fst kv = name)) (functions sv).

(** The options [_setOptions] leaves in [this.options] that the request
    pipeline reads. *)
Record Options : Type := {
  prefix : string;
  noTimeout : bool;
}.

(** [_setOptions]: the prefix defaults to ["/"] and is made to start and to
    end with ["/"]. *)
Definition setPrefix (cli : option string) : string :=
  let p := Js.orElse (default "" cli) "/" in
  let p := if negb (Js.startsWith p "/") then "/" +:+ p else p in
  if negb (Js.endsWith p "/") then p +:+ "/" else p.

Definition _setOptions (cliPrefix : option string) (cliNoTimeout : bool) : Options :=
  {| prefix := setPrefix cliPrefix; noTimeout := cliNoTimeout |}.

(** ** The server and the per-request state *)

(** The held hapi response. [header] follows hapi's contract: names are
    lower-cased, and a value is assigned unless [override] is [false] and a
    truthy value is already there. *)
Record Response : Type := {
  respStatusCode : N;
  respSource : JsValue;
  respHeaders : list (string * string);
}.

Definition newResponse : Response :=
  {| respStatusCode := 200; respSource := JNull; respHeaders := [] |}.

Fixpoint assocGet {V} (k : string) (l : list (string * V)) : option V :=
  match l with
  | [] => None
  | (k', v) :: rest => if bool_decide (k' = k) then Some v else assocGet k rest
  end.

Fixpoint assocSet {V} (k : string) (v : V) (l : list (string * V)) : list (string * V) :=
  match l with
  | [] => [(k, v)]
  | (k', v') :: rest =>
      if bool_decide (k' = k) then (k, v) :: rest else (k', v') :: assocSet k v rest
  end.

Definition getHeader (name : string) (r : Response) : option string :=
  assocGet (Js.toLowerCase name) (respHeaders r).

Definition header (name value : string) (override : bool) (r : Response) : Response :=
  let key := Js.toLowerCase name in
  let present :=
    match assocGet key (respHeaders r) with
    | Some v => Js.truthy v
    | None => false
    end in
  if override || negb present
  then {| respStatusCode := respStatusCode r; respSource := respSource r;
          respHeaders := assocSet key value (respHeaders r) |}
  else r.

Definition setStatusCode (c : N) (r : Response) : Response :=
  {| respStatusCode := c; respSource := respSource r; respHeaders := respHeaders r |}.

Definition setSource (v : JsValue) (r : Response) : Response :=
  {| respStatusCode := respStatusCode r; respSource := v; respHeaders := respHeaders r |}.

(** A Node timer: [_called] is set when the timer fires; a cleared timer
    never fires. *)
Record Timer : Type := {
  _called : bool;
  cleared : bool;
  delay : N;
}.

(** [this.requests[id].timeout]: not assigned yet, [null], or a timer. *)
Inductive TimeoutSlot : Type :=
| TimeoutUndefined
| TimeoutNull
| TimeoutTimer (t : Timer).

(** [this.requests[id]] *)
Record RequestState : Type := {
  done : bool;
  timeout : TimeoutSlot;
}.

(** A registered route; [firstCall] is the flag its handler closes over. *)
Record Route : Type := {
  routeMethod : string;
  routePath : string;
  routeAuth : option string;
  routeFunName : string;
  routeFun : Fun;
  routeEndpoint : Endpoint;
  firstCall : bool;
}.

(** An incoming hapi request, as far as the pipeline reads it. *)
Record Request : Type := {
  reqPath : string;
  mime : option string;
  payload : JsValue;
}.

(** What the callback of one request closes over. *)
Record Ctx : Type := {
  ctxFunName : string;
  ctxFunTimeout : N;
  ctxEndpoint : Endpoint;
  ctxRequest : Request;
  ctxRequestId : string;
}.

(** What the plugin does to the outside, oldest first. *)
Inductive Effect : Type :=
| Log (line : string)
| Console (line : string)
| ConsoleLines (lines : list string)
| ConsoleError (e : ErrValue)
| Send (requestId : string) (r : Response)
| Escaped (e : JsException).

(** The plugin instance ([this]) with the objects its closures hold. *)
Record Offline : Type := {
  options : Options;
  service : Service;
  routes : list Route;
  requests : gmap string RequestState;
  currentRequestId : option string;
  held : gmap string Response;
  contexts : gmap string Ctx;
  output : list Effect;
}.

Definition emptyOffline (o : Options) (sv : Service) : Offline :=
  {| options := o; service := sv; routes := []; requests := ∅;
     currentRequestId := None; held := ∅; contexts := ∅; output := [] |}.

(** ** State and exceptions *)

Definition M (A : Type) : Type := Offline -> Outcome A * Offline.

Definition ret {A} (a : A) : M A := fun s => (Ret a, s).
Definition throw {A} (e : JsException) : M A := fun s => (Throw e, s).
Definition exit {A} : M A := fun s => (Exit, s).
Definition lift {A} (o : Outcome A) : M A := fun s => (o, s).

Definition bind {A B} (m : M A) (k : A -> M B) : M B :=
  fun s =>
    match m s with
    | (Ret a, s') => k a s'
    | (Throw e, s') => (Throw e, s')
    | (Exit, s') => (Exit, s')
    end.

(** [try { m } catch (e) { h e }] *)
Definition tryCatch {A} (m : M A) (h : JsException -> M A) : M A :=
  fun s =>
    match m s with
    | (Throw e, s') => h e s'
    | r => r
    end.

Notation "'let*' x := c1 'in' c2" := (bind c1 (fun x => c2))
  (at level 10, x name, c1 at level 100, c2 at level 200).
Notation "c1 ;; c2" := (bind c1 (fun _ => c2))
  (at level 100, c2 at level 200, right associativity).

Definition get : M Offline := fun s => (Ret s, s).
Definition modify (f : Offline -> Offline) : M unit := fun s => (Ret tt, f s).

(** Assignments to the fields of [this]. *)
Definition withRoutes (rs : list Route) (s : Offline) : Offline :=
  {| options := options s; service := service s; routes := rs;
     requests := requests s; currentRequestId := currentRequestId s;
     held := held s; contexts := contexts s; output := output s |}.

Definition withRequests (rq : gmap string RequestState) (s : Offline) : Offline :=
  {| options := options s; service := service s; routes := routes s;
     requests := rq; currentRequestId := currentRequestId s;
     held := held s; contexts := contexts s; output := output s |}.

Definition withCurrentRequestId (id : string) (s : Offline) : Offline :=
  {| options := options s; service := service s; routes := routes s;
     requests := requests s; currentRequestId := Some id;
     held := held s; contexts := contexts s; output := output s |}.

Definition withHeld (h : gmap string Response) (s : Offline) : Offline :=
  {| options := options s; service := service s; routes := routes s;
     requests := requests s; currentRequestId := currentRequestId s;
     held := h; contexts := contexts s; output := output s |}.

Definition withContexts (cs : gmap string Ctx) (s : Offline) : Offline :=
  {| options := options s; service := service s; routes := routes s;
     requests := requests s; currentRequestId := currentRequestId s;
     held := held s; contexts := cs; output := output s |}.

Definition withOutput (out : list Effect) (s : Offline) : Offline :=
  {| options := options s; service := service s; routes := routes s;
     requests := requests s; currentRequestId := currentRequestId s;
     held := held s; contexts := contexts s; output := out |}.

Definition emit (e : Effect) : M unit :=
  modify (fun s => withOutput (output s ++ [e]) s).

Definition serverlessLog (line : string) : M unit := emit (Log line).
Definition printBlankLine : M unit := emit (Console "").

Definition setRoutes (rs : list Route) : M unit := modify (withRoutes rs).
Definition setRequests (rq : gmap string RequestState) : M unit := modify (withRequests rq).
Definition setCurrentRequestId (id : string) : M unit := modify (withCurrentRequestId id).
Definition setHeld (h : gmap string Response) : M unit := modify (withHeld h).
Definition setContexts (cs : gmap string Ctx) : M unit := modify (withContexts cs).

(** [xs.forEach(f)] *)
Fixpoint forEach {A} (f : A -> M unit) (xs : list A) : M unit :=
  match xs with
  | [] => ret tt
  | x :: rest => f x ;; forEach f rest
  end.

(** [this.logPluginIssue()] *)
Definition logPluginIssue : M unit :=
  serverlessLog "If you think this is an issue with the plugin please submit it, thanks!" ;;
  serverlessLog "https://github.com/dherault/serverless-offline/issues".

(** [this._logAndExit()] ends the process. *)
Definition _logAndExit : M unit := exit.

(** ** Route registration *)

(** The short form [event.http = "GET /users"]. *)
Definition endpointOfString (s : string) : Endpoint :=
  let parts := Js.splitLimit " " 2 s in
  {| path := parts !! 1%nat; method := parts !! 0%nat; requestTemplates := None;
     responses := None; authorizer := None |}.

Definition endpointOf (h : Http) : Endpoint :=
  match h with
  | HttpString s => endpointOfString s
  | HttpObject e => e
  end.

(** The path before trimming: the prefix followed by the endpoint path
    without its leading slash. *)
Definition joinedPath (pfx epath : string) : string :=
  pfx +:+ (if Js.startsWith epath "/" then Js.sliceFrom epath 1 else epath).

(** [fullPath]: in the trimming branch the code calls [slice] on [path],
    the Node module required at the top of the file, which has no such
    method. *)
Definition fullPathOf (pfx epath : string) : Outcome string :=
  let fullPath := joinedPath pfx epath in
  if negb (bool_decide (fullPath = "/")) && Js.endsWith fullPath "/"
  then Throw (TypeError "path.slice is not a function")
  else Ret fullPath.

(** The authorizer block: the strategy name of the route, or the end of the
    process when the authorizer is remote or unknown. *)
Definition authStrategyOf (funName m epath : string) (endpoint : Endpoint)
    : M (option string) :=
  match authorizer endpoint with
  | None => ret None
  | Some (AuthorizerName "") => ret None
  | Some a =>
      let* authFunctionName :=
        match a with
        | AuthorizerName n => ret n
        | AuthorizerObject arn n =>
            match arn with
            | Some r =>
                if Js.truthy r
                then serverlessLog ("Serverless Offline does not support non local authorizers: " +:+ r) ;;
                     _logAndExit ;; ret n
                else ret n
            | None => ret n
            end
        end in
      serverlessLog ("Configuring Authorization: " +:+ default "undefined" (path endpoint)
                     +:+ " " +:+ authFunctionName) ;;
      let* s := get in
      match getFunction (service s) authFunctionName with
      | None =>
          serverlessLog ("Authorization function " +:+ authFunctionName +:+ " does not exist") ;;
          _logAndExit ;; ret None
      | Some _ =>
          let authKey := funName +:+ "-" +:+ authFunctionName +:+ "-" +:+ m +:+ "-" +:+ epath in
          ret (Some ("strategy-" +:+ authKey))
      end
  end.

(** The body of [fun.events.forEach(event => ...)]. An event without
    [http], or whose [http] is the empty string, is passed over by
    [if (!event.http) return]. *)
Definition createRoute (funName : string) (fn : Fun) (event : option Http) : M unit :=
  match event with
  | None | Some (HttpString EmptyString) => ret tt
  | Some http =>
      let endpoint := endpointOf http in
      let* m :=
        match method endpoint with
        | Some m => ret (Js.toUpperCase m)
        | None => throw (TypeError "Cannot read property 'toUpperCase' of undefined")
        end in
      let* epath :=
        match path endpoint with
        | Some p => ret p
        | None => throw (TypeError "Cannot read property 'startsWith' of undefined")
        end in
      let* s := get in
      let* fullPath := lift (fullPathOf (prefix (options s)) epath) in
      serverlessLog (m +:+ " " +:+ fullPath) ;;
      let* auth := authStrategyOf funName m epath endpoint in
      let* s := get in
      setRoutes (routes s ++
        [{| routeMethod := m; routePath := fullPath; routeAuth := auth;
            routeFunName := funName; routeFun := fn; routeEndpoint := endpoint;
            firstCall := true |}])
  end.

Definition supportedRuntime (r : string) : bool :=
  bool_decide (r = "nodejs") || bool_decide (r = "nodejs4.3") || bool_decide (r = "babel").

(** [_createRoutes] *)
Definition _createRoutes : M unit :=
  let* s := get in
  let serviceRuntime := runtime (service s) in
  if negb (supportedRuntime serviceRuntime)
  then printBlankLine ;;
       serverlessLog ("Warning: found unsupported runtime '" +:+ serviceRuntime +:+ "'")
  else forEach (fun kv : string * Fun =>
         let (funName, fn) := kv in
         printBlankLine ;;
         serverlessLog ("Routes for " +:+ funName +:+ ":") ;;
         forEach (createRoute funName fn) (events fn))
       (functions (service s)).


(** ** What the plugin takes from outside *)

(** The request template in use: the configured one for the content type,
    or the constant [DEFAULT_JSON_REQUEST_TEMPLATE]. *)
Inductive RequestTemplate : Type :=
| DEFAULT_JSON_REQUEST_TEMPLATE
| ConfiguredTemplate (t : string).

(** The engine and the sibling modules [index.js] requires:
    - [regexpSearch src text]: whether [text.match(src)] finds a match,
      [None] when [src] is not a regular expression ([SyntaxError]);
    - [jsonPath]: the module [./jsonPath];
    - [renderRequest] and [renderResponse]: [createVelocityContext] followed
      by [renderVelocityTemplateObject], for the event and for
      [{ root: responseTemplate }] read back at [.root];
    - [logText v]: what [JSON.stringify(v)] (or [v] when that throws) prints
      inside a template literal;
    - [engineStack name message]: the [stack] of an error the engine raises. *)
Class JsEnv : Type := {
  regexpSearch : string -> string -> option bool;
  jsonPath : JsValue -> string -> JsValue;
  renderRequest : RequestTemplate -> Request -> Outcome JsValue;
  renderResponse : string -> Request -> JsValue -> Outcome JsValue;
  logText : JsValue -> string;
  engineStack : string -> string -> string;
}.

Definition dq : string := String (ascii_of_nat 34) EmptyString.
Definition nl : string := String (ascii_of_nat 10) EmptyString.

(** The value a [catch] clause receives. *)
Definition thrownValue `{JsEnv} (e : JsException) : ErrValue :=
  match e with
  | TypeError m => ErrObject "TypeError" "TypeError" m (Some (engineStack "TypeError" m))
  | ReferenceError m =>
      ErrObject "ReferenceError" "ReferenceError" m (Some (engineStack "ReferenceError" m))
  | SyntaxError m => ErrObject "SyntaxError" "SyntaxError" m (Some (engineStack "SyntaxError" m))
  | Uncaught v => v
  end.

(** ** Reply helpers *)

(** [item.match(/server.route.handler.createLambdaContext/)]: every [.] of
    the pattern stands for one character that is not a line terminator. *)
Fixpoint matchHere (pat text : string) : bool :=
  match pat, text with
  | EmptyString, _ => true
  | String _ _, EmptyString => false
  | String p pat', String c text' =>
      (if Ascii.eqb p "." then negb (Js.isLineTerminator c) else Ascii.eqb p c)
      && matchHere pat' text'
  end.

Fixpoint matchAnywhere (pat text : string) : bool :=
  matchHere pat text
  || match text with
     | EmptyString => false
     | String _ text' => matchAnywhere pat text'
     end.

(** [_getArrayStackTrace(stack)]: [null] for a falsy stack; otherwise the
    lines before the first one that names the completion callback, trimmed.
    When no line does, [findIndex] gives [-1] and the last line is dropped. *)
Definition _getArrayStackTrace (stack : option string) : option (list string) :=
  match stack with
  | None => None
  | Some st =>
      if negb (Js.truthy st) then None
      else
        let splittedStack := Js.split "010"%char st in
        Some (map Js.trim
               (Js.sliceArr splittedStack 0
                  (Js.findIndex
                     (matchAnywhere "server.route.handler.createLambdaContext")
                     splittedStack)))
  end.

Definition stackTraceValue (st : option (list string)) : JsValue :=
  match st with
  | None => JNull
  | Some lines => JArr (map JStr lines)
  end.

(** [this.requests[requestId]], a [TypeError] on what reads a property of it
    when the id is unknown. *)
Definition getRequest (rid : string) : M RequestState :=
  let* s := get in
  match requests s !! rid with
  | Some r => ret r
  | None => throw (TypeError "Cannot read property of undefined")
  end.

Definition putRequest (rid : string) (r : RequestState) : M unit :=
  let* s := get in setRequests (<[rid := r]> (requests s)).

(** [this.requests[requestId].done = true] *)
Definition setDone (rid : string) : M unit :=
  let* r := getRequest rid in
  putRequest rid {| done := true; timeout := timeout r |}.

(** The held response of a request. *)
Definition getResponse (rid : string) : M Response :=
  let* s := get in ret (default newResponse (held s !! rid)).

Definition updResponse (rid : string) (f : Response -> Response) : M unit :=
  let* r := getResponse rid in
  let* s := get in setHeld (<[rid := f r]> (held s)).

(** [response.send()] *)
Definition send (rid : string) : M unit :=
  let* r := getResponse rid in emit (Send rid r).

(** [clearTimeout(t)] *)
Definition clearTimer (t : Timer) : Timer :=
  {| _called := _called t; cleared := true; delay := delay t |}.

(** [_clearTimeout(requestId)]: [true] when the timer has already fired,
    otherwise the timer is cleared and the result is falsy. *)
Definition _clearTimeout (rid : string) : M bool :=
  let* r := getRequest rid in
  match timeout r with
  | TimeoutTimer t =>
      if _called t then ret true
      else putRequest rid {| done := done r; timeout := TimeoutTimer (clearTimer t) |} ;;
           ret false
  | TimeoutUndefined | TimeoutNull => ret false
  end.

Definition offlineInfo : string :=
  "If you believe this is an issue with the plugin please submit it, thanks. https://github.com/dherault/serverless-offline/issues".

(** The body [_reply500] builds. *)
Definition errorBody (message errorType : string) (stackTrace : option (list string)) : JsValue :=
  JObj [("errorMessage", JStr message);
        ("errorType", JStr errorType);
        ("stackTrace", stackTraceValue stackTrace);
        ("offlineInfo", JStr offlineInfo)].

(** [_reply500(response, message, err, requestId)] *)
Definition _reply500 (rid message : string) (err : ErrValue) : M unit :=
  let* fired := _clearTimeout rid in
  if fired then ret tt
  else
    setDone rid ;;
    let* stack := lift (errStack err) in
    let stackTrace := _getArrayStackTrace stack in
    serverlessLog message ;;
    emit (match stackTrace with
          | Some lines => ConsoleLines lines
          | None => ConsoleError err
          end) ;;
    updResponse rid (setStatusCode 200) ;;
    let* errorType := lift (errorTypeOf err) in
    updResponse rid (setSource (errorBody message errorType stackTrace)) ;;
    serverlessLog "Replying error in handler" ;;
    send rid.

(** The body [_replyTimeout] sends. *)
Definition timeoutBody (funName : string) (ms : N) : string :=
  "[Serverless-Offline] Your λ handler '" +:+ funName +:+ "' timed out after "
  +:+ pretty ms +:+ "ms.".

(** [_replyTimeout(response, funName, funTimeout, requestId)] *)
Definition _replyTimeout (funName : string) (ms : N) (rid : string) : M unit :=
  let* s := get in
  if negb (bool_decide (currentRequestId s = Some rid)) then ret tt
  else
    setDone rid ;;
    serverlessLog ("Replying timeout after " +:+ pretty ms +:+ "ms") ;;
    updResponse rid (setStatusCode 503) ;;
    updResponse rid (setSource (JStr (timeoutBody funName ms))) ;;
    send rid.

(** ** The completion callback *)

Definition defaultContentType : string := "application/json".

(** [endpoint.responses[key].selectionPattern || key] *)
Definition patternOf (key : string) (rule : ResponseRule) : string :=
  match selectionPattern rule with
  | Some p => Js.orElse p key
  | None => key
  end.

(** [errorMessage.match(`^${pattern}$`)] *)
Definition matchesRule `{JsEnv} (errorMessage key : string) (rule : ResponseRule)
    : Outcome bool :=
  let src := "^" +:+ patternOf key rule +:+ "$" in
  match regexpSearch src errorMessage with
  | Some b => Ret b
  | None => Throw (SyntaxError ("Invalid regular expression: /" +:+ src +:+ "/"))
  end.

(** The [for (let key in endpoint.responses)] loop, started with
    [responseName = 'default']. *)
Fixpoint selectResponse `{JsEnv} (errorMessage : string)
    (rs : list (string * ResponseRule)) : Outcome string :=
  match rs with
  | [] => Ret "default"
  | (key, rule) :: rest =>
      if bool_decide (key = "default") then selectResponse errorMessage rest
      else match matchesRule errorMessage key rule with
           | Ret true => Ret key
           | Ret false => selectResponse errorMessage rest
           | Throw e => Throw e
           | Exit => Exit
           end
  end.

(** The mock of a Lambda error that replaces [result] on failure. *)
Definition failureResult (errorMessage errorType : string)
    (stackTrace : option (list string)) : JsValue :=
  JObj [("errorMessage", JStr errorMessage);
        ("errorType", JStr errorType);
        ("stackTrace", stackTraceValue stackTrace)].

(** The [if (err) { ... }] block: the new [result] and [responseName]. *)
Definition failureHandling `{JsEnv} (endpoint : Endpoint) (err : ErrValue)
    : M (JsValue * string) :=
  let errorMessage := errorMessageOf err in
  let* errorType := lift (errorTypeOf err) in
  let* stack := lift (errStack err) in
  let stackTrace := _getArrayStackTrace stack in
  let result := failureResult errorMessage errorType stackTrace in
  serverlessLog ("Failure: " +:+ errorMessage) ;;
  match stackTrace with
  | Some lines => emit (Console (Js.join (nl +:+ "  ") lines))
  | None => ret tt
  end ;;
  let* responseName :=
    match responses endpoint with
    | Some rs => lift (selectResponse errorMessage rs)
    | None => ret "default"
    end in
  ret (result, responseName).

Definition truthyAt (arr : list string) (i : nat) : bool :=
  match arr !! i with
  | Some s => Js.truthy s
  | None => false
  end.

(** [value.match(/^'.*'$/)] *)
Definition quoted (value : string) : bool :=
  (2 <=? String.length value)%nat
  && Js.startsWith value "'" && Js.endsWith value "'"
  && forallb (fun c => negb (Js.isLineTerminator c))
       (list_ascii_of_string (Js.slice value 1 (-1))).

Definition warnResponseParameter (key value : string) : M unit :=
  serverlessLog ("Warning: while processing responseParameter " +:+ dq +:+ key +:+ dq
                 +:+ ": " +:+ dq +:+ value +:+ dq).

(** The body of [responseParametersKeys.forEach(key => ...)]. Both warning
    branches end in a call of the free identifier [logPluginIssue], which
    nothing in the file binds (the method of that name needs [this.]). *)
Definition processResponseParameter `{JsEnv} (rid : string) (result : JsValue)
    (kv : string * string) : M unit :=
  let (key, value) := kv in
  let keyArray := Js.split "." key in
  let valueArray := Js.split "." value in
  if Js.startsWith key "method.response.header" && truthyAt keyArray 3
  then
    let headerName := Js.join "." (drop 3 keyArray) in
    let* headerValue :=
      if Js.startsWith value "integration.response"
      then
        if bool_decide (valueArray !! 2%nat = Some "body")
        then lift (toString (if truthyAt valueArray 3
                             then jsonPath result (Js.join "." (drop 3 valueArray))
                             else result))
        else
          printBlankLine ;;
          warnResponseParameter key value ;;
          serverlessLog ("Offline plugin only supports " +:+ dq
                         +:+ "integration.response.body[.JSON_path]" +:+ dq
                         +:+ " right-hand responseParameter. Found " +:+ dq +:+ value
                         +:+ dq +:+ " instead. Skipping.") ;;
          throw (ReferenceError "logPluginIssue is not defined")
      else ret (if quoted value then Js.slice value 1 (-1) else value) in
    updResponse rid (header headerName headerValue true)
  else
    printBlankLine ;;
    warnResponseParameter key value ;;
    serverlessLog ("Offline plugin only supports " +:+ dq
                   +:+ "method.response.header.PARAM_NAME" +:+ dq
                   +:+ " left-hand responseParameter. Found " +:+ dq +:+ key
                   +:+ dq +:+ " instead. Skipping.") ;;
    throw (ReferenceError "logPluginIssue is not defined").

(** RESPONSE PARAMETERS PROCCESSING *)
Definition processResponseParameters `{JsEnv} (rid : string)
    (chosenResponse : option ResponseRule) (result : JsValue) : M unit :=
  match chosenResponse ≫= responseParameters with
  | Some params => forEach (processResponseParameter rid result) params
  | None => ret tt
  end.

(** RESPONSE TEMPLATE PROCCESSING: the new [result] and
    [responseContentType]. *)
Definition processResponseTemplates `{JsEnv} (c : Ctx)
    (chosenResponse : option ResponseRule) (result : JsValue) : M (JsValue * string) :=
  match chosenResponse ≫= responseTemplates with
  | Some (((templateName, _) :: _) as templates) =>
      let responseTemplate := default "" (assocGet templateName templates) in
      let responseContentType := templateName in
      if Js.truthy responseTemplate
      then
        tryCatch
          (let* rendered := lift (renderResponse responseTemplate (ctxRequest c) result) in
           ret (rendered, responseContentType))
          (fun error =>
             serverlessLog ("Error while parsing responseTemplate '" +:+ templateName
                            +:+ "' for lambda " +:+ ctxFunName c +:+ ":") ;;
             let* stack := lift (errStack (thrownValue error)) in
             emit (Console (default "undefined" stack)) ;;
             ret (result, responseContentType))
      else ret (result, responseContentType)
  | _ => ret (result, defaultContentType)
  end.

(** [chosenResponse && chosenResponse.statusCode], [None] when falsy. *)
Definition configuredStatusCode (chosenResponse : option ResponseRule) : option N :=
  match chosenResponse ≫= statusCode with
  | Some 0%N => None
  | sc => sc
  end.

Definition doneTwiceWarning (funName : string) : string :=
  "Warning: context.done called twice within handler '" +:+ funName +:+ "'!".

(** What runs once the double-completion guard has let the call through. *)
Definition respond `{JsEnv} (c : Ctx) (err : ErrValue) (data : JsValue) : M unit :=
  let rid := ctxRequestId c in
  let endpoint := ctxEndpoint c in
  let* sel :=
    if errTruthy err then failureHandling endpoint err
    else ret (data, "default") in
  let '(result, responseName) := sel in
  let chosenResponse := responses endpoint ≫= assocGet responseName in
  processResponseParameters rid chosenResponse result ;;
  let* tpl := processResponseTemplates c chosenResponse result in
  let '(result, responseContentType) := tpl in
  let statusCode := default 200%N (configuredStatusCode chosenResponse) in
  match configuredStatusCode chosenResponse with
  | None =>
      printBlankLine ;;
      serverlessLog ("Warning: No statusCode found for response " +:+ dq
                     +:+ responseName +:+ dq +:+ ".")
  | Some _ => ret tt
  end ;;
  updResponse rid (header "Content-Type" responseContentType false) ;;
  updResponse rid (setStatusCode statusCode) ;;
  updResponse rid (setSource result) ;;
  serverlessLog (if errTruthy err then "Replying " +:+ pretty statusCode
                 else "[" +:+ pretty statusCode +:+ "] " +:+ logText result) ;;
  send rid.

(** The callback given to [createLambdaContext]: [(err, data) => { ... }]. *)
Definition callback `{JsEnv} (c : Ctx) (err : ErrValue) (data : JsValue) : M unit :=
  let rid := ctxRequestId c in
  let* fired := _clearTimeout rid in
  if fired then ret tt
  else
    let* r := getRequest rid in
    if done r
    then printBlankLine ;; serverlessLog (doneTwiceWarning (ctxFunName c))
    else setDone rid ;; respond c err data.

(** ** The route handler *)

(** What the handler returns: a thenable, an [Error] instance, or anything
    else. *)
Inductive Returned : Type :=
| ReturnsThenable
| ReturnsError (e : ErrValue)
| ReturnsOther.

Inductive Ending : Type :=
| Returns (x : Returned)
| Throws (e : JsException).

(** The synchronous part of one handler call: the completion calls it makes
    on the way, then how it ends. A completion call that throws is taken to
    propagate out of the handler. *)
Record HandlerRun : Type := {
  completions : list (ErrValue * JsValue);
  ending : Ending;
}.

(** One incoming request: the digits [Math.random()] yields for its id, the
    request, whether [functionHelper.createHandler] throws, and what the
    handler does with the event. *)
Record Invocation : Type := {
  invRequestId : string;
  invRequest : Request;
  invLoad : option JsException;
  invHandler : JsValue -> HandlerRun;
}.

(** [requestTemplates && requestTemplates[contentType] || DEFAULT_JSON_REQUEST_TEMPLATE] *)
Definition requestTemplateFor (endpoint : Endpoint) (contentType : string) : RequestTemplate :=
  match requestTemplates endpoint ≫= assocGet contentType with
  | Some t => if Js.truthy t then ConfiguredTemplate t else DEFAULT_JSON_REQUEST_TEMPLATE
  | None => DEFAULT_JSON_REQUEST_TEMPLATE
  end.

(** [event.isOffline = true], in strict mode. *)
Definition markOffline (event : JsValue) : Outcome JsValue :=
  match event with
  | JObj fields => Ret (JObj (assocSet "isOffline" (JBool true) fields))
  | JArr items => Ret (JArr items)
  | _ => Throw (TypeError "Cannot create property 'isOffline'")
  end.

(** The timer [setTimeout] returns. *)
Definition newTimer (ms : N) : Timer :=
  {| _called := false; cleared := false; delay := ms |}.

(** [this.requests[requestId].timeout = this.options.noTimeout ? null : setTimeout(...)] *)
Definition armTimeout (rid : string) (ms : N) : M unit :=
  let* s := get in
  let* r := getRequest rid in
  putRequest rid
    {| done := done r;
       timeout := if noTimeout (options s) then TimeoutNull
                  else TimeoutTimer (newTimer ms) |}.

(** Modelled from the spec: [createLambdaContext] is required from a file
    that is not among the sources. Its [done] is the callback itself, and
    its explicit failure call [fail(err)] completes with [err] and no data. *)
Definition lambdaContext_fail `{JsEnv} (c : Ctx) (x : ErrValue) : M unit :=
  callback c x JUndefined.

(** Promise support: what is done with the value [x] the handler returned.
    A thenable completes later, through [then] and [catch]. *)
Definition promiseSupport `{JsEnv} (c : Ctx) (x : Returned) : M unit :=
  let* s := get in
  let* r := getRequest (ctxRequestId c) in
  if bool_decide (runtime (service s) = "babel") && negb (done r)
  then match x with
       | ReturnsError e => lambdaContext_fail c e
       | ReturnsThenable | ReturnsOther => ret tt
       end
  else ret tt.

(** The [try] block around the handler call. *)
Definition callHandler `{JsEnv} (c : Ctx) (run : HandlerRun) : M unit :=
  forEach (fun call : ErrValue * JsValue => callback c (fst call) (snd call))
          (completions run) ;;
  match ending run with
  | Throws e => throw e
  | Returns x => promiseSupport c x
  end.

Definition withFirstCall (b : bool) (r : Route) : Route :=
  {| routeMethod := routeMethod r; routePath := routePath r; routeAuth := routeAuth r;
     routeFunName := routeFunName r; routeFun := routeFun r;
     routeEndpoint := routeEndpoint r; firstCall := b |}.

(** The head of the route handler: its log lines, the entry of the request
    in [this.requests], [this.currentRequestId] and the held response. *)
Definition beginRequest (i : nat) (route : Route) (inv : Invocation) : M unit :=
  let funName := routeFunName route in
  let request := invRequest inv in
  printBlankLine ;;
  serverlessLog (routeMethod route +:+ " " +:+ reqPath request +:+ " (λ: " +:+ funName +:+ ")") ;;
  (if firstCall route
   then serverlessLog "The first request might take a few extra seconds" ;;
        let* s := get in setRoutes (<[i := withFirstCall false route]> (routes s))
   else ret tt) ;;
  let requestId := invRequestId inv in
  putRequest requestId {| done := false; timeout := TimeoutUndefined |} ;;
  setCurrentRequestId requestId ;;
  let* s := get in setHeld (<[requestId := newResponse]> (held s)).

(** What the callback of this request closes over. *)
Definition ctxOf (route : Route) (inv : Invocation) : Ctx :=
  {| ctxFunName := routeFunName route; ctxFunTimeout := funTimeout (routeFun route);
     ctxEndpoint := routeEndpoint route; ctxRequest := invRequest inv;
     ctxRequestId := invRequestId inv |}.

(** The rest of the route handler: lazy loading of the handler, request
    template, timer, and the handler call. *)
Definition invokeHandler `{JsEnv} (route : Route) (inv : Invocation) : M unit :=
  let funName := routeFunName route in
  let request := invRequest inv in
  let requestId := invRequestId inv in
  let contentType := Js.orElse (default "" (mime request)) defaultContentType in
  let requestTemplate := requestTemplateFor (routeEndpoint route) contentType in
  match invLoad inv with
  | Some err =>
      _reply500 requestId ("Error while loading " +:+ funName) (thrownValue err)
  | None =>
      match renderRequest requestTemplate request with
      | Throw err =>
          _reply500 requestId
            ("Error while parsing template " +:+ dq +:+ contentType +:+ dq
             +:+ " for " +:+ funName)
            (thrownValue err)
      | Exit => exit
      | Ret event =>
          let* event := lift (markOffline event) in
          let c := ctxOf route inv in
          (let* s := get in setContexts (<[requestId := c]> (contexts s))) ;;
          armTimeout requestId (funTimeout (routeFun route)) ;;
          tryCatch (callHandler c (invHandler inv event))
            (fun error =>
               _reply500 requestId ("Uncaught error in your '" +:+ funName +:+ "' handler")
                 (thrownValue error))
      end
  end.

(** [handler: (request, reply) => { ... }] of the route at index [i]. *)
Definition routeHandler `{JsEnv} (i : nat) (route : Route) (inv : Invocation) : M unit :=
  beginRequest i route inv ;; invokeHandler route inv.

(** ** The event loop *)

(** What can happen next: hapi hands a request to the route at an index;
    a handler that was called completes, now or once more; Node fires the
    timer of a request. *)
Inductive Event : Type :=
| Arrival (route : nat) (inv : Invocation)
| Completion (requestId : string) (err : ErrValue) (data : JsValue)
| TimerFires (requestId : string).

(** An exception no [catch] of the plugin receives leaves its code. *)
Definition topLevel (m : M unit) (s : Offline) : Offline :=
  match m s with
  | (Throw e, s') => snd (emit (Escaped e) s')
  | (_, s') => s'
  end.

(** Node marks the timer as called, then runs its callback. *)
Definition firedTimer (t : Timer) : Timer :=
  {| _called := true; cleared := cleared t; delay := delay t |}.

Definition fireTimer (rid : string) (r : RequestState) (t : Timer) (c : Ctx) : M unit :=
  putRequest rid {| done := done r; timeout := TimeoutTimer (firedTimer t) |} ;;
  _replyTimeout (ctxFunName c) (ctxFunTimeout c) rid.

(** One turn of the event loop; [None] when the event cannot happen in this
    state: no such route, no callback for that request, or a timer that is
    not pending. *)
Definition step `{JsEnv} (e : Event) (s : Offline) : option Offline :=
  match e with
  | Arrival i inv =>
      route ← routes s !! i;
      Some (topLevel (routeHandler i route inv) s)
  | Completion rid err data =>
      c ← contexts s !! rid;
      Some (topLevel (callback c err data) s)
  | TimerFires rid =>
      c ← contexts s !! rid;
      r ← requests s !! rid;
      match timeout r with
      | TimeoutTimer t =>
          if _called t || cleared t then None
          else Some (topLevel (fireTimer rid r t c) s)
      | _ => None
      end
  end.

Fixpoint run `{JsEnv} (es : list Event) (s : Offline) : option Offline :=
  match es with
  | [] => Some s
  | e :: rest => s' ← step e s; run rest s'
  end.

(** The responses sent for a request, oldest first. *)
Definition sentIn (rid : string) (out : list Effect) : list Response :=
  omap (fun e => match e with
                 | Send id r => if bool_decide (id = rid) then Some r else None
                 | _ => None
                 end) out.

Definition sent (rid : string) (s : Offline) : list Response := sentIn rid (output s).

(** The lines [serverlessLog] printed, oldest first. *)
Definition logged (s : Offline) : list string :=
  omap (fun e => match e with Log l => Some l | _ => None end) (output s).

(** ** A sample environment *)

(** A small engine for the fragment of regular expressions made of literal
    characters, [.], a starred character, [^] in front and [$] at the end;
    any other metacharacter makes the source unsupported here. *)
Module MiniRegexp.

Definition dotOr (p c : ascii) : bool :=
  if Ascii.eqb p "." then negb (Js.isLineTerminator c) else Ascii.eqb p c.

Fixpoint matchhere (fuel : nat) (re text : list ascii) : bool :=
  match fuel with
  | O => false
  | S fuel' =>
      match re with
      | [] => true
      | p :: "*"%char :: re' =>
          (fix star (t : list ascii) : bool :=
             matchhere fuel' re' t
             || match t with
                | [] => false
                | c :: t' => dotOr p c && star t'
                end) text
      | ["$"%char] => match text with [] => true | _ => false end
      | p :: re' =>
          match text with
          | [] => false
          | c :: text' => dotOr p c && matchhere fuel' re' text'
          end
      end
  end.

Fixpoint anywhere (fuel : nat) (re text : list ascii) : bool :=
  matchhere fuel re text
  || match text with
     | [] => false
     | _ :: text' => anywhere fuel re text'
     end.

Definition meta (c : ascii) : bool :=
  existsb (Ascii.eqb c) (list_ascii_of_string "|()[]{}+?\").

Fixpoint wellFormed (first : bool) (re : list ascii) : bool :=
  match re with
  | [] => true
  | c :: rest =>
      negb (meta c)
      && negb (Ascii.eqb c "*" && first)
      && negb (Ascii.eqb c "^")
      && (negb (Ascii.eqb c "$") || match rest with [] => true | _ => false end)
      && match rest with
         | "*"%char :: "*"%char :: _ => false
         | _ => true
         end
      && wellFormed false rest
  end.

Definition search (src text : string) : option bool :=
  let re := list_ascii_of_string src in
  let t := list_ascii_of_string text in
  let fuel := S (List.length re) in
  match re with
  | "^"%char :: re' =>
      if wellFormed true re' then Some (matchhere fuel re' t) else None
  | _ => if wellFormed true re then Some (anywhere fuel re t) else None
  end.

End MiniRegexp.

(** Modelled from the spec: the JSON-path extractor, [(value, dotted path)]
    to sub-value, lives in [./jsonPath], which is not among the sources.
    A missing field gives [undefined]. *)
Fixpoint dottedPath (v : JsValue) (segments : list string) : JsValue :=
  match segments with
  | [] => v
  | seg :: rest =>
      match v with
      | JObj fields =>
          match assocGet seg fields with
          | Some w => dottedPath w rest
          | None => JUndefined
          end
      | _ => JUndefined
      end
  end.

(** A stand-in for the template engine: the template ["#broken"] fails to
    parse, any other wraps its input. *)
Definition sampleRender (template : string) (input : JsValue) : Outcome JsValue :=
  if bool_decide (template = "#broken")
  then Throw (SyntaxError "Parse error")
  else Ret (JObj [("template", JStr template); ("input", input)]).

Definition sampleEnv : JsEnv := {|
  regexpSearch := MiniRegexp.search;
  jsonPath v p := dottedPath v (Js.split "." p);
  renderRequest t r :=
    match t with
    | DEFAULT_JSON_REQUEST_TEMPLATE => Ret (JObj [("body", payload r)])
    | ConfiguredTemplate t => sampleRender t (payload r)
    end;
  renderResponse t _ result := sampleRender t result;
  logText v := toStringItem v;
  engineStack name message := name +:+ ": " +:+ message +:+ nl +:+ "    at <anonymous>";
|}.

(** The engine above with alternation at the top level: [a|b] is found
    where [a] is or [b] is, each alternative with its own anchors. *)
Definition searchAlternatives (src text : string) : option bool :=
  foldr (fun alternative found =>
           match MiniRegexp.search alternative text, found with
           | Some b, Some b' => Some (b || b')
           | _, _ => None
           end) (Some false) (Js.split "|" src).

Definition alternationEnv : JsEnv := {|
  regexpSearch := searchAlternatives;
  jsonPath := jsonPath (JsEnv := sampleEnv);
  renderRequest := renderRequest (JsEnv := sampleEnv);
  renderResponse := renderResponse (JsEnv := sampleEnv);
  logText := logText (JsEnv := sampleEnv);
  engineStack := engineStack (JsEnv := sampleEnv);
|}.

(** ** Vocabulary of the properties *)

(** A rule the selection loop passes over: it is the rule named
    ["default"], or its anchored pattern does not match the message. *)
Definition passedOver `{JsEnv} (errorMessage : string) (kr : string * ResponseRule) : Prop :=
  fst kr = "default"
  \/ regexpSearch ("^" +:+ patternOf (fst kr) (snd kr) +:+ "$") errorMessage = Some false.

(** The sample service: one function, one endpoint. *)
Definition plainRule : ResponseRule :=
  {| statusCode := None; selectionPattern := None;
     responseParameters := None; responseTemplates := None |}.

Definition sampleEndpoint (epath : string) (rs : list (string * ResponseRule)) : Endpoint :=
  {| path := Some epath; method := Some "get"; requestTemplates := None;
     responses := Some rs; authorizer := None |}.

Definition sampleService (e : Endpoint) : Service :=
  {| runtime := "nodejs";
     functions := [("hello", {| events := [Some (HttpObject e)]; funTimeout := 1000 |})] |}.

(** The rules of the example: the default rule and [NotFound]. *)
Definition notFoundRules : list (string * ResponseRule) :=
  [("default", plainRule);
   ("NotFound", {| statusCode := Some 404%N; selectionPattern := Some "Not Found.*";
                   responseParameters := None; responseTemplates := None |})].

Definition sampleRequest : Request :=
  {| reqPath := "/hello"; mime := None; payload := JNull |}.

(** The callback context of the request [id] to the sample route. *)
Definition sampleCtxOf (id : string) : Ctx :=
  {| ctxFunName := "hello"; ctxFunTimeout := 1000;
     ctxEndpoint := {| path := Some "/hello"; method := Some "get"; requestTemplates := None;
                       responses := Some []; authorizer := None |};
     ctxRequest := sampleRequest; ctxRequestId := id |}.

Definition sampleCtx (rs : list (string * ResponseRule)) : Ctx :=
  {| ctxFunName := "hello"; ctxFunTimeout := 1000;
     ctxEndpoint := sampleEndpoint "/hello" rs; ctxRequest := sampleRequest;
     ctxRequestId := "42" |}.

(** A rule with response parameters only. *)
Definition ruleWithParameters (params : list (string * string)) : ResponseRule :=
  {| statusCode := Some 200%N; selectionPattern := None;
     responseParameters := Some params; responseTemplates := None |}.

(** A rule with response templates only. *)
Definition ruleWithTemplates (templates : list (string * string)) : ResponseRule :=
  {| statusCode := Some 200%N; selectionPattern := None;
     responseParameters := None; responseTemplates := Some templates |}.

(** A handler that returns without having completed. *)
Definition pendingHandler : JsValue -> HandlerRun :=
  fun _ => {| completions := []; ending := Returns ReturnsOther |}.

Definition sampleInvocation (id : string) (h : JsValue -> HandlerRun) : Invocation :=
  {| invRequestId := id; invRequest := sampleRequest; invLoad := None; invHandler := h |}.

(** The plugin once [_setOptions] and [_createRoutes] have run. *)
Definition booted (cliNoTimeout : bool) (e : Endpoint) : Offline :=
  snd (_createRoutes (emptyOffline (_setOptions None cliNoTimeout) (sampleService e))).

(** The response the callback sends, from the held response the
    parameters pass left behind. *)
Definition finalResponse (chosenResponse : option ResponseRule) (result : JsValue)
    (responseContentType : string) (r : Response) : Response :=
  setSource result
    (setStatusCode (default 200%N (configuredStatusCode chosenResponse))
       (header "Content-Type" responseContentType false r)).

(** What the failure block logs. *)
Definition failureLines (errorMessage : string) (stackTrace : option (list string))
    : list Effect :=
  Log ("Failure: " +:+ errorMessage)
  :: match stackTrace with
     | Some lines => [Console (Js.join (nl +:+ "  ") lines)]
     | None => []
     end.

(** What the callback logs between the template pass and [send]. *)
Definition closingLines `{JsEnv} (chosenResponse : option ResponseRule)
    (responseName : string) (err : ErrValue) (result : JsValue) : list Effect :=
  match configuredStatusCode chosenResponse with
  | None => [Console "";
             Log ("Warning: No statusCode found for response " +:+ dq
                  +:+ responseName +:+ dq +:+ ".")]
  | Some _ => []
  end
  ++ [Log (let statusCode := default 200%N (configuredStatusCode chosenResponse) in
           if errTruthy err then "Replying " +:+ pretty statusCode
           else "[" +:+ pretty statusCode +:+ "] " +:+ logText result)].

Definition notSend (e : Effect) : Prop :=
  match e with Send _ _ => False | _ => True end.

(** Two states that differ only in the held responses, the routes and in
    output that sends nothing. *)
Definition quietStep (s s' : Offline) : Prop :=
  requests s' = requests s
  /\ contexts s' = contexts s
  /\ currentRequestId s' = currentRequestId s
  /\ options s' = options s
  /\ service s' = service s
  /\ forall rid, sent rid s' = sent rid s.

(** A computation that neither sends nor touches the request table. *)
Definition Quiet {A} (m : M A) : Prop := forall s, quietStep s (snd (m s)).

(** A step that sends exactly one response, for the request [rid]. *)
Definition sendStep (rid : string) (s s' : Offline) (resp : Response) : Prop :=
  requests s' = requests s
  /\ contexts s' = contexts s
  /\ currentRequestId s' = currentRequestId s
  /\ options s' = options s
  /\ service s' = service s
  /\ sent rid s' = sent rid s ++ [resp]
  /\ forall rid', rid' <> rid -> sent rid' s' = sent rid' s.

(** A computation that sends one response as its last act when it returns,
    and none when it does not. *)
Definition SendsLast (rid : string) (m : M unit) : Prop :=
  forall s,
    match m s with
    | (Ret _, s') => exists resp, sendStep rid s s' resp
    | (_, s') => quietStep s s'
    end.

(** The header a [responseParameters] key targets, if it targets one. *)
Definition headerNameOf (key : string) : option string :=
  if Js.startsWith key "method.response.header" && truthyAt (Js.split "." key) 3
  then Some (Js.join "." (drop 3 (Js.split "." key)))
  else None.

(** The literal a source stands for: itself, less one layer of quotes. *)
Definition literalOf (value : string) : string :=
  if quoted value then Js.slice value 1 (-1) else value.

(** What a source taken from the integration response body evaluates to. *)
Definition bodyValueOf `{JsEnv} (result : JsValue) (value : string) : Outcome string :=
  toString (if truthyAt (Js.split "." value) 3
            then jsonPath result (Js.join "." (drop 3 (Js.split "." value)))
            else result).

(** The lines logged for a source that is neither a literal nor taken from
    the body. *)
Definition unsupportedSourceLines (key value : string) : list Effect :=
  [Console "";
   Log ("Warning: while processing responseParameter " +:+ dq +:+ key +:+ dq
        +:+ ": " +:+ dq +:+ value +:+ dq);
   Log ("Offline plugin only supports " +:+ dq
        +:+ "integration.response.body[.JSON_path]" +:+ dq
        +:+ " right-hand responseParameter. Found " +:+ dq +:+ value
        +:+ dq +:+ " instead. Skipping.")].

(** The held response of a request. *)
Definition heldResponse (rid : string) (s : Offline) : Response :=
  default newResponse (held s !! rid).

(** The timer of a request has fired. *)
Definition timerCalled (slot : TimeoutSlot) : bool :=
  match slot with
  | TimeoutTimer t => _called t
  | TimeoutUndefined | TimeoutNull => false
  end.

(** The timer of a request may still fire. *)
Definition timerLive (slot : TimeoutSlot) : bool :=
  match slot with
  | TimeoutTimer t => negb (_called t) && negb (cleared t)
  | TimeoutUndefined | TimeoutNull => false
  end.

(** [clearTimeout] applied to whatever the slot holds. *)
Definition clearedSlot (slot : TimeoutSlot) : TimeoutSlot :=
  match slot with
  | TimeoutTimer t => TimeoutTimer (clearTimer t)
  | other => other
  end.

(** The request state once its timer is cleared, and once it is done. *)
Definition clearedState (r : RequestState) : RequestState :=
  {| done := done r; timeout := clearedSlot (timeout r) |}.

Definition completedState (r : RequestState) : RequestState :=
  {| done := true; timeout := clearedSlot (timeout r) |}.

(** The terminal states of a request: completed (by the callback or by
    [_reply500]) with no timer left to fire, or timed out. *)
Definition Completed (r : RequestState) : Prop :=
  done r = true /\ timerCalled (timeout r) = false /\ timerLive (timeout r) = false.

Definition TimedOut (r : RequestState) : Prop :=
  done r = true /\ timerCalled (timeout r) = true.

(** The request is still pending: not done, and its timer has not fired. *)
Definition Pending (r : RequestState) : Prop :=
  done r = false /\ timerCalled (timeout r) = false.

(** The double-completion warning with the blank line before it. *)
Definition doneTwiceLines (funName : string) : list Effect :=
  [Console ""; Log (doneTwiceWarning funName)].

(** How often the double-completion warning of a function was logged. *)
Definition twiceWarnings (funName : string) (out : list Effect) : nat :=
  List.length (List.filter (fun e => match e with
                                     | Log l => bool_decide (l = doneTwiceWarning funName)
                                     | _ => false
                                     end) out).

(** What [_reply500] prints for the error. *)
Definition traceEffect (err : ErrValue) (stackTrace : option (list string)) : Effect :=
  match stackTrace with
  | Some lines => ConsoleLines lines
  | None => ConsoleError err
  end.

(** An effect that is not the double-completion warning of any function. *)
Definition notTwice (e : Effect) : Prop :=
  match e with
  | Log l => forall funName, l <> doneTwiceWarning funName
  | _ => True
  end.

(** A computation that never logs the double-completion warning. *)
Definition Calm {A} (m : M A) : Prop :=
  forall funName s,
    twiceWarnings funName (output (snd (m s))) = twiceWarnings funName (output s).

(** The sample service with one request, ["42"], whose handler has
    returned without completing. *)
Definition pendingState (noTimer : bool) (rs : list (string * ResponseRule)) : Offline :=
  topLevel (routeHandler (H := sampleEnv) 0
              {| routeMethod := "GET"; routePath := "/hello"; routeAuth := None;
                 routeFunName := "hello";
                 routeFun := {| events := []; funTimeout := 1000 |};
                 routeEndpoint := sampleEndpoint "/hello" rs; firstCall := true |}
              (sampleInvocation "42" pendingHandler))
    (booted noTimer (sampleEndpoint "/hello" rs)).

(** What work on the request [id] leaves alone: the entries, the
    responses and the callbacks of the other requests, and the
    configuration. *)
Definition others (id : string) (s s' : Offline) : Prop :=
  (forall rid, rid <> id ->
     requests s' !! rid = requests s !! rid
     /\ sent rid s' = sent rid s
     /\ contexts s' !! rid = contexts s !! rid)
  /\ options s' = options s
  /\ service s' = service s.

(** No timer appears in the entry of [id] that was not there before. *)
Definition noNewTimer (id : string) (s s' : Offline) : Prop :=
  forall r' t', requests s' !! id = Some r' -> timeout r' = TimeoutTimer t' ->
    exists r t, requests s !! id = Some r /\ timeout r = TimeoutTimer t.

(** The effect of the callback, of [_reply500] and of a timer on the
    plugin, seen from outside the request [id] they work on. *)
Definition eff (id : string) (s s' : Offline) : Prop :=
  others id s s'
  /\ contexts s' = contexts s
  /\ currentRequestId s' = currentRequestId s
  /\ noNewTimer id s s'
  /\ (requests s !! id = None <-> requests s' !! id = None).

(** The invariant of one request: a timer that may still fire belongs to a
    request that is not done; nothing was sent for a request that is not
    done; at most one response was sent; its callback is its own. *)
Definition good (id : string) (s : Offline) : Prop :=
  match requests s !! id with
  | None => sent id s = [] /\ contexts s !! id = None
  | Some r =>
      (timerLive (timeout r) = true -> done r = false)
      /\ (done r = false -> sent id s = [])
      /\ (List.length (sent id s) <= 1)%nat
      /\ (forall c, contexts s !! id = Some c -> ctxRequestId c = id)
  end.

Definition Inv (s : Offline) : Prop := forall id, good id s.

(** No request holds a timer. *)
Definition noTimers (s : Offline) : Prop :=
  forall rid r t, requests s !! rid = Some r -> timeout r <> TimeoutTimer t.

(** Effects among which only the request [id] is sent to. *)
Definition sendsOnlyTo (id : string) (e : Effect) : Prop :=
  match e with
  | Send i _ => i = id
  | _ => True
  end.

(** The handler does not throw once it has called the callback. *)
Definition noThrowAfterCompletion (h : HandlerRun) : Prop :=
  match ending h with
  | Throws _ => completions h = []
  | Returns _ => True
  end.

(** The request ids of the arrivals among some events. *)
Definition arrivalIds (es : list Event) : list string :=
  omap (fun e => match e with
                 | Arrival _ inv => Some (invRequestId inv)
                 | _ => None
                 end) es.

(** Every handler among the events keeps to [noThrowAfterCompletion]. *)
Definition handlersKeepTo (P : HandlerRun -> Prop) (es : list Event) : Prop :=
  Forall (fun e => match e with
                   | Arrival _ inv => forall event, P (invHandler inv event)
                   | _ => True
                   end) es.

(** The response [_replyTimeout] sends, from the held response. *)
Definition timeoutResponse (c : Ctx) (r : Response) : Response :=
  setSource (JStr (timeoutBody (ctxFunName c) (ctxFunTimeout c))) (setStatusCode 503 r).

(** The entry of a request whose timer has fired, its [done] flag set to
    [d]. *)
Definition firedState (d : bool) (t : Timer) : RequestState :=
  {| done := d; timeout := TimeoutTimer (firedTimer t) |}.

(** What the timer arms: nothing when timeouts are disabled. *)
Definition armedSlot (o : Options) (ms : N) : TimeoutSlot :=
  if noTimeout o then TimeoutNull else TimeoutTimer (newTimer ms).

(** The [catch] of the handler call. *)
Definition uncaughtHandler `{JsEnv} (route : Route) (inv : Invocation) (error : JsException)
    : M unit :=
  _reply500 (invRequestId inv)
    ("Uncaught error in your '" +:+ routeFunName route +:+ "' handler") (thrownValue error).

(** The fresh entry of a request. *)
Definition freshState : RequestState := {| done := false; timeout := TimeoutUndefined |}.

(** The state in which the handler is called: the callback exists and the
    timer, if any, is armed. *)
Definition armedState (route : Route) (inv : Invocation) (r : RequestState) (s : Offline)
    : Offline :=
  withRequests
    (<[invRequestId inv := {| done := done r;
                              timeout := armedSlot (options s) (funTimeout (routeFun route)) |}]>
       (requests s))
    (withContexts (<[invRequestId inv := ctxOf route inv]> (contexts s)) s).

(** What the route handler does to the plugin, seen from outside the
    request [id] it serves: the other requests are left alone, and with
    timeouts disabled no timer appears. *)
Definition effArrival (id : string) (s s' : Offline) : Prop :=
  others id s s'
  /\ currentRequestId s' = currentRequestId s
  /\ (noTimeout (options s) = true ->
      (forall r t, requests s !! id = Some r -> timeout r <> TimeoutTimer t) ->
      forall r' t', requests s' !! id = Some r' -> timeout r' <> TimeoutTimer t')
  /\ (is_Some (requests s !! id) -> is_Some (requests s' !! id)).

(** A request to the sample route whose handler returns without having
    completed. *)
Definition pendingArrival (id : string) : Event :=
  Arrival 0 (sampleInvocation id pendingHandler).

(** Request ["1"] arrives, request ["2"] arrives, then the timer of ["1"]
    fires. *)
Definition overtaken : Offline :=
  default (booted false (sampleEndpoint "/hello" []))
    (run (H := sampleEnv) [pendingArrival "1"; pendingArrival "2"; TimerFires "1"]
       (booted false (sampleEndpoint "/hello" []))).

(** ** Vocabulary of the further properties *)

(** A route path as the comment above its computation wants it: the root,
    or a path that does not end with a slash. *)
Definition trimmedPath (p : string) : Prop := p = "/" \/ Js.endsWith p "/" = false.

(** A computation that keeps a property of the plugin. *)
Definition Preserves {A} (P : Offline -> Prop) (m : M A) : Prop :=
  forall s, P s -> P (snd (m s)).

(** A route as registration leaves it under the prefix [pfx]: its path is
    the prefix joined with the path of its endpoint, taken as it is; that
    path starts with a slash and needs no trimming; and the first call is
    still to come. *)
Definition wellFormedRoute (pfx : string) (r : Route) : Prop :=
  (exists epath,
      path (routeEndpoint r) = Some epath /\ routePath r = joinedPath pfx epath)
  /\ Js.startsWith (routePath r) "/" = true
  /\ trimmedPath (routePath r)
  /\ firstCall r = true.

(** Registration under way: the options are [o], and the routes are those
    of the start, [R0], followed by well-formed ones. *)
Definition registersOnto (o : Options) (R0 : list Route) (s : Offline) : Prop :=
  options s = o
  /\ exists extra, routes s = R0 ++ extra /\ Forall (wellFormedRoute (prefix o)) extra.

(** A line of a stack that names the completion callback. *)
Definition namesCallback (line : string) : bool :=
  matchAnywhere "server.route.handler.createLambdaContext" line.

(** A string without a space. *)
Definition spaceless (s : string) : Prop :=
  forallb (fun c => negb (Ascii.eqb c " ")) (list_ascii_of_string s) = true.

(** Every callback the plugin holds was made for the request it is filed
    under. *)
Definition ownContexts (s : Offline) : Prop :=
  forall id c, contexts s !! id = Some c -> ctxRequestId c = id.

(** The request an event is about. *)
Definition subject (e : Event) : string :=
  match e with
  | Arrival _ inv => invRequestId inv
  | Completion rid _ _ => rid
  | TimerFires rid => rid
  end.

(** The timer of the request [rid], if it has one, can no longer fire. *)
Definition timerDead (rid : string) (s : Offline) : Prop :=
  exists r, requests s !! rid = Some r /\ timerLive (timeout r) = false.

(** A property of the plugin that does not look at what was printed or
    sent, at the request table, at the held responses or at the id of the
    most recent request. *)
Definition Framed (P : Offline -> Prop) : Prop :=
  forall s, P s ->
    (forall out, P (withOutput out s))
    /\ (forall rq, P (withRequests rq s))
    /\ (forall h, P (withHeld h s))
    /\ (forall id, P (withCurrentRequestId id s)).

(** A property that survives what the route handler does to the routes
    and to the callbacks it holds: the first-call flag of its route is
    cleared, and the callback of the request is filed under its id. *)
Definition HandlerProof (P : Offline -> Prop) : Prop :=
  Framed P
  /\ (forall s i route, P s -> P (withRoutes (<[i := withFirstCall false route]> (routes s)) s))
  /\ (forall s route inv, P s ->
        P (withContexts (<[invRequestId inv := ctxOf route inv]> (contexts s)) s)).

(** An event on behalf of the request [rid] other than its arrival: a call
    of its callback, or its timer. *)
Definition settles (rid : string) (e : Event) : Prop :=
  match e with
  | Arrival _ _ => False
  | Completion id _ _ | TimerFires id => id = rid
  end.

(** The [result] the callback goes on with when the endpoint selects
    nothing: the mock of a Lambda error for a truthy [err], the data
    otherwise. *)
Definition resultFor (err : ErrValue) (data : JsValue) : JsValue :=
  if errTruthy err
  then match errorTypeOf err, errStack err with
       | Ret ty, Ret stack =>
           failureResult (errorMessageOf err) ty (_getArrayStackTrace stack)
       | _, _ => data
       end
  else data.

(** ** Start-up: the environment variables and the options object *)

(** [service.environment]: the variables of the service, of each stage and
    of each region of a stage. An object of variables is a map: the loops
    of [_mergeEnvVars] copy it key by key. A field that is missing is
    [None]. *)
Record RegionEnv : Type := {
  regionVars : option (gmap string JsValue);
}.

Record StageEnv : Type := {
  stageVars : option (gmap string JsValue);
  regions : option (list (string * RegionEnv));
}.

Record Environment : Type := {
  vars : option (gmap string JsValue);
  stages : option (list (string * StageEnv));
}.

(** A property key: [undefined] reads the property named ["undefined"]. *)
Definition keyOf (k : option string) : string := default "undefined" k.

(** [Object.keys(source).forEach(key => { this.envVars[key] = source[key]; })] *)
Definition assignAll (source envVars : gmap string JsValue) : gmap string JsValue :=
  map_fold (fun key value acc => <[key := value]> acc) envVars source.

(** [Object.keys(x)] of a missing [x] *)
Definition keysOfUndefined : JsException :=
  TypeError "Cannot convert undefined or null to object".

(** [_mergeEnvVars()], on [this.service.environment], [this.options.stage],
    [this.options.region] and [this.envVars]: the outcome and the new
    [this.envVars]. *)
Definition _mergeEnvVars (environment : option Environment) (stage region : option string)
    (envVars : gmap string JsValue) : Outcome unit * gmap string JsValue :=
  match environment with
  | None => (Throw (TypeError "Cannot read property 'stages' of undefined"), envVars)
  | Some env =>
      match stages env with
      | None => (Throw (TypeError "Cannot read property of undefined"), envVars)
      | Some sts =>
          match assocGet (keyOf stage) sts with
          | None => (Throw (TypeError "Cannot read property 'regions' of undefined"), envVars)
          | Some st =>
              match regions st with
              | None => (Throw (TypeError "Cannot read property of undefined"), envVars)
              | Some rgs =>
                  let region := assocGet (keyOf region) rgs in
                  match vars env with
                  | None => (Throw keysOfUndefined, envVars)
                  | Some ev =>
                      let envVars := assignAll ev envVars in
                      match stageVars st with
                      | None => (Throw keysOfUndefined, envVars)
                      | Some sv =>
                          let envVars := assignAll sv envVars in
                          match region with
                          | None =>
                              (Throw (TypeError "Cannot read property 'vars' of undefined"),
                               envVars)
                          | Some rg =>
                              match regionVars rg with
                              | None => (Throw keysOfUndefined, envVars)
                              | Some rv => (Ret tt, assignAll rv envVars)
                              end
                          end
                      end
                  end
              end
          end
      end
  end.

(** Truthiness of a value. *)
Definition valueTruthy (v : JsValue) : bool :=
  match v with
  | JUndefined | JNull => false
  | JBool b => b
  | JNum r => negb (bool_decide (r = "0")) && negb (bool_decide (r = "NaN"))
  | JStr s => Js.truthy s
  | JArr _ | JObj _ => true
  end.

(** [o[key]] on an object given by its properties. *)
Definition getField (key : string) (o : list (string * JsValue)) : JsValue :=
  default JUndefined (assocGet key o).

(** [o[key] || d] *)
Definition fieldOr (key : string) (o : list (string * JsValue)) (d : JsValue) : JsValue :=
  if valueTruthy (getField key o) then getField key o else d.

(** The object literal [_setOptions] replaces [this.options] with, built
    from the options of the command line. *)
Definition optionsObject (cli : list (string * JsValue)) : list (string * JsValue) :=
  [("port", fieldOr "port" cli (JNum "3000"));
   ("prefix", fieldOr "prefix" cli (JStr "/"));
   ("stage", getField "stage" cli);
   ("region", getField "region" cli);
   ("noTimeout", fieldOr "noTimeout" cli (JBool false));
   ("httpsProtocol", fieldOr "httpsProtocol" cli (JStr ""));
   ("skipCacheInvalidation", fieldOr "skipCacheInvalidation" cli (JBool false));
   ("corsAllowOrigin", fieldOr "corsAllowOrigin" cli (JStr "*"));
   ("corsAllowHeaders", fieldOr "corsAllowHeaders" cli (JStr "accept,content-type,x-api-key"));
   ("corsAllowCredentials", JBool true)].

(** [corsConfig.credentials] as [_setOptions] computes it once it gets
    there: [if (this.options.corsDisallowCredentials)
    this.options.corsAllowCredentials = false], read on the new options
    object. The assignments in between write [prefix], [corsAllowOrigin] and
    [corsAllowHeaders] only. *)
Definition corsConfigCredentials (cli : list (string * JsValue)) : JsValue :=
  let o := optionsObject cli in
  let o := if valueTruthy (getField "corsDisallowCredentials" o)
           then assocSet "corsAllowCredentials" (JBool false) o
           else o in
  getField "corsAllowCredentials" o.

(** The names of the options [_setOptions] keeps. *)
Definition keptOptions : list string :=
  ["port"; "prefix"; "stage"; "region"; "noTimeout"; "httpsProtocol";
   "skipCacheInvalidation"; "corsAllowOrigin"; "corsAllowHeaders"; "corsAllowCredentials"].

(** The notice the first request to a route gets. *)
Definition firstCallNotice : string := "The first request might take a few extra seconds".

Definition notNotice (e : Effect) : Prop :=
  match e with
  | Log l => l <> firstCallNotice
  | _ => True
  end.

(** The output has grown from [out] by effects that are not the notice. *)
Definition grownQuietly (out : list Effect) (s : Offline) : Prop :=
  exists new, output s = out ++ new /\ Forall notNotice new.

(** * Properties *)

(** ** Route registration *)

Lemma fullPathOf_trailing_slash (pfx epath : string) :
  joinedPath pfx epath <> "/" ->
  Js.endsWith (joinedPath pfx epath) "/" = true ->
  fullPathOf pfx epath = Throw (TypeError "path.slice is not a function").
Proof.
  intros Hne Hend. unfold fullPathOf.
  rewrite Hend, bool_decide_eq_false_2 by exact Hne. reflexivity.
Qed.

(** C10. For an endpoint whose joined path (prefix, then the endpoint path
    without its leading slash) is not ["/"] and ends with ["/"], computing
    [fullPath] throws the [TypeError] of calling [slice] on the [path]
    module, and registering the route throws with it: the state is left as
    it was, so no route, trimmed or not, is added. *)
Theorem C10_trailing_slash_throws (funName : string) (fn : Fun) (http : Http)
    (m epath : string) (s : Offline) :
  method (endpointOf http) = Some m ->
  path (endpointOf http) = Some epath ->
  joinedPath (prefix (options s)) epath <> "/" ->
  Js.endsWith (joinedPath (prefix (options s)) epath) "/" = true ->
  fullPathOf (prefix (options s)) epath = Throw (TypeError "path.slice is not a function")
  /\ createRoute funName fn (Some http) s
     = (Throw (TypeError "path.slice is not a function"), s).
Proof.
  intros Hm Hp Hne Hend.
  pose proof (fullPathOf_trailing_slash _ _ Hne Hend) as Hfull.
  split; [exact Hfull|].
  assert (Hhttp : http <> HttpString "") by (intros ->; discriminate Hp).
  unfold createRoute, bind.
  destruct http as [[|ch rest]|e]; [congruence|..];
    rewrite Hm, Hp; cbn [ret get lift]; rewrite Hfull; reflexivity.
Qed.

Lemma C10_trailing_slash_throws_witness :
  let s := emptyOffline (_setOptions (Some "dev") false) (sampleService (sampleEndpoint "/" [])) in
  fullPathOf (prefix (options s)) "users/" = Throw (TypeError "path.slice is not a function")
  /\ createRoute "hello" {| events := []; funTimeout := 1000 |}
       (Some (HttpString "GET users/")) s
     = (Throw (TypeError "path.slice is not a function"), s).
Proof.
  intros s.
  apply (C10_trailing_slash_throws "hello" _ (HttpString "GET users/") "GET" "users/" s).
  - reflexivity.
  - reflexivity.
  - vm_compute. discriminate.
  - vm_compute. reflexivity.
Defined.

(** A path without a trailing slash is registered as it is. *)
Example createRoute_plain :
  routePath <$> routes (booted false (sampleEndpoint "/hello" [])) = ["/hello"].
Proof. reflexivity. Qed.

(** With a prefix, the endpoint path ["/"] already runs into the trimming
    branch. *)
Example createRoute_prefix_root :
  fst (_createRoutes (emptyOffline (_setOptions (Some "dev") false)
                        (sampleService (sampleEndpoint "/" []))))
  = Throw (TypeError "path.slice is not a function").
Proof. reflexivity. Qed.

(** ** Response selection *)

Section Selection.
Context `{JsEnv}.

Lemma matchesRule_true msg key rule :
  matchesRule msg key rule = Ret true
  <-> regexpSearch ("^" +:+ patternOf key rule +:+ "$") msg = Some true.
Proof.
  unfold matchesRule. destruct (regexpSearch _ msg) as [[]|]; split; congruence.
Qed.

Lemma selectResponse_default msg rs :
  Forall (passedOver msg) rs -> selectResponse msg rs = Ret "default".
Proof.
  induction 1 as [|[key rule] rest Hhead _ IH]; [reflexivity|].
  cbn [selectResponse]. destruct Hhead as [Hd|Hno]; cbn [fst snd] in *.
  - rewrite bool_decide_eq_true_2 by exact Hd. exact IH.
  - case_bool_decide; [exact IH|]. unfold matchesRule. rewrite Hno. exact IH.
Qed.

Lemma selectResponse_hit msg pre name rule post :
  Forall (passedOver msg) pre ->
  name <> "default" ->
  regexpSearch ("^" +:+ patternOf name rule +:+ "$") msg = Some true ->
  selectResponse msg (pre ++ (name, rule) :: post) = Ret name.
Proof.
  intros Hpre Hname Hhit.
  induction Hpre as [|[key r] rest Hhead _ IH]; cbn [app selectResponse].
  - rewrite bool_decide_eq_false_2 by exact Hname.
    unfold matchesRule. rewrite Hhit. reflexivity.
  - destruct Hhead as [Hd|Hno]; cbn [fst snd] in *.
    + rewrite bool_decide_eq_true_2 by exact Hd. exact IH.
    + case_bool_decide; [exact IH|]. unfold matchesRule. rewrite Hno. exact IH.
Qed.

Lemma selectResponse_inv msg rs name :
  selectResponse msg rs = Ret name ->
  (name <> "default"
   /\ exists pre rule post,
        rs = pre ++ (name, rule) :: post
        /\ Forall (passedOver msg) pre
        /\ regexpSearch ("^" +:+ patternOf name rule +:+ "$") msg = Some true)
  \/ (name = "default" /\ Forall (passedOver msg) rs).
Proof.
  revert name. induction rs as [|[key rule] rest IH]; intros name; cbn [selectResponse].
  - intros [= <-]. right. split; [reflexivity|constructor].
  - case_bool_decide as Hkey.
    + intros Hsel. destruct (IH _ Hsel) as [(Hn & pre & r & post & -> & Hpre & Hhit)|[-> Hall]].
      * left. split; [exact Hn|]. exists ((key, rule) :: pre), r, post.
        split; [reflexivity|]. split; [|exact Hhit].
        constructor; [left; exact Hkey|exact Hpre].
      * right. split; [reflexivity|]. constructor; [left; exact Hkey|exact Hall].
    + unfold matchesRule.
      destruct (regexpSearch _ msg) as [[]|] eqn:Hre; [| |discriminate].
      * intros [= <-]. left. split; [exact Hkey|].
        exists [], rule, rest. split; [reflexivity|]. split; [constructor|exact Hre].
      * intros Hsel.
        destruct (IH _ Hsel) as [(Hn & pre & r & post & -> & Hpre & Hhit)|[-> Hall]].
        -- left. split; [exact Hn|]. exists ((key, rule) :: pre), r, post.
           split; [reflexivity|]. split; [|exact Hhit].
           constructor; [right; exact Hre|exact Hpre].
        -- right. split; [reflexivity|]. constructor; [right; exact Hre|exact Hall].
Qed.

End Selection.

(** ** Running the state monad *)

Lemma bind_Ret {A B} (m : M A) (k : A -> M B) s a s1 :
  m s = (Ret a, s1) -> bind m k s = k a s1.
Proof. intros Hm. unfold bind. rewrite Hm. reflexivity. Qed.

Lemma bind_Throw {A B} (m : M A) (k : A -> M B) s e s1 :
  m s = (Throw e, s1) -> bind m k s = (Throw e, s1).
Proof. intros Hm. unfold bind. rewrite Hm. reflexivity. Qed.

Lemma bind_Exit {A B} (m : M A) (k : A -> M B) s s1 :
  m s = (Exit, s1) -> bind m k s = (Exit, s1).
Proof. intros Hm. unfold bind. rewrite Hm. reflexivity. Qed.

Lemma sentIn_app rid out new : sentIn rid (out ++ new) = sentIn rid out ++ sentIn rid new.
Proof. apply omap_app. Qed.

Lemma sentIn_quiet rid out : Forall notSend out -> sentIn rid out = [].
Proof.
  induction 1 as [|e l He _ IH]; [reflexivity|].
  destruct e; cbn in *; try exact IH. destruct He.
Qed.

Lemma sentIn_send rid resp : sentIn rid [Send rid resp] = [resp].
Proof. cbn. rewrite bool_decide_eq_true_2 by reflexivity. reflexivity. Qed.

Lemma sentIn_send_other rid rid' resp : rid' <> rid -> sentIn rid [Send rid' resp] = [].
Proof. intros Hne. cbn. rewrite bool_decide_eq_false_2 by exact Hne. reflexivity. Qed.

Lemma sent_withOutput_app rid s new :
  sent rid (withOutput (output s ++ new) s) = sent rid s ++ sentIn rid new.
Proof. unfold sent. cbn. apply sentIn_app. Qed.

Lemma quietStep_refl s : quietStep s s.
Proof. repeat split. Qed.

Lemma quietStep_trans s1 s2 s3 : quietStep s1 s2 -> quietStep s2 s3 -> quietStep s1 s3.
Proof.
  intros (?&?&?&?&?&Hs) (?&?&?&?&?&Hs').
  repeat split; try congruence.
Qed.

Lemma Quiet_ret {A} (a : A) : Quiet (ret a).
Proof. intros s. apply quietStep_refl. Qed.

Lemma Quiet_throw {A} e : Quiet (@throw A e).
Proof. intros s. apply quietStep_refl. Qed.

Lemma Quiet_exit {A} : Quiet (@exit A).
Proof. intros s. apply quietStep_refl. Qed.

Lemma Quiet_lift {A} (o : Outcome A) : Quiet (lift o).
Proof. intros s. apply quietStep_refl. Qed.

Lemma Quiet_get : Quiet get.
Proof. intros s. apply quietStep_refl. Qed.

Lemma Quiet_bind {A B} (m : M A) (k : A -> M B) :
  Quiet m -> (forall a, Quiet (k a)) -> Quiet (bind m k).
Proof.
  intros Hm Hk s. unfold bind. specialize (Hm s).
  destruct (m s) as [[a| |] s1]; cbn in *; try exact Hm.
  eapply quietStep_trans; [exact Hm|apply Hk].
Qed.

Lemma Quiet_tryCatch {A} (m : M A) (h : JsException -> M A) :
  Quiet m -> (forall e, Quiet (h e)) -> Quiet (tryCatch m h).
Proof.
  intros Hm Hh s. unfold tryCatch. specialize (Hm s).
  destruct (m s) as [[a| |] s1]; cbn in *; try exact Hm.
  eapply quietStep_trans; [exact Hm|apply Hh].
Qed.

Lemma Quiet_forEach {A} (f : A -> M unit) xs :
  (forall x, Quiet (f x)) -> Quiet (forEach f xs).
Proof.
  intros Hf. induction xs as [|x xs IH]; cbn [forEach].
  - apply Quiet_ret.
  - apply Quiet_bind; [apply Hf|intros _; exact IH].
Qed.

Lemma Quiet_emit e : notSend e -> Quiet (emit e).
Proof.
  intros He s. unfold emit, modify. cbn. repeat split.
  intros rid. rewrite sent_withOutput_app. destruct e; cbn in *; try apply app_nil_r.
  destruct He.
Qed.

Lemma Quiet_serverlessLog line : Quiet (serverlessLog line).
Proof. apply Quiet_emit. exact I. Qed.

Lemma Quiet_printBlankLine : Quiet printBlankLine.
Proof. apply Quiet_emit. exact I. Qed.

Lemma Quiet_setHeld h : Quiet (setHeld h).
Proof. intros s. repeat split. Qed.

Lemma Quiet_getResponse rid : Quiet (getResponse rid).
Proof. unfold getResponse. apply Quiet_bind; [apply Quiet_get|intros; apply Quiet_ret]. Qed.

Lemma Quiet_updResponse rid f : Quiet (updResponse rid f).
Proof.
  unfold updResponse. apply Quiet_bind; [apply Quiet_getResponse|intros r].
  apply Quiet_bind; [apply Quiet_get|intros; apply Quiet_setHeld].
Qed.

Lemma SendsLast_send rid : SendsLast rid (send rid).
Proof.
  intros s. unfold send, getResponse, emit, modify, bind, get, ret. cbn.
  eexists. repeat split.
  - rewrite sent_withOutput_app. cbn. rewrite bool_decide_eq_true_2 by reflexivity.
    reflexivity.
  - intros rid' Hne. rewrite sent_withOutput_app. cbn.
    rewrite bool_decide_eq_false_2 by congruence. apply app_nil_r.
Qed.

Lemma SendsLast_bind {A} rid (m : M A) (k : A -> M unit) :
  Quiet m -> (forall a, SendsLast rid (k a)) -> SendsLast rid (bind m k).
Proof.
  intros Hm Hk s. unfold bind. specialize (Hm s).
  destruct (m s) as [[a| |] s1]; cbn in *; try exact Hm.
  specialize (Hk a s1). destruct (k a s1) as [[[]| |] s2].
  - destruct Hk as (resp & Hr & Hc & Hi & Ho & Hsv & Hs & Hother).
    destruct Hm as (Hr' & Hc' & Hi' & Ho' & Hsv' & Hs').
    exists resp. repeat split; try congruence.
    intros rid' Hne. rewrite Hother by exact Hne. apply Hs'.
  - eapply quietStep_trans; eassumption.
  - eapply quietStep_trans; eassumption.
Qed.

(** ** The blocks of the callback *)

Ltac quiet :=
  repeat first
    [ apply Quiet_ret | apply Quiet_throw | apply Quiet_exit | apply Quiet_lift
    | apply Quiet_get | apply Quiet_serverlessLog | apply Quiet_printBlankLine
    | apply Quiet_updResponse | apply Quiet_setHeld
    | apply Quiet_emit; exact I
    | apply Quiet_bind; [|intros]
    | apply Quiet_tryCatch; [|intros]
    | match goal with
      | |- Quiet (match ?x with _ => _ end) => destruct x
      | |- Quiet (if ?b then _ else _) => destruct b
      end ].

Section Blocks.
Context `{JsEnv}.

Lemma Quiet_failureHandling endpoint err : Quiet (failureHandling endpoint err).
Proof. unfold failureHandling. quiet. Qed.

Lemma Quiet_processResponseParameter rid result kv :
  Quiet (processResponseParameter rid result kv).
Proof. unfold processResponseParameter, warnResponseParameter. destruct kv. quiet. Qed.

Lemma Quiet_processResponseParameters rid chosen result :
  Quiet (processResponseParameters rid chosen result).
Proof.
  unfold processResponseParameters. destruct (chosen ≫= responseParameters).
  - apply Quiet_forEach. intros kv. apply Quiet_processResponseParameter.
  - apply Quiet_ret.
Qed.

Lemma Quiet_processResponseTemplates c chosen result :
  Quiet (processResponseTemplates c chosen result).
Proof.
  unfold processResponseTemplates.
  destruct (chosen ≫= responseTemplates) as [[|[templateName t] rest]|]; quiet.
Qed.

Lemma SendsLast_respond c err data : SendsLast (ctxRequestId c) (respond c err data).
Proof.
  unfold respond.
  apply SendsLast_bind.
  { destruct (errTruthy err); [apply Quiet_failureHandling|apply Quiet_ret]. }
  intros [result responseName].
  apply SendsLast_bind; [apply Quiet_processResponseParameters|intros _].
  apply SendsLast_bind; [apply Quiet_processResponseTemplates|intros [result' ct]].
  apply SendsLast_bind; [quiet|intros _].
  apply SendsLast_bind; [quiet|intros _].
  apply SendsLast_bind; [quiet|intros _].
  apply SendsLast_bind; [quiet|intros _].
  apply SendsLast_bind; [quiet|intros _].
  apply SendsLast_send.
Qed.

(** The callback from the selected response to [send], once the three
    blocks before have run to their end. *)
Lemma respond_run c err data s result responseName s1 s2 result' ct s3 :
  let rid := ctxRequestId c in
  let chosen := responses (ctxEndpoint c) ≫= assocGet responseName in
  (if errTruthy err then failureHandling (ctxEndpoint c) err else ret (data, "default")) s
    = (Ret (result, responseName), s1) ->
  processResponseParameters rid chosen result s1 = (Ret tt, s2) ->
  processResponseTemplates c chosen result s2 = (Ret (result', ct), s3) ->
  let resp := finalResponse chosen result' ct (default newResponse (held s3 !! rid)) in
  respond c err data s
  = (Ret tt,
     withOutput (output s3 ++ closingLines chosen responseName err result'
                 ++ [Send rid resp])
       (withHeld (<[rid := resp]> (held s3)) s3)).
Proof.
  intros rid chosen Hsel Hparams Htpl resp. unfold respond.
  rewrite (bind_Ret _ _ _ _ _ Hsel). cbn beta iota.
  rewrite (bind_Ret _ _ _ _ _ Hparams).
  rewrite (bind_Ret _ _ _ _ _ Htpl). cbn beta iota.
  fold chosen. subst resp. unfold closingLines, finalResponse.
  destruct (configuredStatusCode chosen) as [sc|];
    unfold updResponse, getResponse, send, getResponse, serverlessLog, printBlankLine,
      emit, setHeld, modify, bind, get, ret; cbn;
    rewrite ?lookup_insert_eq; cbn; rewrite <- ?app_assoc; cbn;
    rewrite ?insert_insert_eq; reflexivity.
Qed.

End Blocks.

(** ** C1: which response a failure selects *)

Section FailureSelection.
Context `{JsEnv}.

Lemma truthy_error_fields err :
  errTruthy err = true ->
  exists ty stack, errorTypeOf err = Ret ty /\ errStack err = Ret stack.
Proof. destruct err; cbn; intros Htruthy; first [discriminate Htruthy | eauto]. Qed.

Lemma failureHandling_run endpoint err ty stack name s :
  errorTypeOf err = Ret ty ->
  errStack err = Ret stack ->
  match responses endpoint with
  | Some rs => selectResponse (errorMessageOf err) rs
  | None => Ret "default"
  end = Ret name ->
  failureHandling endpoint err s
  = (Ret (failureResult (errorMessageOf err) ty (_getArrayStackTrace stack), name),
     withOutput (output s ++ failureLines (errorMessageOf err) (_getArrayStackTrace stack)) s).
Proof.
  intros Hty Hstack Hsel. unfold failureHandling, failureLines.
  rewrite Hty, Hstack.
  unfold serverlessLog, emit, modify, lift, bind, ret. cbn.
  destruct (_getArrayStackTrace stack) as [lines|]; cbn;
    (destruct (responses endpoint) as [rs|]; [rewrite Hsel|injection Hsel as <-]);
    cbn; rewrite <- ?app_assoc; reflexivity.
Qed.

Lemma no_parameters_run rid chosen result s :
  chosen ≫= responseParameters = None ->
  processResponseParameters rid chosen result s = (Ret tt, s).
Proof. intros Hnone. unfold processResponseParameters. rewrite Hnone. reflexivity. Qed.

Lemma no_templates_run c chosen result s :
  chosen ≫= responseTemplates = None ->
  processResponseTemplates c chosen result s = (Ret (result, defaultContentType), s).
Proof. intros Hnone. unfold processResponseTemplates. rewrite Hnone. reflexivity. Qed.

Lemma forInOrder_no_index {V} (declared : list (string * V)) :
  Forall (fun kv => arrayIndex (fst kv) = None) declared -> forInOrder declared = declared.
Proof.
  intros Hplain. unfold forInOrder.
  assert (Hfold : forall sorted,
             foldl (fun sorted kv =>
                      match arrayIndex (fst kv) with
                      | Some n => insertIndexed n kv sorted
                      | None => sorted
                      end) sorted declared = sorted).
  { induction Hplain as [|kv rest Hkv _ IH]; intros sorted; cbn [foldl]; [reflexivity|].
    rewrite Hkv. apply IH. }
  rewrite Hfold. cbn [map app]. clear Hfold.
  induction Hplain as [|kv rest Hkv _ IH]; cbn [List.filter]; [reflexivity|].
  rewrite Hkv, IH. reflexivity.
Qed.

(** C1, as the code has it. For a failure (a truthy [err]) on an endpoint
    whose response rules were declared as [declared], with [msg] the error
    message:
    - the rules are scanned in the order [for ... in] enumerates them: the
      rules named by an array index first, by ascending index, then the
      others as declared; this is the order of declaration when no rule is
      named by an array index;
    - [msg] is [err.message] when that is truthy and [err.toString()]
      otherwise, the error type is the name of the constructor of [err];
    - the pattern of a rule is its [selectionPattern], or its name when
      that is absent or empty;
    - the loop returns [name] exactly when [name] is the first rule in
      that order, the rule named "default" left aside, for which the engine
      finds a match of the source [^pattern$] in [msg], every rule before
      it being passed over; or when [name] is "default" and every rule is
      passed over;
    - the selection hands on [{errorMessage, errorType, stackTrace}] as the
      result;
    - when the rule selected configures neither parameters nor templates,
      or is not there, the callback sends one response whose body is that
      value and whose status is the one of the rule, 200 by default. *)
Theorem C1_failure_selects_first_match (c : Ctx) (err : ErrValue) (data : JsValue)
    (declared : list (string * ResponseRule)) (s : Offline) :
  errTruthy err = true ->
  responses (ctxEndpoint c) = Some (forInOrder declared) ->
  let rs := forInOrder declared in
  let msg := errorMessageOf err in
  (Forall (fun kr => arrayIndex (fst kr) = None) declared -> rs = declared)
  /\ match err with
     | ErrObject ctor name message stack =>
         msg = (if Js.truthy message then message else name)
         /\ errorTypeOf err = Ret ctor /\ errStack err = Ret stack
     | ErrPlain ctor text message stack =>
         msg = (if Js.truthy message then message else text)
         /\ errorTypeOf err = Ret ctor /\ errStack err = Ret stack
     | ErrString str => msg = str /\ errorTypeOf err = Ret "String" /\ errStack err = Ret None
     | ErrNumber repr => msg = repr /\ errorTypeOf err = Ret "Number" /\ errStack err = Ret None
     | ErrBool b =>
         msg = (if b then "true" else "false")
         /\ errorTypeOf err = Ret "Boolean" /\ errStack err = Ret None
     | ErrNullish => False
     end
  /\ (forall key rule,
       (selectionPattern rule = None -> patternOf key rule = key)
       /\ (selectionPattern rule = Some "" -> patternOf key rule = key)
       /\ (forall p, selectionPattern rule = Some p -> p <> "" -> patternOf key rule = p))
  /\ (forall name,
       selectResponse msg rs = Ret name
       <-> (name <> "default"
            /\ exists pre rule post,
                 rs = pre ++ (name, rule) :: post
                 /\ Forall (passedOver msg) pre
                 /\ regexpSearch ("^" +:+ patternOf name rule +:+ "$") msg = Some true)
           \/ (name = "default" /\ Forall (passedOver msg) rs))
  /\ (forall name,
       selectResponse msg rs = Ret name ->
       exists ty stack,
         errorTypeOf err = Ret ty /\ errStack err = Ret stack
         /\ fst (failureHandling (ctxEndpoint c) err s)
            = Ret (JObj [("errorMessage", JStr msg); ("errorType", JStr ty);
                         ("stackTrace", match _getArrayStackTrace stack with
                                        | Some lines => JArr (map JStr lines)
                                        | None => JNull
                                        end)],
                   name))
  /\ (forall name,
       selectResponse msg rs = Ret name ->
       (forall rule, assocGet name rs = Some rule ->
                     responseParameters rule = None /\ responseTemplates rule = None) ->
       exists ty stack resp s',
         errorTypeOf err = Ret ty /\ errStack err = Ret stack
         /\ respond c err data s = (Ret tt, s')
         /\ sent (ctxRequestId c) s' = sent (ctxRequestId c) s ++ [resp]
         /\ respSource resp
            = JObj [("errorMessage", JStr msg); ("errorType", JStr ty);
                    ("stackTrace", match _getArrayStackTrace stack with
                                   | Some lines => JArr (map JStr lines)
                                   | None => JNull
                                   end)]
         /\ respStatusCode resp
            = match assocGet name rs ≫= statusCode with
              | Some 0%N | None => 200%N
              | Some code => code
              end).
Proof.
  intros Herr Hrs rs msg.
  destruct (truthy_error_fields err Herr) as (ty & stack & Hty & Hstack).
  split; [apply forInOrder_no_index|].
  split; [destruct err as [ctor name message st|str| |repr|[]|ctor text message st];
          try discriminate Herr; subst msg; cbn; repeat split;
          destruct (Js.truthy message) eqn:Hm; try reflexivity;
          destruct name; [destruct message; [reflexivity|discriminate Hm]|reflexivity]|].
  split; [|split; [|split]].
  - intros key rule. unfold patternOf. split; [|split].
    + intros ->. reflexivity.
    + intros ->. reflexivity.
    + intros p -> Hp. destruct p; [congruence|reflexivity].
  - intros name. split.
    + apply selectResponse_inv.
    + intros [(Hn & pre & rule & post & Hsplit & Hpre & Hhit)|[-> Hall]].
      * rewrite Hsplit. apply selectResponse_hit; assumption.
      * apply selectResponse_default; assumption.
  - intros name Hsel. exists ty, stack. split; [exact Hty|]. split; [exact Hstack|].
    erewrite failureHandling_run; [|exact Hty|exact Hstack|rewrite Hrs; exact Hsel].
    cbn [fst]. unfold failureResult, stackTraceValue. reflexivity.
  - intros name Hsel Hplain.
    set (chosen := responses (ctxEndpoint c) ≫= assocGet name).
    assert (Hchosen : chosen = assocGet name rs) by (subst chosen; rewrite Hrs; reflexivity).
    assert (Hp : chosen ≫= responseParameters = None).
    { rewrite Hchosen. destruct (assocGet name rs) as [rule|] eqn:Hr;
        [cbn; apply (Hplain rule eq_refl)|reflexivity]. }
    assert (Ht : chosen ≫= responseTemplates = None).
    { rewrite Hchosen. destruct (assocGet name rs) as [rule|] eqn:Hr;
        [cbn; apply (Hplain rule eq_refl)|reflexivity]. }
    eexists ty, stack, _, _. split; [exact Hty|]. split; [exact Hstack|].
    split; [|split; [|split]].
    + eapply respond_run.
      * rewrite Herr. apply failureHandling_run; [exact Hty|exact Hstack|].
        rewrite Hrs. exact Hsel.
      * apply no_parameters_run. exact Hp.
      * apply no_templates_run. exact Ht.
    + unfold sent. cbn [output withOutput withHeld].
      rewrite <- !app_assoc, !sentIn_app, sentIn_send.
      rewrite (sentIn_quiet _ (failureLines _ _)), (sentIn_quiet _ (closingLines _ _ _ _));
        [reflexivity| |].
      * unfold closingLines. destruct (configuredStatusCode _); repeat constructor.
      * unfold failureLines. destruct (_getArrayStackTrace stack); repeat constructor.
    + unfold finalResponse, failureResult, stackTraceValue. reflexivity.
    + unfold finalResponse. cbn [respStatusCode setSource setStatusCode].
      fold chosen. rewrite <- Hchosen. unfold configuredStatusCode.
      destruct (chosen ≫= statusCode) as [[|code]|]; reflexivity.
Qed.

End FailureSelection.

Lemma C1_failure_selects_first_match_witness :
  selectResponse (H := sampleEnv) "Not Found: id=5" notFoundRules = Ret "NotFound"
  /\ exists resp s',
       respond (H := sampleEnv) (sampleCtx notFoundRules) (ErrString "Other") JNull
         (booted false (sampleEndpoint "/hello" notFoundRules)) = (Ret tt, s')
       /\ sent "42" s' = [resp]
       /\ respSource resp
          = JObj [("errorMessage", JStr "Other"); ("errorType", JStr "String");
                  ("stackTrace", JNull)]
       /\ respStatusCode resp = 200%N.
Proof.
  pose proof (C1_failure_selects_first_match (H := sampleEnv) (sampleCtx notFoundRules)
                (ErrObject "Error" "Error" "Not Found: id=5" None) JNull notFoundRules
                (booted false (sampleEndpoint "/hello" notFoundRules))
                eq_refl eq_refl) as (_ & _ & _ & Hfirst & _).
  pose proof (C1_failure_selects_first_match (H := sampleEnv) (sampleCtx notFoundRules)
                (ErrString "Other") JNull notFoundRules
                (booted false (sampleEndpoint "/hello" notFoundRules))
                eq_refl eq_refl) as (_ & _ & _ & Hnone & _ & Hbody).
  split.
  - apply Hfirst. left. split; [discriminate|].
    exists [("default", plainRule)], {| statusCode := Some 404%N; selectionPattern := Some "Not Found.*";
                   responseParameters := None; responseTemplates := None |}, [].
    split; [reflexivity|]. split; [|vm_compute; reflexivity].
    constructor; [left; reflexivity|constructor].
  - destruct (Hbody "default") as (ty & stack & resp & s' & Hty & Hstack & Hrun & Hsent & Hsrc & Hcode).
    + apply Hnone. right. split; [reflexivity|].
      constructor; [left; reflexivity|].
      constructor; [right; vm_compute; reflexivity|constructor].
    + intros rule [= <-]. split; reflexivity.
    + injection Hty as <-. injection Hstack as <-.
      exists resp, s'. split; [exact Hrun|]. split; [exact Hsent|]. split; [exact Hsrc|].
      exact Hcode.
Defined.

(** C1, as the claim has it, fails on the order and on the match.
    - The rules are declared [NotFound], [400], [default], and the message
      is matched by the patterns of the first two. In the order of
      declaration [NotFound] comes first; [for ... in] enumerates [400]
      first, and [400] is selected.
    - The pattern [a|b] gives the source [^a|b$], which is found in every
      message that begins with [a] or ends with [b]: the rule is selected
      for the message [axx], which the pattern does not match as a
      whole. *)
Lemma C1_counterexample_index_named_rule_first :
  let notFound := {| statusCode := Some 404%N; selectionPattern := Some "Not Found.*";
                     responseParameters := None; responseTemplates := None |} in
  let badRequest := {| statusCode := Some 400%N; selectionPattern := Some "Not.*";
                       responseParameters := None; responseTemplates := None |} in
  let declared := [("NotFound", notFound); ("400", badRequest); ("default", plainRule)] in
  let alternation := {| statusCode := Some 400%N; selectionPattern := Some "a|b";
                        responseParameters := None; responseTemplates := None |} in
  forInOrder declared = [("400", badRequest); ("NotFound", notFound); ("default", plainRule)]
  /\ regexpSearch (JsEnv := sampleEnv) "^Not Found.*$" "Not Found: id=5" = Some true
  /\ selectResponse (H := sampleEnv) "Not Found: id=5" (forInOrder declared) = Ret "400"
  /\ selectResponse (H := alternationEnv) "axx"
       (forInOrder [("default", plainRule); ("Bad", alternation)]) = Ret "Bad"
  /\ "axx" <> "a" /\ "axx" <> "b".
Proof.
  cbv zeta. split; [vm_compute; reflexivity|]. split; [vm_compute; reflexivity|].
  split; [vm_compute; reflexivity|]. split; [vm_compute; reflexivity|].
  split; discriminate.
Qed.

(** The failure of the example, sent through the whole callback. *)
Example failure_other_sends_error_body :
  (respSource <$> sent "42" (snd (respond (H := sampleEnv) (sampleCtx notFoundRules)
                                    (ErrString "Other") JNull
                                    (booted false (sampleEndpoint "/hello" notFoundRules)))))
  = [JObj [("errorMessage", JStr "Other"); ("errorType", JStr "String");
           ("stackTrace", JNull)]].
Proof. vm_compute. reflexivity. Qed.

(** ** C6, C7: the response parameters *)






Section Parameters.
Context `{JsEnv}.

Lemma parameter_literal rid result key value name s :
  headerNameOf key = Some name ->
  Js.startsWith value "integration.response" = false ->
  processResponseParameter rid result (key, value) s
  = (Ret tt, withHeld (<[rid := header name (literalOf value) true (heldResponse rid s)]> (held s)) s).
Proof.
  unfold headerNameOf, processResponseParameter. intros Hname Hlit.
  destruct (Js.startsWith key _ && truthyAt _ 3); [|discriminate].
  injection Hname as <-. rewrite Hlit. reflexivity.
Qed.





End Parameters.



(** Header names that differ in case only are one header to hapi. *)
Example header_names_fold_case :
  getHeader "Location"
    (heldResponse "42"
       (snd (processResponseParameters (H := sampleEnv) "42"
               (Some (ruleWithParameters
                        [("method.response.header.Location", "'/a'");
                         ("method.response.header.location", "'/b'")]))
               JNull (booted false (sampleEndpoint "/hello" [])))))
  = Some "/b".
Proof. vm_compute. reflexivity. Qed.

(** The example of the specification: [Location] taken from [url]. *)
Example location_from_body :
  getHeader "Location"
    (heldResponse "42"
       (snd (processResponseParameters (H := sampleEnv) "42"
               (Some (ruleWithParameters
                        [("method.response.header.Location", "integration.response.body.url")]))
               (JObj [("url", JStr "http://x")])
               (booted false (sampleEndpoint "/hello" [])))))
  = Some "http://x".
Proof. vm_compute. reflexivity. Qed.

(** C6, at the input on which the code departs from it. The default rule
    maps [X-Trace] from [integration.response.header.X-Trace] and then
    [Location] from [integration.response.body.url]. On completion the
    callback logs the warning for the first entry and then throws the
    [ReferenceError] of the unbound [logPluginIssue]: the entry is not
    skipped, the second entry is never reached, and no response is sent
    although the request is marked done. *)
Theorem C6_unsupported_source_aborts_callback :
  let params := [("method.response.header.X-Trace", "integration.response.header.X-Trace");
                 ("method.response.header.Location", "integration.response.body.url")] in
  let e := sampleEndpoint "/hello" [("default", ruleWithParameters params)] in
  let final := run (H := sampleEnv)
                 [Arrival 0 (sampleInvocation "42" pendingHandler);
                  Completion "42" ErrNullish (JObj [("url", JStr "http://x")])]
                 (booted false e) in
  exists s,
    final = Some s
    /\ sent "42" s = []
    /\ (done <$> requests s !! "42") = Some true
    /\ getHeader "Location" (heldResponse "42" s) = None
    /\ drop (List.length (output s) - 4) (output s)
       = unsupportedSourceLines "method.response.header.X-Trace"
           "integration.response.header.X-Trace"
         ++ [Escaped (ReferenceError "logPluginIssue is not defined")].
Proof. vm_compute. eexists. repeat split. Qed.

(** ** C8: the response templates *)

Section Templates.
Context `{JsEnv}.




End Templates.



(** A template that fails to render: the error is logged and the raw
    result is sent, under the content type of the template. *)
Example broken_template_sends_raw_result :
  let e := sampleEndpoint "/hello" [("default", ruleWithTemplates [("text/html", "#broken")])] in
  (sent "42" <$> run (H := sampleEnv)
                   [Arrival 0 (sampleInvocation "42" pendingHandler);
                    Completion "42" ErrNullish (JStr "hi")]
                   (booted false e))
  = Some [{| respStatusCode := 200; respSource := JStr "hi";
             respHeaders := [("content-type", "text/html")] |}].
Proof. vm_compute. reflexivity. Qed.

(** The scenario of the specification: no template, a successful
    completion. *)
Example hello_scenario :
  (sent "42" <$> run (H := sampleEnv)
                   [Arrival 0 (sampleInvocation "42" pendingHandler);
                    Completion "42" ErrNullish (JObj [("msg", JStr "hi")])]
                   (booted false (sampleEndpoint "/hello" [])))
  = Some [{| respStatusCode := 200; respSource := JObj [("msg", JStr "hi")];
             respHeaders := [("content-type", "application/json")] |}].
Proof. vm_compute. reflexivity. Qed.

(** ** The reply helpers, run *)

Lemma withRequests_id s : withRequests (requests s) s = s.
Proof. destruct s. reflexivity. Qed.

Lemma clearedState_terminal r :
  timerCalled (timeout r) = false -> timerLive (timeout r) = false -> clearedState r = r.
Proof.
  destruct r as [d [| |[called cl ms]]]; cbn; try reflexivity.
  intros -> Hlive. cbn in Hlive. destruct cl; [reflexivity|discriminate].
Qed.

Lemma getRequest_run rid s r : requests s !! rid = Some r -> getRequest rid s = (Ret r, s).
Proof. intros Hr. unfold getRequest, bind, get. rewrite Hr. reflexivity. Qed.

Lemma getRequest_missing rid s :
  requests s !! rid = None ->
  getRequest rid s = (Throw (TypeError "Cannot read property of undefined"), s).
Proof. intros Hr. unfold getRequest, bind, get. rewrite Hr. reflexivity. Qed.

Lemma _clearTimeout_fired rid s r :
  requests s !! rid = Some r -> timerCalled (timeout r) = true ->
  _clearTimeout rid s = (Ret true, s).
Proof.
  intros Hr Hc. unfold _clearTimeout. rewrite (bind_Ret _ _ _ _ _ (getRequest_run _ _ _ Hr)).
  destruct (timeout r) as [| |t]; try discriminate. cbn in Hc. rewrite Hc. reflexivity.
Qed.

Lemma _clearTimeout_run rid s r :
  requests s !! rid = Some r -> timerCalled (timeout r) = false ->
  _clearTimeout rid s
  = (Ret false, withRequests (<[rid := clearedState r]> (requests s)) s).
Proof.
  intros Hr Hc. unfold _clearTimeout. rewrite (bind_Ret _ _ _ _ _ (getRequest_run _ _ _ Hr)).
  unfold clearedState. destruct r as [d [| |t]]; cbn in *.
  - rewrite insert_id by exact Hr. rewrite withRequests_id. reflexivity.
  - rewrite insert_id by exact Hr. rewrite withRequests_id. reflexivity.
  - rewrite Hc. reflexivity.
Qed.

Lemma setDone_run rid s r :
  requests s !! rid = Some r ->
  setDone rid s
  = (Ret tt, withRequests (<[rid := {| done := true; timeout := timeout r |}]> (requests s)) s).
Proof.
  intros Hr. unfold setDone. rewrite (bind_Ret _ _ _ _ _ (getRequest_run _ _ _ Hr)).
  reflexivity.
Qed.

(** After the timer check and [done = true]: the state both the callback
    and [_reply500] continue from. *)
Lemma clear_then_done rid s r :
  requests s !! rid = Some r -> timerCalled (timeout r) = false ->
  setDone rid (withRequests (<[rid := clearedState r]> (requests s)) s)
  = (Ret tt, withRequests (<[rid := completedState r]> (requests s)) s).
Proof.
  intros Hr Hc. erewrite setDone_run; [|cbn; apply lookup_insert_eq].
  cbn. rewrite insert_insert_eq. reflexivity.
Qed.

Section Callback.
Context `{JsEnv}.

Lemma callback_fired c err data s r :
  requests s !! ctxRequestId c = Some r -> timerCalled (timeout r) = true ->
  callback c err data s = (Ret tt, s).
Proof.
  intros Hr Hc. unfold callback.
  rewrite (bind_Ret _ _ _ _ _ (_clearTimeout_fired _ _ _ Hr Hc)). reflexivity.
Qed.

Lemma callback_done c err data s r :
  requests s !! ctxRequestId c = Some r ->
  timerCalled (timeout r) = false -> done r = true ->
  callback c err data s
  = (Ret tt,
     withOutput (output s ++ doneTwiceLines (ctxFunName c))
       (withRequests (<[ctxRequestId c := clearedState r]> (requests s)) s)).
Proof.
  intros Hr Hc Hd. unfold callback.
  rewrite (bind_Ret _ _ _ _ _ (_clearTimeout_run _ _ _ Hr Hc)). cbv beta iota zeta.
  rewrite (bind_Ret _ _ _ _ _
             (getRequest_run (ctxRequestId c) _ (clearedState r) (lookup_insert_eq _ _ _))).
  cbn [done clearedState]. rewrite Hd.
  unfold printBlankLine, serverlessLog, emit, modify, bind. cbn.
  rewrite <- app_assoc. reflexivity.
Qed.

Lemma callback_pending c err data s r :
  requests s !! ctxRequestId c = Some r ->
  timerCalled (timeout r) = false -> done r = false ->
  callback c err data s
  = respond c err data
      (withRequests (<[ctxRequestId c := completedState r]> (requests s)) s).
Proof.
  intros Hr Hc Hd. unfold callback.
  rewrite (bind_Ret _ _ _ _ _ (_clearTimeout_run _ _ _ Hr Hc)). cbv beta iota zeta.
  rewrite (bind_Ret _ _ _ _ _
             (getRequest_run (ctxRequestId c) _ (clearedState r) (lookup_insert_eq _ _ _))).
  cbn [done clearedState]. rewrite Hd.
  rewrite (bind_Ret _ _ _ _ _ (clear_then_done _ _ _ Hr Hc)). reflexivity.
Qed.

Lemma callback_unknown c err data s :
  requests s !! ctxRequestId c = None ->
  callback c err data s = (Throw (TypeError "Cannot read property of undefined"), s).
Proof.
  intros Hr. unfold callback, _clearTimeout, bind.
  rewrite (getRequest_missing _ _ Hr). reflexivity.
Qed.

End Callback.

Lemma _reply500_fired rid message err s r :
  requests s !! rid = Some r -> timerCalled (timeout r) = true ->
  _reply500 rid message err s = (Ret tt, s).
Proof.
  intros Hr Hc. unfold _reply500.
  rewrite (bind_Ret _ _ _ _ _ (_clearTimeout_fired _ _ _ Hr Hc)). reflexivity.
Qed.

Lemma _reply500_run rid message err s r stack ty :
  requests s !! rid = Some r -> timerCalled (timeout r) = false ->
  errStack err = Ret stack -> errorTypeOf err = Ret ty ->
  let stackTrace := _getArrayStackTrace stack in
  let resp := setSource (errorBody message ty stackTrace)
                (setStatusCode 200 (heldResponse rid s)) in
  _reply500 rid message err s
  = (Ret tt,
     withOutput (output s ++ [Log message; traceEffect err stackTrace;
                              Log "Replying error in handler"; Send rid resp])
       (withHeld (<[rid := resp]> (held s))
          (withRequests (<[rid := completedState r]> (requests s)) s))).
Proof.
  intros Hr Hc Hst Hty stackTrace resp. unfold _reply500.
  rewrite (bind_Ret _ _ _ _ _ (_clearTimeout_run _ _ _ Hr Hc)). cbv beta iota zeta.
  rewrite (bind_Ret _ _ _ _ _ (clear_then_done _ _ _ Hr Hc)).
  rewrite Hst, Hty. subst resp stackTrace. unfold traceEffect, heldResponse.
  unfold updResponse, getResponse, send, getResponse, serverlessLog, emit, setHeld,
    modify, lift, bind, get, ret. cbn.
  rewrite ?lookup_insert_eq. cbn. rewrite ?insert_insert_eq, <- ?app_assoc. reflexivity.
Qed.

Lemma _reply500_nullish rid message s r :
  requests s !! rid = Some r -> timerCalled (timeout r) = false ->
  _reply500 rid message ErrNullish s
  = (Throw (TypeError "Cannot read property 'stack' of null"),
     withRequests (<[rid := completedState r]> (requests s)) s).
Proof.
  intros Hr Hc. unfold _reply500.
  rewrite (bind_Ret _ _ _ _ _ (_clearTimeout_run _ _ _ Hr Hc)). cbv beta iota zeta.
  rewrite (bind_Ret _ _ _ _ _ (clear_then_done _ _ _ Hr Hc)). reflexivity.
Qed.

Lemma _reply500_unknown rid message err s :
  requests s !! rid = None ->
  _reply500 rid message err s = (Throw (TypeError "Cannot read property of undefined"), s).
Proof.
  intros Hr. unfold _reply500, _clearTimeout, bind.
  rewrite (getRequest_missing _ _ Hr). reflexivity.
Qed.

Lemma _replyTimeout_stale funName ms rid s :
  currentRequestId s <> Some rid -> _replyTimeout funName ms rid s = (Ret tt, s).
Proof.
  intros Hne. unfold _replyTimeout, bind, get.
  rewrite bool_decide_eq_false_2 by exact Hne. reflexivity.
Qed.

Lemma _replyTimeout_run funName ms rid s r :
  currentRequestId s = Some rid -> requests s !! rid = Some r ->
  let resp := setSource (JStr (timeoutBody funName ms))
                (setStatusCode 503 (heldResponse rid s)) in
  _replyTimeout funName ms rid s
  = (Ret tt,
     withOutput (output s ++ [Log ("Replying timeout after " +:+ pretty ms +:+ "ms");
                              Send rid resp])
       (withHeld (<[rid := resp]> (held s))
          (withRequests (<[rid := {| done := true; timeout := timeout r |}]> (requests s)) s))).
Proof.
  intros Hcur Hr resp. unfold _replyTimeout.
  rewrite (bind_Ret _ _ _ _ _ (eq_refl : get s = (Ret s, s))).
  rewrite bool_decide_eq_true_2 by exact Hcur. cbn [negb].
  rewrite (bind_Ret _ _ _ _ _ (setDone_run _ _ _ Hr)).
  subst resp. unfold heldResponse.
  unfold updResponse, getResponse, send, getResponse, serverlessLog, emit, setHeld,
    modify, lift, bind, get, ret. cbn.
  rewrite ?lookup_insert_eq. cbn. rewrite ?insert_insert_eq, <- ?app_assoc. reflexivity.
Qed.

(** ** C3: completion after a terminal state *)

Lemma twiceWarnings_app funName out new :
  twiceWarnings funName (out ++ new)
  = (twiceWarnings funName out + twiceWarnings funName new)%nat.
Proof. unfold twiceWarnings. rewrite List.filter_app, length_app. reflexivity. Qed.

Lemma twiceWarnings_doneTwiceLines funName :
  twiceWarnings funName (doneTwiceLines funName) = 1%nat.
Proof.
  unfold twiceWarnings, doneTwiceLines. cbn.
  rewrite bool_decide_eq_true_2 by reflexivity. reflexivity.
Qed.

Lemma Calm_ret {A} (a : A) : Calm (ret a).
Proof. intros f s. reflexivity. Qed.

Lemma Calm_throw {A} e : Calm (@throw A e).
Proof. intros f s. reflexivity. Qed.

Lemma Calm_lift {A} (o : Outcome A) : Calm (lift o).
Proof. intros f s. reflexivity. Qed.

Lemma Calm_get : Calm get.
Proof. intros f s. reflexivity. Qed.

Lemma Calm_bind {A B} (m : M A) (k : A -> M B) :
  Calm m -> (forall a, Calm (k a)) -> Calm (bind m k).
Proof.
  intros Hm Hk f s. unfold bind. specialize (Hm f s).
  destruct (m s) as [[a| |] s1]; cbn in *; try exact Hm.
  rewrite (Hk a f s1). exact Hm.
Qed.

Lemma Calm_tryCatch {A} (m : M A) (h : JsException -> M A) :
  Calm m -> (forall e, Calm (h e)) -> Calm (tryCatch m h).
Proof.
  intros Hm Hh f s. unfold tryCatch. specialize (Hm f s).
  destruct (m s) as [[a| |] s1]; cbn in *; try exact Hm.
  rewrite (Hh e f s1). exact Hm.
Qed.

Lemma Calm_forEach {A} (g : A -> M unit) xs : (forall x, Calm (g x)) -> Calm (forEach g xs).
Proof.
  intros Hg. induction xs as [|x xs IH]; cbn [forEach].
  - apply Calm_ret.
  - apply Calm_bind; [apply Hg|intros _; exact IH].
Qed.

Lemma Calm_emit e : notTwice e -> Calm (emit e).
Proof.
  intros He f s. unfold emit, modify. cbn [snd output withOutput].
  rewrite twiceWarnings_app.
  assert (Hzero : twiceWarnings f [e] = 0%nat).
  { unfold twiceWarnings. destruct e; cbn in *; try reflexivity.
    rewrite bool_decide_eq_false_2 by apply He. reflexivity. }
  rewrite Hzero. lia.
Qed.

Lemma Calm_setHeld h : Calm (setHeld h).
Proof. intros f s. reflexivity. Qed.

Lemma Calm_updResponse rid g : Calm (updResponse rid g).
Proof.
  unfold updResponse, getResponse.
  repeat first [apply Calm_bind; [|intros] | apply Calm_get | apply Calm_ret | apply Calm_setHeld].
Qed.

Lemma Calm_send rid : Calm (send rid).
Proof.
  unfold send, getResponse.
  repeat first [apply Calm_bind; [|intros] | apply Calm_get | apply Calm_ret
               | apply Calm_emit; exact I].
Qed.

Ltac notTwiceLine :=
  let f := fresh "f" in
  let Heq := fresh "Heq" in
  cbn [notTwice]; intros f Heq; unfold doneTwiceWarning in Heq;
  cbn [String.append] in Heq; discriminate Heq.

Ltac calm1 :=
  lazymatch goal with
  | |- Calm (ret _) => apply Calm_ret
  | |- Calm (throw _) => apply Calm_throw
  | |- Calm (lift _) => apply Calm_lift
  | |- Calm get => apply Calm_get
  | |- Calm (updResponse _ _) => apply Calm_updResponse
  | |- Calm (setHeld _) => apply Calm_setHeld
  | |- Calm (send _) => apply Calm_send
  | |- Calm (serverlessLog _) => unfold serverlessLog
  | |- Calm printBlankLine => unfold printBlankLine
  | |- Calm (warnResponseParameter _ _) => unfold warnResponseParameter
  | |- Calm (emit _) => apply Calm_emit; first [exact I | notTwiceLine]
  | |- Calm (bind _ _) => apply Calm_bind; [|intros]
  | |- Calm (tryCatch _ _) => apply Calm_tryCatch; [|intros]
  | |- Calm (forEach _ _) => apply Calm_forEach; intros
  | |- Calm (if ?b then _ else _) => destruct b
  | |- Calm (match ?x with _ => _ end) => destruct x
  end.

Ltac calm := repeat calm1.

Section DoubleCompletion.
Context `{JsEnv}.

Lemma Calm_respond c err data : Calm (respond c err data).
Proof.
  unfold respond, failureHandling, processResponseParameters, processResponseTemplates.
  apply Calm_bind; [calm|intros [result responseName]].
  apply Calm_bind.
  { destruct (_ ≫= responseParameters); [|apply Calm_ret].
    apply Calm_forEach. intros [key value].
    unfold processResponseParameter. calm. }
  intros _. apply Calm_bind.
  { destruct (_ ≫= responseTemplates) as [[|[templateName t] rest]|]; calm. }
  intros [result' ct]. calm.
  apply Calm_emit. destruct (errTruthy err); notTwiceLine.
Qed.

Lemma clearedState_completedState r : clearedState (completedState r) = completedState r.
Proof. destruct r as [d [| |[called cl ms]]]; reflexivity. Qed.

Lemma timerCalled_clearedSlot slot : timerCalled (clearedSlot slot) = timerCalled slot.
Proof. destruct slot as [| |[called cl ms]]; reflexivity. Qed.

(** A call on a request that is done and whose timer has not fired: the
    warning, and nothing else. *)
Lemma callback_completed c err data s r :
  requests s !! ctxRequestId c = Some r -> Completed r ->
  callback c err data s
  = (Ret tt, withOutput (output s ++ doneTwiceLines (ctxFunName c)) s).
Proof.
  intros Hr (Hd & Hc & Hl).
  rewrite (callback_done _ _ _ _ _ Hr Hc Hd).
  rewrite (clearedState_terminal _ Hc Hl), insert_id by exact Hr.
  rewrite withRequests_id. reflexivity.
Qed.

(** C3, as the code has it. For a request whose state is terminal, a
    further completion call returns without sending and without changing
    the state:
    - after [Completed] its whole effect is the blank line and the one-line
      warning;
    - after [TimedOut] it has no effect at all.
    For a pending request completed twice in a row, the second call is
    such a call: it logs the warning and sends nothing, and the warning is
    logged exactly once over the two calls. Exactly one response is sent
    when the first call runs to its end; when the first call throws, which
    it does after having marked the request done, no response is sent at
    all. *)
Theorem C3_completion_after_terminal (c : Ctx) (e1 e2 : ErrValue) (d1 d2 : JsValue)
    (s : Offline) (r : RequestState) :
  requests s !! ctxRequestId c = Some r ->
  (Completed r ->
   callback c e1 d1 s = (Ret tt, withOutput (output s ++ doneTwiceLines (ctxFunName c)) s))
  /\ (TimedOut r -> callback c e1 d1 s = (Ret tt, s))
  /\ (Pending r ->
      let s1 := snd (callback c e1 d1 s) in
      let s2 := snd (callback c e2 d2 s1) in
      callback c e2 d2 s1
      = (Ret tt, withOutput (output s1 ++ doneTwiceLines (ctxFunName c)) s1)
      /\ twiceWarnings (ctxFunName c) (output s2)
         = S (twiceWarnings (ctxFunName c) (output s))
      /\ (fst (callback c e1 d1 s) = Ret tt ->
          exists resp, sent (ctxRequestId c) s2 = sent (ctxRequestId c) s ++ [resp])
      /\ (fst (callback c e1 d1 s) <> Ret tt ->
          sent (ctxRequestId c) s2 = sent (ctxRequestId c) s)).
Proof.
  intros Hr. split; [|split].
  - intros Hcompleted. apply (callback_completed _ _ _ _ _ Hr Hcompleted).
  - intros [_ Hc]. apply (callback_fired _ _ _ _ _ Hr Hc).
  - intros [Hd Hc] s1 s2.
    set (s' := withRequests (<[ctxRequestId c := completedState r]> (requests s)) s).
    assert (Hs1 : callback c e1 d1 s = respond c e1 d1 s')
      by apply (callback_pending _ _ _ _ _ Hr Hc Hd).
    assert (Hreq : requests s1 = requests s'
                   /\ twiceWarnings (ctxFunName c) (output s1)
                      = twiceWarnings (ctxFunName c) (output s)
                   /\ (fst (callback c e1 d1 s) = Ret tt ->
                       exists resp, sent (ctxRequestId c) s1 = sent (ctxRequestId c) s ++ [resp])
                   /\ (fst (callback c e1 d1 s) <> Ret tt ->
                       sent (ctxRequestId c) s1 = sent (ctxRequestId c) s)).
    { subst s1. rewrite Hs1.
      pose proof (SendsLast_respond c e1 d1 s') as Hsend.
      pose proof (Calm_respond c e1 d1 (ctxFunName c) s') as Hcalm.
      destruct (respond c e1 d1 s') as [[[]| |] s1] eqn:Hrun; cbn [fst snd] in *.
      - destruct Hsend as (resp & Hrq & _ & _ & _ & _ & Hsent & _).
        repeat split; [exact Hrq|exact Hcalm|eauto|congruence].
      - destruct Hsend as (Hrq & _ & _ & _ & _ & Hsent).
        repeat split; [exact Hrq|exact Hcalm|discriminate|intros _; apply Hsent].
      - destruct Hsend as (Hrq & _ & _ & _ & _ & Hsent).
        repeat split; [exact Hrq|exact Hcalm|discriminate|intros _; apply Hsent]. }
    destruct Hreq as (Hrq & Htw & Hok & Hko).
    assert (Hr1 : requests s1 !! ctxRequestId c = Some (completedState r)).
    { rewrite Hrq. subst s'. cbn. apply lookup_insert_eq. }
    assert (Hsecond : callback c e2 d2 s1
                      = (Ret tt, withOutput (output s1 ++ doneTwiceLines (ctxFunName c)) s1)).
    { apply (callback_completed _ _ _ _ _ Hr1). repeat split.
      - cbn. rewrite timerCalled_clearedSlot. exact Hc.
      - cbn. destruct (timeout r) as [| |[called cl ms]]; cbn in *; try reflexivity.
        rewrite andb_false_r. reflexivity. }
    assert (Hsent2 : sent (ctxRequestId c) s2 = sent (ctxRequestId c) s1).
    { subst s2. rewrite Hsecond. cbn [snd]. rewrite sent_withOutput_app.
      rewrite sentIn_quiet; [apply app_nil_r|]. repeat constructor. }
    split; [exact Hsecond|]. split; [|split].
    + subst s2. rewrite Hsecond. cbn [snd output withOutput].
      rewrite twiceWarnings_app, twiceWarnings_doneTwiceLines, Htw. lia.
    + intros Hfst. rewrite Hsent2. apply Hok, Hfst.
    + intros Hfst. rewrite Hsent2. apply Hko, Hfst.
Qed.

End DoubleCompletion.

Lemma C3_completion_after_terminal_witness :
  let s := pendingState false [] in
  let s2 := snd (callback (H := sampleEnv) (sampleCtx []) ErrNullish (JStr "again")
                   (snd (callback (H := sampleEnv) (sampleCtx []) ErrNullish (JStr "ok") s))) in
  twiceWarnings "hello" (output s2) = S (twiceWarnings "hello" (output s))
  /\ exists resp, sent "42" s2 = sent "42" s ++ [resp].
Proof.
  intros s s2.
  destruct (C3_completion_after_terminal (H := sampleEnv) (sampleCtx [])
              ErrNullish ErrNullish (JStr "ok") (JStr "again") s
              {| done := false; timeout := TimeoutTimer (newTimer 1000) |})
    as (_ & _ & Hpending).
  - vm_compute. reflexivity.
  - destruct Hpending as (_ & Hwarn & Hsent & _).
    + split; reflexivity.
    + split; [exact Hwarn|]. apply Hsent. vm_compute. reflexivity.
Defined.

(** C3, as the claim has it, fails: calling completion twice need not send
    a response. The default rule takes a header from the body, the first
    completion has no data, and [toString] throws after the request is
    marked done; the second completion only logs the warning. *)
Lemma C3_counterexample_two_completions_no_response :
  let rules := [("default", ruleWithParameters
                              [("method.response.header.X-Result",
                                "integration.response.body")])] in
  let s := pendingState false rules in
  let final := run (H := sampleEnv)
                 [Completion "42" ErrNullish JUndefined;
                  Completion "42" ErrNullish (JStr "again")] s in
  exists s2,
    final = Some s2
    /\ sent "42" s2 = []
    /\ twiceWarnings "hello" (output s2) = 1%nat
    /\ (done <$> requests s2 !! "42") = Some true.
Proof. vm_compute. eexists. repeat split. Qed.

(** Completing twice, run: one response, one warning. *)
Example complete_twice :
  let s := default (pendingState false [])
             (run (H := sampleEnv)
                [Completion "42" ErrNullish (JStr "ok");
                 Completion "42" ErrNullish (JStr "again")]
                (pendingState false [])) in
  (respSource <$> sent "42" s) = [JStr "ok"] /\ twiceWarnings "hello" (output s) = 1%nat.
Proof. vm_compute. split; reflexivity. Qed.

(** ** The effect of one operation on the request table *)

Lemma sentIn_other rid id new :
  rid <> id -> Forall (sendsOnlyTo id) new -> sentIn rid new = [].
Proof.
  intros Hne. induction 1 as [|e l He _ IH]; [reflexivity|].
  destruct e; cbn in *; try exact IH.
  subst. rewrite bool_decide_eq_false_2 by congruence. exact IH.
Qed.

Lemma notSend_sendsOnlyTo id new : Forall notSend new -> Forall (sendsOnlyTo id) new.
Proof.
  induction 1 as [|e l He _ IH]; constructor; [|exact IH].
  destruct e; cbn in *; tauto.
Qed.

Lemma others_refl id s : others id s s.
Proof. repeat split. Qed.

Lemma others_trans id s1 s2 s3 : others id s1 s2 -> others id s2 s3 -> others id s1 s3.
Proof.
  intros (H1 & Ho1 & Hs1) (H2 & Ho2 & Hs2). split; [|split; congruence].
  intros rid Hne. destruct (H1 rid Hne) as (?&?&?), (H2 rid Hne) as (?&?&?).
  repeat split; congruence.
Qed.

Lemma eff_intro id s s' :
  others id s s' ->
  contexts s' = contexts s ->
  currentRequestId s' = currentRequestId s ->
  noNewTimer id s s' ->
  (requests s !! id = None <-> requests s' !! id = None) ->
  eff id s s'.
Proof. unfold eff. tauto. Qed.

Lemma noNewTimer_same id s s' : requests s' !! id = requests s !! id -> noNewTimer id s s'.
Proof. intros Heq r' t'. rewrite Heq. eauto. Qed.

Lemma eff_refl id s : eff id s s.
Proof.
  apply eff_intro; try reflexivity; [apply others_refl|apply noNewTimer_same; reflexivity].
Qed.

Lemma eff_trans id s1 s2 s3 : eff id s1 s2 -> eff id s2 s3 -> eff id s1 s3.
Proof.
  intros (Ho1 & Hc1 & Hi1 & Ht1 & Hn1) (Ho2 & Hc2 & Hi2 & Ht2 & Hn2).
  apply eff_intro; [eapply others_trans; eassumption|congruence|congruence| |tauto].
  intros r3 t3 Hr3 Hk3. destruct (Ht2 _ _ Hr3 Hk3) as (r2 & t2 & Hr2 & Hk2).
  apply (Ht1 _ _ Hr2 Hk2).
Qed.

(** New output that only sends to [id], with the table as it was. *)
Lemma eff_output id s new :
  Forall (sendsOnlyTo id) new -> eff id s (withOutput (output s ++ new) s).
Proof.
  intros Hnew.
  apply eff_intro; try reflexivity; [|apply noNewTimer_same; reflexivity].
  split; [|split; reflexivity]. intros rid Hne. split; [reflexivity|].
  split; [|reflexivity].
  rewrite sent_withOutput_app, (sentIn_other _ _ _ Hne Hnew). apply app_nil_r.
Qed.

(** A new entry for [id] that holds a timer only if the old one did. *)
Lemma eff_requests id s r r' :
  requests s !! id = Some r ->
  (forall t', timeout r' = TimeoutTimer t' -> exists t, timeout r = TimeoutTimer t) ->
  eff id s (withRequests (<[id := r']> (requests s)) s).
Proof.
  intros Hr Hk. apply eff_intro; try reflexivity.
  - split; [|split; reflexivity]. intros rid Hne. cbn.
    rewrite lookup_insert_ne by congruence. repeat split.
  - intros r0 t0. cbn. rewrite lookup_insert_eq. intros [= <-] Ht.
    destruct (Hk _ Ht) as [t Ht']. eauto.
  - cbn. rewrite Hr, lookup_insert_eq. split; discriminate.
Qed.

Lemma eff_held id s h : eff id s (withHeld h s).
Proof.
  apply eff_intro; try reflexivity; [|apply noNewTimer_same; reflexivity].
  repeat split.
Qed.

Lemma quietStep_eff id s s' : quietStep s s' -> eff id s s'.
Proof.
  intros (Hr & Hc & Hi & Ho & Hsv & Hs).
  apply eff_intro; [|exact Hc|exact Hi|apply noNewTimer_same; rewrite Hr; reflexivity
                   |rewrite Hr; tauto].
  split; [|split; assumption]. intros rid _. rewrite Hr, Hc, Hs. repeat split.
Qed.

Lemma sendStep_eff id s s' resp : sendStep id s s' resp -> eff id s s'.
Proof.
  intros (Hr & Hc & Hi & Ho & Hsv & Hs & Hother).
  apply eff_intro; [|exact Hc|exact Hi|apply noNewTimer_same; rewrite Hr; reflexivity
                   |rewrite Hr; tauto].
  split; [|split; assumption]. intros rid Hne.
  rewrite Hr, Hc, (Hother _ Hne). repeat split.
Qed.

Lemma clearedSlot_timer slot t' :
  clearedSlot slot = TimeoutTimer t' -> exists t, slot = TimeoutTimer t.
Proof. destruct slot; cbn; try discriminate. eauto. Qed.

Section Effects.
Context `{JsEnv}.

(** What [respond] leaves behind, as one statement. *)
Lemma respond_after c err data s0 :
  let id := ctxRequestId c in
  let o := fst (respond c err data s0) in
  let s1 := snd (respond c err data s0) in
  requests s1 = requests s0
  /\ eff id s0 s1
  /\ ((o = Ret tt /\ exists resp, sent id s1 = sent id s0 ++ [resp])
      \/ (o <> Ret tt /\ sent id s1 = sent id s0)).
Proof.
  intros id o s1. subst o s1.
  pose proof (SendsLast_respond c err data s0) as Hsend.
  destruct (respond c err data s0) as [[[]| |] s1]; cbn [fst snd].
  - destruct Hsend as (resp & Hstep). split; [apply Hstep|].
    split; [eapply sendStep_eff; exact Hstep|]. left. split; [reflexivity|].
    exists resp. apply Hstep.
  - split; [apply Hsend|]. split; [apply quietStep_eff; exact Hsend|].
    right. split; [discriminate|]. apply Hsend.
  - split; [apply Hsend|]. split; [apply quietStep_eff; exact Hsend|].
    right. split; [discriminate|]. apply Hsend.
Qed.

Lemma callback_eff c err data s : eff (ctxRequestId c) s (snd (callback c err data s)).
Proof.
  destruct (requests s !! ctxRequestId c) as [r|] eqn:Hr.
  2:{ rewrite (callback_unknown _ _ _ _ Hr). apply eff_refl. }
  destruct (timerCalled (timeout r)) eqn:Hc.
  { rewrite (callback_fired _ _ _ _ _ Hr Hc). apply eff_refl. }
  assert (Hcleared : forall d, eff (ctxRequestId c) s
            (withRequests (<[ctxRequestId c := {| done := d; timeout := clearedSlot (timeout r) |}]>
                             (requests s)) s)).
  { intros d. apply (eff_requests _ _ _ _ Hr). intros t'. apply clearedSlot_timer. }
  destruct (done r) eqn:Hd.
  - rewrite (callback_done _ _ _ _ _ Hr Hc Hd). cbn [snd].
    eapply eff_trans; [apply (Hcleared (done r))|].
    apply (eff_output _ (withRequests _ s)). repeat constructor.
  - rewrite (callback_pending _ _ _ _ _ Hr Hc Hd).
    eapply eff_trans; [apply (Hcleared true)|]. apply respond_after.
Qed.

End Effects.

Lemma error_fields err :
  err = ErrNullish
  \/ exists ty stack, errorTypeOf err = Ret ty /\ errStack err = Ret stack.
Proof. destruct err; cbn; eauto. Qed.

Lemma _reply500_eff rid message err s : eff rid s (snd (_reply500 rid message err s)).
Proof.
  destruct (requests s !! rid) as [r|] eqn:Hr.
  2:{ rewrite (_reply500_unknown _ _ _ _ Hr). apply eff_refl. }
  destruct (timerCalled (timeout r)) eqn:Hc.
  { rewrite (_reply500_fired _ _ _ _ _ Hr Hc). apply eff_refl. }
  assert (Hdone : eff rid s (withRequests (<[rid := completedState r]> (requests s)) s)).
  { apply (eff_requests _ _ _ _ Hr). intros t'. apply clearedSlot_timer. }
  destruct (error_fields err) as [->|(ty & stack & Hty & Hstack)].
  - rewrite (_reply500_nullish _ _ _ _ Hr Hc). exact Hdone.
  - rewrite (_reply500_run _ message err _ _ stack ty Hr Hc Hstack Hty). cbn [snd].
    eapply eff_trans; [exact Hdone|]. eapply eff_trans; [apply eff_held|].
    apply (eff_output _ (withHeld _ (withRequests _ s))).
    repeat constructor. unfold traceEffect. destruct (_getArrayStackTrace stack); exact I.
Qed.

(** ** The invariant of one request *)

Lemma timerLive_clearedSlot slot : timerLive (clearedSlot slot) = false.
Proof.
  destruct slot as [| |[called cl ms]]; cbn; try reflexivity. apply andb_false_r.
Qed.

Lemma good_intro id s r :
  requests s !! id = Some r ->
  (timerLive (timeout r) = true -> done r = false) ->
  (done r = false -> sent id s = []) ->
  (List.length (sent id s) <= 1)%nat ->
  (forall c, contexts s !! id = Some c -> ctxRequestId c = id) ->
  good id s.
Proof. intros Hr H1 H2 H3 H4. unfold good. rewrite Hr. auto. Qed.

Lemma good_known id s r :
  good id s -> requests s !! id = Some r ->
  (timerLive (timeout r) = true -> done r = false)
  /\ (done r = false -> sent id s = [])
  /\ (List.length (sent id s) <= 1)%nat
  /\ (forall c, contexts s !! id = Some c -> ctxRequestId c = id).
Proof. unfold good. intros Hg Hr. rewrite Hr in Hg. exact Hg. Qed.

(** The invariant of a request that other work has left alone. *)
Lemma good_others id rid s s' :
  rid <> id -> others id s s' -> good rid s -> good rid s'.
Proof.
  intros Hne (Ho & _ & _) Hg. destruct (Ho rid Hne) as (Hr & Hs & Hc).
  unfold good in *. rewrite Hr, Hs, Hc. exact Hg.
Qed.

Section Invariant.
Context `{JsEnv}.

Lemma callback_good c err data s :
  let id := ctxRequestId c in
  good id s ->
  good id (snd (callback c err data s))
  /\ (is_Some (requests s !! id) ->
      fst (callback c err data s) <> Ret tt -> sent id (snd (callback c err data s)) = []).
Proof.
  intros id Hg. subst id.
  destruct (requests s !! ctxRequestId c) as [r|] eqn:Hr.
  2:{ rewrite (callback_unknown _ _ _ _ Hr). split; [exact Hg|]. intros [? [=]]. }
  destruct (good_known _ _ _ Hg Hr) as (Hlive & Hpend & Hlen & Hctx).
  destruct (timerCalled (timeout r)) eqn:Hc.
  { rewrite (callback_fired _ _ _ _ _ Hr Hc). split; [exact Hg|]. intros _ []. reflexivity. }
  destruct (done r) eqn:Hd.
  - rewrite (callback_done _ _ _ _ _ Hr Hc Hd). cbn [fst snd].
    split; [|intros _ []; reflexivity].
    eapply (good_intro _ _ (clearedState r)).
    + cbn. apply lookup_insert_eq.
    + cbn. rewrite timerLive_clearedSlot. discriminate.
    + cbn. rewrite Hd. discriminate.
    + unfold sent in *. cbn [output withOutput withRequests].
      rewrite sentIn_app, (sentIn_quiet _ (doneTwiceLines _)) by repeat constructor.
      rewrite app_nil_r. exact Hlen.
    + exact Hctx.
  - rewrite (callback_pending _ _ _ _ _ Hr Hc Hd).
    set (s0 := withRequests (<[ctxRequestId c := completedState r]> (requests s)) s).
    destruct (respond_after c err data s0) as (Hrq & Heff & Hsent).
    assert (Hs0 : sent (ctxRequestId c) s0 = []) by (apply Hpend; reflexivity).
    assert (Hlen1 : (List.length (sent (ctxRequestId c) (snd (respond c err data s0))) <= 1)%nat).
    { destruct Hsent as [(_ & resp & ->)|(_ & ->)]; rewrite Hs0; cbn; lia. }
    split.
    + eapply (good_intro _ _ (completedState r)).
      * rewrite Hrq. cbn. apply lookup_insert_eq.
      * cbn. rewrite timerLive_clearedSlot. discriminate.
      * cbn. discriminate.
      * exact Hlen1.
      * destruct Heff as (_ & -> & _). exact Hctx.
    + intros _ Hne. destruct Hsent as [(Hret & _)|(_ & ->)]; [contradiction|exact Hs0].
Qed.

End Invariant.

Lemma _reply500_good rid message err s :
  good rid s -> sent rid s = [] -> good rid (snd (_reply500 rid message err s)).
Proof.
  intros Hg Hnone.
  destruct (requests s !! rid) as [r|] eqn:Hr.
  2:{ rewrite (_reply500_unknown _ _ _ _ Hr). exact Hg. }
  destruct (good_known _ _ _ Hg Hr) as (Hlive & Hpend & Hlen & Hctx).
  destruct (timerCalled (timeout r)) eqn:Hc.
  { rewrite (_reply500_fired _ _ _ _ _ Hr Hc). exact Hg. }
  assert (Hgood : forall s', requests s' !! rid = Some (completedState r) ->
                             contexts s' = contexts s ->
                             (List.length (sent rid s') <= 1)%nat -> good rid s').
  { intros s' Hr' Hc' Hl'. apply (good_intro _ _ _ Hr').
    - cbn. rewrite timerLive_clearedSlot. discriminate.
    - cbn. discriminate.
    - exact Hl'.
    - rewrite Hc'. exact Hctx. }
  destruct (error_fields err) as [->|(ty & stack & Hty & Hstack)].
  - rewrite (_reply500_nullish _ _ _ _ Hr Hc). cbn [snd].
    apply Hgood; [cbn; apply lookup_insert_eq|reflexivity|].
    unfold sent in *. cbn [output withRequests]. rewrite Hnone. cbn. lia.
  - rewrite (_reply500_run _ message err _ _ stack ty Hr Hc Hstack Hty). cbn [snd].
    apply Hgood; [cbn; apply lookup_insert_eq|reflexivity|].
    unfold sent in *. cbn [output withOutput withHeld withRequests].
    rewrite sentIn_app, Hnone. cbn.
    unfold traceEffect. destruct (_getArrayStackTrace stack); cbn;
      rewrite bool_decide_eq_true_2 by reflexivity; cbn; lia.
Qed.

(** ** The timer *)

Lemma putRequest_run rid r s :
  putRequest rid r s = (Ret tt, withRequests (<[rid := r]> (requests s)) s).
Proof. reflexivity. Qed.

Lemma fireTimer_stale rid r t c s :
  currentRequestId s <> Some rid ->
  fireTimer rid r t c s
  = (Ret tt, withRequests (<[rid := firedState (done r) t]> (requests s)) s).
Proof.
  intros Hne. unfold fireTimer.
  rewrite (bind_Ret _ _ _ _ _ (putRequest_run _ _ _)).
  apply _replyTimeout_stale. exact Hne.
Qed.

Lemma fireTimer_current rid r t c s :
  currentRequestId s = Some rid ->
  let resp := timeoutResponse c (heldResponse rid s) in
  fireTimer rid r t c s
  = (Ret tt,
     withOutput (output s ++ [Log ("Replying timeout after " +:+ pretty (ctxFunTimeout c) +:+ "ms");
                              Send rid resp])
       (withHeld (<[rid := resp]> (held s))
          (withRequests (<[rid := firedState true t]> (requests s)) s))).
Proof.
  intros Hcur resp. unfold fireTimer.
  rewrite (bind_Ret _ _ _ _ _ (putRequest_run _ _ _)).
  rewrite (_replyTimeout_run _ _ rid
             (withRequests (<[rid := firedState (done r) t]> (requests s)) s)
             (firedState (done r) t) Hcur (lookup_insert_eq _ _ _)).
  cbn. rewrite insert_insert_eq. reflexivity.
Qed.

Section TimerStep.
Context `{JsEnv}.

Lemma step_TimerFires rid s c r t :
  contexts s !! rid = Some c ->
  requests s !! rid = Some r ->
  timeout r = TimeoutTimer t -> _called t = false -> cleared t = false ->
  step (TimerFires rid) s = Some (snd (fireTimer rid r t c s)).
Proof.
  intros Hc Hr Ht Hcalled Hcleared. unfold step. rewrite Hc. cbn [mbind option_bind].
  rewrite Hr. cbn [mbind option_bind]. rewrite Ht, Hcalled, Hcleared. cbn [orb].
  f_equal. unfold topLevel.
  destruct (decide (currentRequestId s = Some rid)) as [Hcur|Hcur].
  - rewrite (fireTimer_current _ _ _ _ _ Hcur). reflexivity.
  - rewrite (fireTimer_stale _ _ _ _ _ Hcur). reflexivity.
Qed.

(** A completion that comes after the timer has fired is dropped. *)
Lemma step_Completion_fired rid err data s c r :
  contexts s !! rid = Some c ->
  ctxRequestId c = rid ->
  requests s !! rid = Some r ->
  timerCalled (timeout r) = true ->
  step (Completion rid err data) s = Some s.
Proof.
  intros Hc Hid Hr Hfired. unfold step. rewrite Hc. cbn [mbind option_bind].
  apply (f_equal Some). unfold topLevel. subst rid.
  rewrite (callback_fired _ _ _ _ _ Hr Hfired). reflexivity.
Qed.

Lemma step_TimerFires_none rid s :
  (forall r t, requests s !! rid = Some r -> timeout r <> TimeoutTimer t) ->
  step (TimerFires rid) s = None.
Proof.
  intros Hno. unfold step. destruct (contexts s !! rid) as [c|]; [|reflexivity].
  cbn [mbind option_bind].
  destruct (requests s !! rid) as [r|] eqn:Hr; [|reflexivity]. cbn [mbind option_bind].
  destruct (timeout r) as [| |t] eqn:Ht; try reflexivity.
  destruct (Hno r t eq_refl Ht).
Qed.

End TimerStep.

Lemma fireTimer_eff rid r t c s :
  requests s !! rid = Some r -> timeout r = TimeoutTimer t ->
  eff rid s (snd (fireTimer rid r t c s)).
Proof.
  intros Hr Ht.
  assert (Hput : forall d, eff rid s (withRequests (<[rid := firedState d t]> (requests s)) s)).
  { intros d. apply (eff_requests _ _ _ _ Hr). intros t' _. eauto. }
  destruct (decide (currentRequestId s = Some rid)) as [Hcur|Hcur].
  - rewrite (fireTimer_current _ _ _ _ _ Hcur). cbn [snd].
    eapply eff_trans; [apply (Hput true)|]. eapply eff_trans; [apply eff_held|].
    apply (eff_output _ (withHeld _ (withRequests _ s))). repeat constructor.
  - rewrite (fireTimer_stale _ _ _ _ _ Hcur). apply Hput.
Qed.

Lemma fireTimer_good rid r t c s :
  requests s !! rid = Some r -> timeout r = TimeoutTimer t ->
  _called t = false -> cleared t = false ->
  good rid s -> good rid (snd (fireTimer rid r t c s)).
Proof.
  intros Hr Ht Hcalled Hcleared Hg.
  destruct (good_known _ _ _ Hg Hr) as (Hlive & Hpend & Hlen & Hctx).
  assert (Hd : done r = false).
  { apply Hlive. rewrite Ht. cbn. rewrite Hcalled, Hcleared. reflexivity. }
  destruct (decide (currentRequestId s = Some rid)) as [Hcur|Hcur].
  - rewrite (fireTimer_current _ _ _ _ _ Hcur). cbn [snd].
    apply (good_intro _ _ (firedState true t)).
    + cbn. apply lookup_insert_eq.
    + cbn. discriminate.
    + cbn. discriminate.
    + unfold sent in *. cbn [output withOutput withHeld withRequests].
      rewrite sentIn_app, (Hpend Hd). cbn.
      rewrite bool_decide_eq_true_2 by reflexivity. cbn. lia.
    + exact Hctx.
  - rewrite (fireTimer_stale _ _ _ _ _ Hcur). cbn [snd].
    apply (good_intro _ _ (firedState (done r) t)).
    + cbn. apply lookup_insert_eq.
    + cbn. discriminate.
    + intros _. apply (Hpend Hd).
    + exact Hlen.
    + exact Hctx.
Qed.

(** ** The route handler, run *)

Lemma beginRequest_run i route inv s :
  exists s1,
    beginRequest i route inv s = (Ret tt, s1)
    /\ requests s1 = <[invRequestId inv := freshState]> (requests s)
    /\ contexts s1 = contexts s
    /\ currentRequestId s1 = Some (invRequestId inv)
    /\ options s1 = options s
    /\ service s1 = service s
    /\ forall rid, sent rid s1 = sent rid s.
Proof.
  unfold beginRequest, printBlankLine, serverlessLog, emit, putRequest, setRequests,
    setCurrentRequestId, setHeld, setRoutes, modify, bind, get, ret.
  destruct (firstCall route); eexists; (split; [reflexivity|]);
    (split; [reflexivity|]); (split; [reflexivity|]); (split; [reflexivity|]);
    (split; [reflexivity|]); (split; [reflexivity|]);
    intros rid; unfold sent;
    cbn [output withOutput withRequests withHeld withCurrentRequestId withRoutes];
    rewrite <- ?app_assoc, sentIn_app; cbn; apply app_nil_r.
Qed.

Lemma effArrival_refl id s : effArrival id s s.
Proof. split; [apply others_refl|]. repeat split; eauto. Qed.

Lemma eff_effArrival id s s' : eff id s s' -> effArrival id s s'.
Proof.
  intros (Ho & _ & Hi & Hk & Hn). split; [exact Ho|]. split; [exact Hi|]. split.
  - intros _ Hno r' t' Hr' Ht'. destruct (Hk _ _ Hr' Ht') as (r & t & Hr & Ht).
    apply (Hno _ _ Hr Ht).
  - intros [r Hr]. destruct (requests s' !! id) eqn:Hr'; [eauto|].
    destruct Hn as [_ Hn]. rewrite (Hn eq_refl) in Hr. discriminate.
Qed.

Lemma effArrival_trans id s1 s2 s3 :
  effArrival id s1 s2 -> effArrival id s2 s3 -> effArrival id s1 s3.
Proof.
  intros (Ho1 & Hi1 & Hk1 & He1) (Ho2 & Hi2 & Hk2 & He2).
  split; [eapply others_trans; eassumption|]. split; [congruence|]. split; [|auto].
  intros Hopt Hno. apply Hk2.
  - destruct Ho1 as (_ & -> & _). exact Hopt.
  - apply Hk1; assumption.
Qed.

Lemma effArrival_armed route inv r s :
  requests s !! invRequestId inv = Some r ->
  effArrival (invRequestId inv) s (armedState route inv r s).
Proof.
  intros Hr. unfold armedState. split; [|split; [reflexivity|split]].
  - split; [|split; reflexivity]. intros rid Hne. cbn.
    rewrite !lookup_insert_ne by congruence. repeat split.
  - intros Hopt _ r' t'. cbn. rewrite lookup_insert_eq. intros [= <-]. cbn.
    unfold armedSlot. rewrite Hopt. discriminate.
  - intros _. cbn. rewrite lookup_insert_eq. eauto.
Qed.

Section RouteHandler.
Context `{JsEnv}.

Lemma invokeHandler_run route inv s r event event' :
  invLoad inv = None ->
  renderRequest
    (requestTemplateFor (routeEndpoint route)
       (Js.orElse (default "" (mime (invRequest inv))) defaultContentType))
    (invRequest inv) = Ret event ->
  markOffline event = Ret event' ->
  requests s !! invRequestId inv = Some r ->
  invokeHandler route inv s
  = tryCatch (callHandler (ctxOf route inv) (invHandler inv event'))
      (uncaughtHandler route inv) (armedState route inv r s).
Proof.
  intros Hload Hrender Hmark Hr. unfold invokeHandler. rewrite Hload, Hrender, Hmark.
  unfold lift, setContexts, armTimeout, modify, bind at 1 2 3 4, get. cbn.
  unfold getRequest, bind at 1, get. cbn. rewrite Hr. reflexivity.
Qed.

Lemma forEach_callbacks c calls s :
  let id := ctxRequestId c in
  let m := forEach (fun call : ErrValue * JsValue => callback c (fst call) (snd call)) calls in
  good id s -> is_Some (requests s !! id) ->
  eff id s (snd (m s))
  /\ good id (snd (m s))
  /\ (fst (m s) <> Ret tt -> sent id (snd (m s)) = []).
Proof.
  intros id m. subst m. revert s. induction calls as [|[err data] calls IH]; intros s Hg Hknown.
  - cbn. split; [apply eff_refl|]. split; [exact Hg|]. intros []. reflexivity.
  - cbn [forEach fst snd]. unfold bind.
    pose proof (callback_eff c err data s) as Heff.
    destruct (callback_good c err data s Hg) as (Hg1 & Hthrow).
    destruct (callback c err data s) as [[[]| |] s1] eqn:Hrun; cbn [fst snd] in *.
    + assert (Hknown1 : is_Some (requests s1 !! id)).
      { destruct (eff_effArrival _ _ _ Heff) as (_ & _ & _ & Hk). apply Hk, Hknown. }
      destruct (IH s1 Hg1 Hknown1) as (Heff2 & Hg2 & Hthrow2).
      split; [eapply eff_trans; eassumption|]. split; assumption.
    + split; [exact Heff|]. split; [exact Hg1|]. intros _. apply Hthrow; [exact Hknown|discriminate].
    + split; [exact Heff|]. split; [exact Hg1|]. intros _. apply Hthrow; [exact Hknown|discriminate].
Qed.

Lemma callHandler_unfold c run s :
  callHandler c run s
  = match forEach (fun call : ErrValue * JsValue => callback c (fst call) (snd call))
            (completions run) s with
    | (Ret _, s1) =>
        match ending run with
        | Throws e => (Throw e, s1)
        | Returns x => promiseSupport c x s1
        end
    | (Throw e, s1) => (Throw e, s1)
    | (Exit, s1) => (Exit, s1)
    end.
Proof.
  unfold callHandler, bind.
  destruct (forEach _ (completions run) s) as [[[]| |] s1]; try reflexivity.
  destruct (ending run); reflexivity.
Qed.

Lemma promiseSupport_run c x s r :
  requests s !! ctxRequestId c = Some r ->
  promiseSupport c x s
  = if bool_decide (runtime (service s) = "babel") && negb (done r)
    then match x with
         | ReturnsError e => callback c e JUndefined s
         | ReturnsThenable | ReturnsOther => (Ret tt, s)
         end
    else (Ret tt, s).
Proof.
  intros Hr. unfold promiseSupport.
  rewrite (bind_Ret _ _ _ _ _ (eq_refl : get s = (Ret s, s))).
  rewrite (bind_Ret _ _ _ _ _ (getRequest_run _ _ _ Hr)).
  destruct (_ && _); [|reflexivity]. destruct x; reflexivity.
Qed.

Lemma promiseSupport_unknown c x s :
  requests s !! ctxRequestId c = None ->
  promiseSupport c x s = (Throw (TypeError "Cannot read property of undefined"), s).
Proof.
  intros Hr. unfold promiseSupport.
  rewrite (bind_Ret _ _ _ _ _ (eq_refl : get s = (Ret s, s))).
  rewrite (bind_Throw _ _ _ _ _ (getRequest_missing _ _ Hr)). reflexivity.
Qed.

Lemma callHandler_ok c run s :
  let id := ctxRequestId c in
  good id s -> is_Some (requests s !! id) -> sent id s = [] ->
  noThrowAfterCompletion run ->
  eff id s (snd (callHandler c run s))
  /\ good id (snd (callHandler c run s))
  /\ (fst (callHandler c run s) <> Ret tt -> sent id (snd (callHandler c run s)) = []).
Proof.
  intros id Hg Hknown Hnone Hslip. subst id. rewrite callHandler_unfold.
  destruct (forEach_callbacks c (completions run) s Hg Hknown) as (Heff & Hg1 & Hthrow).
  destruct (forEach _ (completions run) s) as [[[]| |] s1] eqn:Hrun; cbn [fst snd] in *.
  2,3: (split; [exact Heff|]; split; [exact Hg1|]; intros _; apply Hthrow; discriminate).
  unfold noThrowAfterCompletion in Hslip.
  destruct (ending run) as [x|e].
  - assert (Hknown1 : is_Some (requests s1 !! ctxRequestId c)).
    { destruct (eff_effArrival _ _ _ Heff) as (_ & _ & _ & Hk). apply Hk, Hknown. }
    destruct Hknown1 as [r1 Hr1]. rewrite (promiseSupport_run _ _ _ _ Hr1).
    destruct (bool_decide (runtime (service s1) = "babel") && negb (done r1));
      [|split; [exact Heff|]; split; [exact Hg1|]; intros []; reflexivity].
    destruct x as [|e|]; try (split; [exact Heff|]; split; [exact Hg1|]; intros []; reflexivity).
    pose proof (callback_eff c e JUndefined s1) as Heff2.
    destruct (callback_good c e JUndefined s1 Hg1) as (Hg2 & Hthrow2).
    split; [eapply eff_trans; eassumption|]. split; [exact Hg2|].
    apply Hthrow2. rewrite Hr1. eauto.
  - rewrite Hslip in Hrun. cbn in Hrun. injection Hrun as <-.
    cbn. split; [apply eff_refl|]. split; [exact Hg|]. intros _. exact Hnone.
Qed.

Lemma callHandler_eff c run s :
  eff (ctxRequestId c) s (snd (callHandler c run s)).
Proof.
  rewrite callHandler_unfold.
  assert (Hcalls : forall calls s0,
            eff (ctxRequestId c) s0
              (snd (forEach (fun call : ErrValue * JsValue => callback c (fst call) (snd call))
                      calls s0))).
  { induction calls as [|[err data] calls IH]; intros s0; cbn [forEach fst snd].
    - apply eff_refl.
    - unfold bind. pose proof (callback_eff c err data s0) as Heff.
      destruct (callback c err data s0) as [[[]| |] s1]; cbn [snd] in *; try exact Heff.
      eapply eff_trans; [exact Heff|apply IH]. }
  specialize (Hcalls (completions run) s).
  destruct (forEach _ (completions run) s) as [[[]| |] s1]; cbn [snd] in *; try exact Hcalls.
  destruct (ending run) as [x|e]; [|exact Hcalls].
  destruct (requests s1 !! ctxRequestId c) as [r1|] eqn:Hr1.
  - rewrite (promiseSupport_run _ _ _ _ Hr1).
    destruct (_ && _); [|exact Hcalls].
    destruct x as [|e|]; try exact Hcalls.
    eapply eff_trans; [exact Hcalls|apply callback_eff].
  - rewrite (promiseSupport_unknown _ _ _ Hr1). exact Hcalls.
Qed.

End RouteHandler.

(** ** The event loop keeps the invariants *)

Lemma topLevel_cases (m : M unit) s :
  topLevel m s = snd (m s)
  \/ exists e, topLevel m s = withOutput (output (snd (m s)) ++ [Escaped e]) (snd (m s)).
Proof.
  unfold topLevel. destruct (m s) as [[[]|e|] s1]; cbn; eauto.
Qed.

Lemma good_output id s new :
  Forall notSend new -> good id s -> good id (withOutput (output s ++ new) s).
Proof.
  intros Hnew Hg. unfold good in *. cbn [requests contexts withOutput].
  rewrite sent_withOutput_app, (sentIn_quiet _ _ Hnew), app_nil_r. exact Hg.
Qed.

Lemma effArrival_output id s new :
  Forall notSend new -> effArrival id s (withOutput (output s ++ new) s).
Proof.
  intros Hnew. apply eff_effArrival, eff_output, notSend_sendsOnlyTo, Hnew.
Qed.

Lemma noTimers_effArrival id s s' :
  noTimeout (options s) = true -> effArrival id s s' -> noTimers s -> noTimers s'.
Proof.
  intros Hopt (Ho & _ & Hk & _) Hno rid r' t' Hr'.
  destruct (decide (rid = id)) as [->|Hne].
  - apply (Hk Hopt (fun r t => Hno id r t) r' t' Hr').
  - destruct Ho as (Ho & _). destruct (Ho rid Hne) as (Hreq & _).
    rewrite Hreq in Hr'. apply (Hno _ _ _ Hr').
Qed.

Section EventLoop.
Context `{JsEnv}.

Lemma invokeHandler_effArrival route inv s :
  effArrival (invRequestId inv) s (snd (invokeHandler route inv s)).
Proof.
  destruct (invLoad inv) as [err|] eqn:Hload.
  { unfold invokeHandler. rewrite Hload. apply eff_effArrival, _reply500_eff. }
  destruct (renderRequest
              (requestTemplateFor (routeEndpoint route)
                 (Js.orElse (default "" (mime (invRequest inv))) defaultContentType))
              (invRequest inv)) as [event|err|] eqn:Hrender.
  2:{ unfold invokeHandler. rewrite Hload, Hrender. apply eff_effArrival, _reply500_eff. }
  2:{ unfold invokeHandler. rewrite Hload, Hrender. apply effArrival_refl. }
  destruct (markOffline event) as [event'|err|] eqn:Hmark.
  2:{ unfold invokeHandler. rewrite Hload, Hrender, Hmark. apply effArrival_refl. }
  2:{ destruct event; discriminate. }
  destruct (requests s !! invRequestId inv) as [r|] eqn:Hr.
  - rewrite (invokeHandler_run _ _ _ _ _ _ Hload Hrender Hmark Hr).
    eapply effArrival_trans; [apply (effArrival_armed route inv r s Hr)|].
    unfold tryCatch.
    pose proof (callHandler_eff (ctxOf route inv) (invHandler inv event')
                  (armedState route inv r s)) as Heff.
    destruct (callHandler _ _ (armedState route inv r s)) as [[[]|e|] s1]; cbn [snd] in *.
    + apply eff_effArrival, Heff.
    + eapply effArrival_trans; [apply eff_effArrival, Heff|].
      apply eff_effArrival. apply (_reply500_eff (invRequestId inv)).
    + apply eff_effArrival, Heff.
  - unfold invokeHandler. rewrite Hload, Hrender, Hmark.
    unfold lift, setContexts, armTimeout, modify, bind at 1 2 3 4, get. cbn.
    unfold getRequest, bind at 1, get. cbn. rewrite Hr. cbn.
    split; [|split; [reflexivity|split]].
    + split; [|split; reflexivity]. intros rid Hne. cbn.
      rewrite lookup_insert_ne by congruence. repeat split.
    + intros _ _ r' t'. cbn. rewrite Hr. discriminate.
    + rewrite Hr. intros [? [=]].
Qed.

Lemma invokeHandler_good route inv s :
  requests s !! invRequestId inv = Some freshState ->
  sent (invRequestId inv) s = [] ->
  contexts s !! invRequestId inv = None ->
  (forall event, noThrowAfterCompletion (invHandler inv event)) ->
  good (invRequestId inv) (snd (invokeHandler route inv s)).
Proof.
  intros Hr Hnone Hctx Hslip.
  assert (Hg : good (invRequestId inv) s).
  { apply (good_intro _ _ _ Hr).
    - intros _. reflexivity.
    - intros _. exact Hnone.
    - rewrite Hnone. cbn. lia.
    - rewrite Hctx. discriminate. }
  destruct (invLoad inv) as [err|] eqn:Hload.
  { unfold invokeHandler. rewrite Hload. apply _reply500_good; assumption. }
  destruct (renderRequest
              (requestTemplateFor (routeEndpoint route)
                 (Js.orElse (default "" (mime (invRequest inv))) defaultContentType))
              (invRequest inv)) as [event|err|] eqn:Hrender.
  2:{ unfold invokeHandler. rewrite Hload, Hrender. apply _reply500_good; assumption. }
  2:{ unfold invokeHandler. rewrite Hload, Hrender. exact Hg. }
  destruct (markOffline event) as [event'|err|] eqn:Hmark.
  2:{ unfold invokeHandler. rewrite Hload, Hrender, Hmark. exact Hg. }
  2:{ destruct event; discriminate. }
  rewrite (invokeHandler_run _ _ _ _ _ _ Hload Hrender Hmark Hr).
  set (s0 := armedState route inv freshState s).
  assert (Hr0 : requests s0 !! invRequestId inv
                = Some {| done := false;
                          timeout := armedSlot (options s) (funTimeout (routeFun route)) |}).
  { subst s0. unfold armedState. cbn. apply lookup_insert_eq. }
  assert (Hnone0 : sent (invRequestId inv) s0 = []) by exact Hnone.
  assert (Hg0 : good (invRequestId inv) s0).
  { apply (good_intro _ _ _ Hr0).
    - intros _. reflexivity.
    - intros _. exact Hnone0.
    - rewrite Hnone0. cbn. lia.
    - subst s0. unfold armedState. cbn. rewrite lookup_insert_eq. intros c [= <-]. reflexivity. }
  destruct (callHandler_ok (ctxOf route inv) (invHandler inv event') s0 Hg0
              (ex_intro _ _ Hr0) Hnone0 (Hslip event')) as (Heff & Hg1 & Hthrow).
  unfold tryCatch.
  destruct (callHandler _ _ s0) as [[[]|e|] s1]; cbn [fst snd] in *.
  - exact Hg1.
  - apply (_reply500_good (invRequestId inv)); [exact Hg1|]. apply Hthrow. discriminate.
  - exact Hg1.
Qed.

Lemma routeHandler_effArrival i route inv s :
  let id := invRequestId inv in
  let s' := snd (routeHandler i route inv s) in
  others id s s'
  /\ currentRequestId s' = Some id
  /\ (noTimeout (options s) = true ->
      forall r' t', requests s' !! id = Some r' -> timeout r' <> TimeoutTimer t').
Proof.
  intros id s'. subst s' id. unfold routeHandler.
  destruct (beginRequest_run i route inv s)
    as (s1 & Hrun & Hreq & Hctx & Hcur & Hopt & Hsv & Hsent).
  rewrite (bind_Ret _ _ _ _ _ Hrun).
  destruct (invokeHandler_effArrival route inv s1) as (Ho & Hi & Hk & _).
  split; [|split].
  - eapply others_trans; [|exact Ho].
    split; [|split; assumption]. intros rid Hne.
    rewrite Hreq, Hctx, Hsent, lookup_insert_ne by congruence. repeat split.
  - rewrite Hi. exact Hcur.
  - intros Hno. apply Hk; [rewrite Hopt; exact Hno|].
    intros r t. rewrite Hreq, lookup_insert_eq. intros [= <-]. discriminate.
Qed.

Lemma routeHandler_good i route inv s :
  requests s !! invRequestId inv = None ->
  good (invRequestId inv) s ->
  (forall event, noThrowAfterCompletion (invHandler inv event)) ->
  good (invRequestId inv) (snd (routeHandler i route inv s)).
Proof.
  intros Hfresh Hg Hslip. unfold routeHandler.
  destruct (beginRequest_run i route inv s)
    as (s1 & Hrun & Hreq & Hctx & Hcur & Hopt & Hsv & Hsent).
  rewrite (bind_Ret _ _ _ _ _ Hrun).
  unfold good in Hg. rewrite Hfresh in Hg. destruct Hg as [Hnone Hnoctx].
  apply invokeHandler_good.
  - rewrite Hreq. apply lookup_insert_eq.
  - rewrite Hsent. exact Hnone.
  - rewrite Hctx. exact Hnoctx.
  - exact Hslip.
Qed.

End EventLoop.

Lemma Quiet_setRoutes rs : Quiet (setRoutes rs).
Proof. intros s. repeat split. Qed.

Lemma Quiet_authStrategyOf funName m epath endpoint :
  Quiet (authStrategyOf funName m epath endpoint).
Proof.
  unfold authStrategyOf, _logAndExit.
  destruct (authorizer endpoint) as [[[|ch name]|arn name]|]; quiet.
Qed.

Lemma Quiet_createRoute funName fn event : Quiet (createRoute funName fn event).
Proof.
  unfold createRoute. destruct event as [http|]; [|apply Quiet_ret].
  quiet; try apply Quiet_authStrategyOf; apply Quiet_setRoutes.
Qed.

Lemma Quiet__createRoutes : Quiet _createRoutes.
Proof.
  unfold _createRoutes. apply Quiet_bind; [apply Quiet_get|intros s].
  destruct (negb _); [quiet|].
  apply Quiet_forEach. intros [funName fn]. quiet.
  apply Quiet_forEach. intros event. apply Quiet_createRoute.
Qed.

(** The plugin as it starts serving: no request, no callback, nothing
    sent. *)
Lemma boot_state o sv :
  let s0 := snd (_createRoutes (emptyOffline o sv)) in
  requests s0 = ∅ /\ contexts s0 = ∅ /\ options s0 = o /\ forall rid, sent rid s0 = [].
Proof.
  intros s0. destruct (Quiet__createRoutes (emptyOffline o sv)) as (Hr & Hc & _ & Ho & _ & Hs).
  repeat split; assumption.
Qed.

Lemma boot_Inv o sv : Inv (snd (_createRoutes (emptyOffline o sv))).
Proof.
  destruct (boot_state o sv) as (Hr & Hc & _ & Hs). intros id. unfold good.
  rewrite Hr, Hc, !lookup_empty. split; [apply Hs|reflexivity].
Qed.

Section Runs.
Context `{JsEnv}.

(** One turn of the event loop keeps the invariant of every request, and
    makes no request known but the one that arrives. An arrival is taken
    to draw a new id and its handler not to throw after completing. *)
Lemma step_Inv e s s' :
  Inv s -> step e s = Some s' ->
  match e with
  | Arrival _ inv =>
      requests s !! invRequestId inv = None
      /\ forall event, noThrowAfterCompletion (invHandler inv event)
  | _ => True
  end ->
  Inv s'
  /\ forall rid, requests s !! rid = None ->
       match e with
       | Arrival _ inv => invRequestId inv <> rid
       | _ => True
       end ->
       requests s' !! rid = None.
Proof.
  intros Hinv Hstep Hok. destruct e as [i inv|rid err data|rid]; unfold step in Hstep.
  - destruct (routes s !! i) as [route|]; [|discriminate]. cbn in Hstep.
    injection Hstep as <-. destruct Hok as [Hfresh Hslip].
    destruct (routeHandler_effArrival i route inv s) as (Ho & _ & _).
    pose proof (routeHandler_good i route inv s Hfresh (Hinv _) Hslip) as Hg.
    assert (Htop : Inv (snd (routeHandler i route inv s))
                   /\ forall rid, requests s !! rid = None -> invRequestId inv <> rid ->
                        requests (snd (routeHandler i route inv s)) !! rid = None).
    { split.
      - intros id. destruct (decide (id = invRequestId inv)) as [->|Hne]; [exact Hg|].
        apply (good_others _ _ _ _ Hne Ho), Hinv.
      - intros rid Hnone Hne. destruct Ho as (Ho & _).
        destruct (Ho rid (not_eq_sym Hne)) as (-> & _). exact Hnone. }
    destruct (topLevel_cases (routeHandler i route inv) s) as [->|[e ->]]; [exact Htop|].
    destruct Htop as [Hinv' Hunk]. split.
    + intros id. apply good_output; [repeat constructor|apply Hinv'].
    + exact Hunk.
  - destruct (contexts s !! rid) as [c|] eqn:Hc; [|discriminate]. cbn in Hstep.
    injection Hstep as <-.
    assert (Hid : ctxRequestId c = rid).
    { specialize (Hinv rid). unfold good in Hinv.
      destruct (requests s !! rid); [apply Hinv, Hc|]. destruct Hinv as [_ Hno]. congruence. }
    pose proof (callback_eff c err data s) as Heff.
    destruct (callback_good c err data s (Hinv _)) as [Hg _].
    rewrite Hid in *.
    assert (Htop : Inv (snd (callback c err data s))
                   /\ forall id, requests s !! id = None ->
                        requests (snd (callback c err data s)) !! id = None).
    { split.
      - intros id. destruct (decide (id = rid)) as [->|Hne]; [exact Hg|].
        destruct Heff as (Ho & _). apply (good_others _ _ _ _ Hne Ho), Hinv.
      - intros id Hnone. destruct (decide (id = rid)) as [->|Hne].
        + destruct Heff as (_ & _ & _ & _ & Hiff). apply Hiff, Hnone.
        + destruct Heff as ((Ho & _) & _). destruct (Ho id Hne) as (-> & _). exact Hnone. }
    destruct (topLevel_cases (callback c err data) s) as [->|[e ->]].
    + split; [apply Htop|]. intros id Hnone _. apply Htop, Hnone.
    + destruct Htop as [Hinv' Hunk]. split.
      * intros id. apply good_output; [repeat constructor|apply Hinv'].
      * intros id Hnone _. apply Hunk, Hnone.
  - destruct (contexts s !! rid) as [c|] eqn:Hc; [|discriminate]. cbn in Hstep.
    destruct (requests s !! rid) as [r|] eqn:Hr; [|discriminate]. cbn in Hstep.
    destruct (timeout r) as [| |t] eqn:Ht; try discriminate.
    destruct (_called t) eqn:Hcalled; [discriminate|].
    destruct (cleared t) eqn:Hcleared; [discriminate|]. cbn in Hstep.
    injection Hstep as <-.
    pose proof (fireTimer_eff rid r t c s Hr Ht) as Heff.
    pose proof (fireTimer_good rid r t c s Hr Ht Hcalled Hcleared (Hinv _)) as Hg.
    assert (Htop : Inv (snd (fireTimer rid r t c s))
                   /\ forall id, requests s !! id = None ->
                        requests (snd (fireTimer rid r t c s)) !! id = None).
    { split.
      - intros id. destruct (decide (id = rid)) as [->|Hne]; [exact Hg|].
        destruct Heff as (Ho & _). apply (good_others _ _ _ _ Hne Ho), Hinv.
      - intros id Hnone. destruct (decide (id = rid)) as [->|Hne]; [congruence|].
        destruct Heff as ((Ho & _) & _). destruct (Ho id Hne) as (-> & _). exact Hnone. }
    destruct (topLevel_cases (fireTimer rid r t c) s) as [->|[e ->]].
    + split; [apply Htop|]. intros id Hnone _. apply Htop, Hnone.
    + destruct Htop as [Hinv' Hunk]. split.
      * intros id. apply good_output; [repeat constructor|apply Hinv'].
      * intros id Hnone _. apply Hunk, Hnone.
Qed.

Lemma run_Inv es : forall s s',
  Inv s ->
  NoDup (arrivalIds es) ->
  (forall id, In id (arrivalIds es) -> requests s !! id = None) ->
  handlersKeepTo noThrowAfterCompletion es ->
  run es s = Some s' ->
  Inv s'.
Proof.
  induction es as [|e es IH]; intros s s' Hinv Hnodup Hfresh Hslip Hrun.
  - cbn in Hrun. injection Hrun as <-. exact Hinv.
  - cbn [run] in Hrun. destruct (step e s) as [s1|] eqn:Hstep; [|discriminate].
    cbn in Hrun. apply Forall_cons in Hslip as [Hslip1 Hslip].
    assert (Hok : match e with
                  | Arrival _ inv =>
                      requests s !! invRequestId inv = None
                      /\ forall event, noThrowAfterCompletion (invHandler inv event)
                  | _ => True
                  end).
    { destruct e as [i inv| |]; try exact I. split; [|exact Hslip1].
      apply Hfresh. cbn. left. reflexivity. }
    destruct (step_Inv e s s1 Hinv Hstep Hok) as [Hinv1 Hunk].
    apply (IH s1 s' Hinv1); try assumption.
    + destruct e; cbn in Hnodup; try exact Hnodup. apply NoDup_cons in Hnodup. apply Hnodup.
    + intros id Hin. apply Hunk.
      * apply Hfresh. destruct e; cbn; try exact Hin. right. exact Hin.
      * destruct e as [i inv| |]; try exact I. cbn in Hnodup.
        apply NoDup_cons in Hnodup as [Hnotin _]. intros <-. apply Hnotin.
        apply list_elem_of_In. exact Hin.
Qed.

Lemma step_noTimers e s s' :
  noTimeout (options s) = true -> noTimers s -> step e s = Some s' ->
  noTimers s' /\ options s' = options s.
Proof.
  intros Hopt Hno Hstep.
  assert (Hout : forall s1 (m : M unit), s' = topLevel m s -> s1 = snd (m s) ->
                   effArrival "" s1 s').
  { intros s1 m -> ->. destruct (topLevel_cases m s) as [->|[e' ->]].
    - apply effArrival_refl.
    - apply effArrival_output. repeat constructor. }
  destruct e as [i inv|rid err data|rid]; unfold step in Hstep.
  - destruct (routes s !! i) as [route|]; [|discriminate]. cbn in Hstep.
    injection Hstep as Hs'. symmetry in Hs'.
    destruct (routeHandler_effArrival i route inv s) as (Ho & Hcur & Hk).
    pose proof (Hout _ _ Hs' eq_refl) as Htop.
    assert (Hno1 : noTimers (snd (routeHandler i route inv s))).
    { intros rid r' t' Hr'. destruct (decide (rid = invRequestId inv)) as [->|Hne].
      - apply (Hk Hopt r' t' Hr').
      - destruct Ho as (Ho & _). destruct (Ho rid Hne) as (Hreq & _).
        rewrite Hreq in Hr'. apply (Hno _ _ _ Hr'). }
    assert (Hopt1 : options (snd (routeHandler i route inv s)) = options s) by apply Ho.
    split.
    + apply (noTimers_effArrival "" _ _ (eq_trans (f_equal noTimeout Hopt1) Hopt) Htop Hno1).
    + destruct Htop as ((_ & -> & _) & _). exact Hopt1.
  - destruct (contexts s !! rid) as [c|]; [|discriminate]. cbn in Hstep.
    injection Hstep as Hs'. symmetry in Hs'.
    pose proof (eff_effArrival _ _ _ (callback_eff c err data s)) as Heff.
    pose proof (Hout _ _ Hs' eq_refl) as Htop.
    assert (Hopt1 : options (snd (callback c err data s)) = options s) by apply Heff.
    split.
    + eapply (noTimers_effArrival "" _ _ (eq_trans (f_equal noTimeout Hopt1) Hopt) Htop).
      apply (noTimers_effArrival _ _ _ Hopt Heff Hno).
    + destruct Htop as ((_ & -> & _) & _). exact Hopt1.
  - rewrite (step_TimerFires_none rid s) in Hstep; [discriminate|].
    intros r t Hr. apply (Hno _ _ _ Hr).
Qed.

Lemma run_noTimers es : forall s s',
  noTimeout (options s) = true -> noTimers s -> run es s = Some s' ->
  noTimers s' /\ options s' = options s.
Proof.
  induction es as [|e es IH]; intros s s' Hopt Hno Hrun.
  - cbn in Hrun. injection Hrun as <-. split; [exact Hno|reflexivity].
  - cbn [run] in Hrun. destruct (step e s) as [s1|] eqn:Hstep; [|discriminate].
    cbn in Hrun. destruct (step_noTimers _ _ _ Hopt Hno Hstep) as [Hno1 Hopt1].
    destruct (IH s1 s' (eq_trans (f_equal noTimeout Hopt1) Hopt) Hno1 Hrun) as [Hno' Hopt'].
    split; [exact Hno'|congruence].
Qed.

End Runs.

(** ** C9: the synthetic error reply *)

Section SyntheticError.
Context `{JsEnv}.

(** C9. [_reply500] is what answers a handler that fails to load, a request
    template that fails to render, and a handler that throws
    synchronously, each with a message of its own. For a request whose
    timer has not fired and an error other than [null] and [undefined] it
    sends exactly one response, on the held response: the status code is
    200, the body is [{errorMessage, errorType, stackTrace, offlineInfo}]
    with the message it was given, the name of the constructor of the
    error and its trimmed stack, and the headers are left alone. Whatever
    it sends, in any state, is such a response for that request. *)
Theorem C9_reply500_sends_status_200 (rid message : string) (err : ErrValue) (s : Offline) :
  let body ty stack :=
    JObj [("errorMessage", JStr message); ("errorType", JStr ty);
          ("stackTrace", match _getArrayStackTrace stack with
                         | Some lines => JArr (map JStr lines)
                         | None => JNull
                         end);
          ("offlineInfo",
           JStr "If you believe this is an issue with the plugin please submit it, thanks. https://github.com/dherault/serverless-offline/issues")] in
  (forall r ty stack,
     requests s !! rid = Some r -> timerCalled (timeout r) = false ->
     errorTypeOf err = Ret ty -> errStack err = Ret stack ->
     exists resp s',
       _reply500 rid message err s = (Ret tt, s')
       /\ sent rid s' = sent rid s ++ [resp]
       /\ respStatusCode resp = 200%N
       /\ respSource resp = body ty stack
       /\ respHeaders resp = respHeaders (heldResponse rid s))
  /\ (exists new,
       output (snd (_reply500 rid message err s)) = output s ++ new
       /\ forall id resp, In (Send id resp) new ->
            id = rid
            /\ respStatusCode resp = 200%N
            /\ exists ty stack,
                 errorTypeOf err = Ret ty /\ errStack err = Ret stack
                 /\ respSource resp = body ty stack)
  /\ match err with
     | ErrObject ctor _ _ stack | ErrPlain ctor _ _ stack =>
         errorTypeOf err = Ret ctor /\ errStack err = Ret stack
     | ErrString _ => errorTypeOf err = Ret "String" /\ errStack err = Ret None
     | ErrNumber _ => errorTypeOf err = Ret "Number" /\ errStack err = Ret None
     | ErrBool _ => errorTypeOf err = Ret "Boolean" /\ errStack err = Ret None
     | ErrNullish => forall rid', sent rid' (snd (_reply500 rid message err s)) = sent rid' s
     end
  /\ (forall route inv e s0,
       invLoad inv = Some e ->
       invokeHandler route inv s0
       = _reply500 (invRequestId inv) ("Error while loading " +:+ routeFunName route)
           (thrownValue e) s0)
  /\ (forall route inv e s0,
       invLoad inv = None ->
       let contentType := Js.orElse (default "" (mime (invRequest inv))) "application/json" in
       renderRequest (requestTemplateFor (routeEndpoint route) contentType) (invRequest inv)
       = Throw e ->
       invokeHandler route inv s0
       = _reply500 (invRequestId inv)
           ("Error while parsing template " +:+ dq +:+ contentType +:+ dq +:+ " for "
            +:+ routeFunName route)
           (thrownValue e) s0)
  /\ (forall route inv e s0 r event event',
       invLoad inv = None ->
       renderRequest
         (requestTemplateFor (routeEndpoint route)
            (Js.orElse (default "" (mime (invRequest inv))) "application/json"))
         (invRequest inv) = Ret event ->
       markOffline event = Ret event' ->
       requests s0 !! invRequestId inv = Some r ->
       invHandler inv event' = {| completions := []; ending := Throws e |} ->
       invokeHandler route inv s0
       = _reply500 (invRequestId inv)
           ("Uncaught error in your '" +:+ routeFunName route +:+ "' handler")
           (thrownValue e) (armedState route inv r s0)).
Proof.
  intros body.
  assert (Hrun : forall r ty stack,
             requests s !! rid = Some r -> timerCalled (timeout r) = false ->
             errorTypeOf err = Ret ty -> errStack err = Ret stack ->
             _reply500 rid message err s
             = (Ret tt,
                withOutput (output s ++ [Log message;
                                         traceEffect err (_getArrayStackTrace stack);
                                         Log "Replying error in handler";
                                         Send rid (setSource (body ty stack)
                                                     (setStatusCode 200 (heldResponse rid s)))])
                  (withHeld (<[rid := setSource (body ty stack)
                                        (setStatusCode 200 (heldResponse rid s))]> (held s))
                     (withRequests (<[rid := completedState r]> (requests s)) s)))).
  { intros r ty stack Hr Hc Hty Hstack.
    rewrite (_reply500_run _ message _ _ _ _ _ Hr Hc Hstack Hty).
    subst body. unfold errorBody, offlineInfo, stackTraceValue. reflexivity. }
  assert (Htrace : forall stack rid', sentIn rid' [traceEffect err (_getArrayStackTrace stack)] = [])
    by (intros stack rid'; unfold traceEffect; destruct (_getArrayStackTrace stack); reflexivity).
  split; [|split; [|split; [|split; [|split]]]].
  - intros r ty stack Hr Hc Hty Hstack.
    exists (setSource (body ty stack) (setStatusCode 200 (heldResponse rid s))).
    eexists. split; [apply (Hrun r ty stack Hr Hc Hty Hstack)|].
    split; [|repeat split].
    unfold sent. cbn [output withOutput withHeld withRequests].
    rewrite sentIn_app. f_equal.
    change [Log message; traceEffect err (_getArrayStackTrace stack);
            Log "Replying error in handler";
            Send rid (setSource (body ty stack) (setStatusCode 200 (heldResponse rid s)))]
      with ([Log message] ++ [traceEffect err (_getArrayStackTrace stack)]
            ++ [Log "Replying error in handler"]
            ++ [Send rid (setSource (body ty stack)
                            (setStatusCode 200 (heldResponse rid s)))]).
    rewrite !sentIn_app, Htrace, sentIn_send. reflexivity.
  - destruct (requests s !! rid) as [r|] eqn:Hr.
    2:{ rewrite (_reply500_unknown _ _ _ _ Hr). exists []. cbn. rewrite app_nil_r.
        split; [reflexivity|]. intros ? ? []. }
    destruct (timerCalled (timeout r)) eqn:Hc.
    { rewrite (_reply500_fired _ _ _ _ _ Hr Hc). exists []. cbn. rewrite app_nil_r.
      split; [reflexivity|]. intros ? ? []. }
    destruct (error_fields err) as [->|(ty & stack & Hty & Hstack)].
    + rewrite (_reply500_nullish _ _ _ _ Hr Hc). exists []. cbn. rewrite app_nil_r.
      split; [reflexivity|]. intros ? ? [].
    + rewrite (Hrun r ty stack eq_refl Hc Hty Hstack). cbn [snd output withOutput].
      eexists. split; [reflexivity|].
      intros id resp [Hin|[Hin|[Hin|[Hin|[]]]]]; try discriminate.
      * unfold traceEffect in Hin. destruct (_getArrayStackTrace stack); discriminate.
      * injection Hin as <- <-. split; [reflexivity|]. split; [reflexivity|].
        exists ty, stack. repeat split; assumption.
  - destruct err; try (split; reflexivity).
    intros rid'. destruct (requests s !! rid) as [r|] eqn:Hr.
    2:{ rewrite (_reply500_unknown _ _ _ _ Hr). reflexivity. }
    destruct (timerCalled (timeout r)) eqn:Hc.
    { rewrite (_reply500_fired _ _ _ _ _ Hr Hc). reflexivity. }
    rewrite (_reply500_nullish _ _ _ _ Hr Hc). reflexivity.
  - intros route inv e s0 Hload. unfold invokeHandler. rewrite Hload. reflexivity.
  - intros route inv e s0 Hload contentType Hrender. unfold invokeHandler.
    rewrite Hload. subst contentType. unfold defaultContentType. rewrite Hrender.
    reflexivity.
  - intros route inv e s0 r event event' Hload Hrender Hmark Hr Hhandler.
    rewrite (invokeHandler_run route inv s0 r event event' Hload Hrender Hmark Hr).
    unfold tryCatch. rewrite callHandler_unfold, Hhandler. reflexivity.
Qed.

End SyntheticError.

Lemma C9_reply500_sends_status_200_witness :
  let s := pendingState false [] in
  exists resp s',
    _reply500 "42" "Error while loading hello"
      (ErrObject "Error" "Error" "Cannot find module './handler'"
         (Some ("Error: Cannot find module './handler'" +:+ nl
                +:+ "    at Function.Module._resolveFilename (module.js:325:15)  " +:+ nl
                +:+ "    at Function.Module._load (module.js:276:25)"))) s
    = (Ret tt, s')
    /\ sent "42" s' = sent "42" s ++ [resp]
    /\ respStatusCode resp = 200%N
    /\ respSource resp
       = JObj [("errorMessage", JStr "Error while loading hello");
               ("errorType", JStr "Error");
               ("stackTrace",
                JArr [JStr "Error: Cannot find module './handler'";
                      JStr "at Function.Module._resolveFilename (module.js:325:15)"]);
               ("offlineInfo",
                JStr "If you believe this is an issue with the plugin please submit it, thanks. https://github.com/dherault/serverless-offline/issues")]
    /\ respHeaders resp = respHeaders (heldResponse "42" s).
Proof.
  intros s.
  pose proof (C9_reply500_sends_status_200 (H := sampleEnv) "42" "Error while loading hello"
                (ErrObject "Error" "Error" "Cannot find module './handler'"
                   (Some ("Error: Cannot find module './handler'" +:+ nl
                          +:+ "    at Function.Module._resolveFilename (module.js:325:15)  "
                          +:+ nl +:+ "    at Function.Module._load (module.js:276:25)"))) s)
    as (Hsends & _).
  assert (Hr : requests s !! "42"
               = Some {| done := false; timeout := TimeoutTimer (newTimer 1000) |})
    by (vm_compute; reflexivity).
  destruct (Hsends _ _ _ Hr eq_refl eq_refl eq_refl)
    as (resp & s' & Hrun & Hsent & Hcode & Hsrc & Hhdr).
  exists resp, s'. split; [exact Hrun|]. split; [exact Hsent|]. split; [exact Hcode|].
  split; [|exact Hhdr]. rewrite Hsrc. vm_compute. reflexivity.
Defined.

(** The three call sites, run. *)
Example load_error_replies_200 :
  (sent "42" <$> run (H := sampleEnv)
     [Arrival 0 {| invRequestId := "42"; invRequest := sampleRequest;
                   invLoad := Some (Uncaught (ErrObject "Error" "Error" "Cannot find module" None));
                   invHandler := pendingHandler |}]
     (booted false (sampleEndpoint "/hello" [])))
  = Some [{| respStatusCode := 200;
             respSource := errorBody "Error while loading hello" "Error" None;
             respHeaders := [] |}].
Proof. vm_compute. reflexivity. Qed.

Example template_error_replies_200 :
  let e := {| path := Some "/hello"; method := Some "get";
              requestTemplates := Some [("application/json", "#broken")];
              responses := None; authorizer := None |} in
  (map (fun r => (respStatusCode r, respSource r)) <$>
   (sent "42" <$> run (H := sampleEnv)
      [Arrival 0 (sampleInvocation "42" pendingHandler)] (booted false e)))
  = Some [(200%N,
           errorBody ("Error while parsing template " +:+ dq +:+ "application/json" +:+ dq
                      +:+ " for hello")
             "SyntaxError" (Some ["SyntaxError: Parse error"]))].
Proof. vm_compute. reflexivity. Qed.

Example uncaught_throw_replies_200 :
  (sent "42" <$> run (H := sampleEnv)
     [Arrival 0 (sampleInvocation "42"
                   (fun _ => {| completions := [];
                                ending := Throws (Uncaught (ErrString "boom")) |}))]
     (booted false (sampleEndpoint "/hello" [])))
  = Some [{| respStatusCode := 200;
             respSource := errorBody "Uncaught error in your 'hello' handler" "String" None;
             respHeaders := [] |}].
Proof. vm_compute. reflexivity. Qed.

(** ** C2: how many responses a request gets *)

Section AtMostOne.
Context `{JsEnv}.

(** C2, as the code has it. From the start of the plugin, over any events
    in which every arrival draws a new request id and no handler throws
    after having called the callback: for every request at most one
    response is sent, and none as long as the request is not marked done.
    (That a response is sent at all is not part of it: see the
    counterexample.) *)
Theorem C2_at_most_one_response (o : Options) (sv : Service) (es : list Event) (s : Offline) :
  NoDup (arrivalIds es) ->
  handlersKeepTo noThrowAfterCompletion es ->
  run es (snd (_createRoutes (emptyOffline o sv))) = Some s ->
  forall rid,
    (List.length (sent rid s) <= 1)%nat
    /\ (forall r, requests s !! rid = Some r -> done r = false -> sent rid s = [])
    /\ (requests s !! rid = None -> sent rid s = []).
Proof.
  intros Hnodup Hslip Hrun rid.
  assert (Hinv : Inv s).
  { apply (run_Inv es _ s (boot_Inv o sv) Hnodup); [|exact Hslip|exact Hrun].
    intros id _. destruct (boot_state o sv) as (-> & _). apply lookup_empty. }
  specialize (Hinv rid). unfold good in Hinv.
  destruct (requests s !! rid) as [r|].
  - destruct Hinv as (_ & Hpend & Hlen & _). split; [exact Hlen|]. split; [|discriminate].
    intros r' [= <-]. exact Hpend.
  - destruct Hinv as [Hnone _]. rewrite Hnone. split; [cbn; lia|]. split; [discriminate|].
    reflexivity.
Qed.

End AtMostOne.

Lemma C2_at_most_one_response_witness :
  let es := [pendingArrival "42"; Completion "42" ErrNullish (JStr "ok");
             Completion "42" ErrNullish (JStr "again")] in
  let s := default (booted false (sampleEndpoint "/hello" []))
             (run (H := sampleEnv) es (booted false (sampleEndpoint "/hello" []))) in
  (List.length (sent "42" s) <= 1)%nat.
Proof.
  intros es s.
  apply (C2_at_most_one_response (H := sampleEnv) (_setOptions None false)
           (sampleService (sampleEndpoint "/hello" [])) es s).
  - vm_compute. apply NoDup_cons. split; [inversion 1|apply NoDup_nil; exact I].
  - constructor; [intros event; exact I|]. repeat (constructor; [exact I|]). constructor.
  - vm_compute. reflexivity.
Defined.

(** C2, as the claim has it, fails. Request ["1"] arrives and stays
    pending, request ["2"] arrives, the timer of ["1"] fires, and the
    handler of ["1"] completes: no response is sent for ["1"]. Nor can one
    follow: its timer cannot fire again, and whatever its handler completes
    with is dropped. *)
Lemma C2_counterexample_no_response :
  run (H := sampleEnv) [pendingArrival "1"; pendingArrival "2"; TimerFires "1"]
      (booted false (sampleEndpoint "/hello" [])) = Some overtaken
  /\ (sent "1" <$> step (H := sampleEnv) (Completion "1" ErrNullish (JStr "done")) overtaken)
     = Some []
  /\ step (H := sampleEnv) (TimerFires "1") overtaken = None
  /\ forall err data,
       step (H := sampleEnv) (Completion "1" err data) overtaken = Some overtaken.
Proof.
  split; [vm_compute; reflexivity|]. split; [vm_compute; reflexivity|].
  split; [vm_compute; reflexivity|].
  intros err data.
  apply (step_Completion_fired (H := sampleEnv) "1" err data overtaken (sampleCtxOf "1")
           (firedState false (newTimer 1000))).
  - vm_compute. reflexivity.
  - reflexivity.
  - vm_compute. reflexivity.
  - reflexivity.
Qed.

(** The slip next to it: a handler that completes and then throws is
    answered twice, by the callback and by [_reply500]. *)
Example complete_then_throw_sends_twice :
  (List.length <$>
   (sent "42" <$> run (H := sampleEnv)
      [Arrival 0 (sampleInvocation "42"
                    (fun _ => {| completions := [(ErrNullish, JStr "ok")];
                                 ending := Throws (Uncaught (ErrString "boom")) |}))]
      (booted false (sampleEndpoint "/hello" []))))
  = Some 2%nat.
Proof. vm_compute. reflexivity. Qed.

(** ** C4, C5: the timeout and the most recent request id *)

Section Timeouts.
Context `{JsEnv}.

(** A request that arrives leaves every other request as it was, and
    becomes the most recent one. *)
Lemma arrival_leaves_others i route inv s rid :
  invRequestId inv <> rid ->
  let s1 := topLevel (routeHandler i route inv) s in
  currentRequestId s1 = Some (invRequestId inv)
  /\ requests s1 !! rid = requests s !! rid
  /\ contexts s1 !! rid = contexts s !! rid
  /\ sent rid s1 = sent rid s.
Proof.
  intros Hne s1. subst s1.
  destruct (routeHandler_effArrival i route inv s) as ((Ho & _) & Hcur & _).
  destruct (Ho rid (not_eq_sym Hne)) as (Hreq & Hsent & Hctx).
  destruct (topLevel_cases (routeHandler i route inv) s) as [->|[e ->]].
  - repeat split; assumption.
  - cbn [currentRequestId requests contexts withOutput]. repeat split; try assumption.
    unfold sent in *. cbn [output withOutput]. rewrite sentIn_app. cbn.
    rewrite app_nil_r. exact Hsent.
Qed.

Lemma step_TimerFires_stale rid s c r t :
  contexts s !! rid = Some c ->
  requests s !! rid = Some r ->
  timeout r = TimeoutTimer t -> _called t = false -> cleared t = false ->
  currentRequestId s <> Some rid ->
  step (TimerFires rid) s
  = Some (withRequests (<[rid := firedState (done r) t]> (requests s)) s).
Proof.
  intros Hc Hr Ht Hcalled Hcleared Hcur.
  rewrite (step_TimerFires _ _ _ _ _ Hc Hr Ht Hcalled Hcleared).
  rewrite (fireTimer_stale _ _ _ _ _ Hcur). reflexivity.
Qed.

Lemma step_TimerFires_current rid s c r t :
  contexts s !! rid = Some c ->
  requests s !! rid = Some r ->
  timeout r = TimeoutTimer t -> _called t = false -> cleared t = false ->
  currentRequestId s = Some rid ->
  exists s',
    step (TimerFires rid) s = Some s'
    /\ requests s' !! rid = Some (firedState true t)
    /\ sent rid s' = sent rid s ++ [timeoutResponse c (heldResponse rid s)].
Proof.
  intros Hc Hr Ht Hcalled Hcleared Hcur.
  rewrite (step_TimerFires _ _ _ _ _ Hc Hr Ht Hcalled Hcleared).
  rewrite (fireTimer_current _ _ _ _ _ Hcur). cbn [snd].
  eexists. split; [reflexivity|]. split.
  - cbn. apply lookup_insert_eq.
  - unfold sent. cbn [output withOutput withHeld withRequests].
    rewrite sentIn_app. cbn. rewrite bool_decide_eq_true_2 by reflexivity. reflexivity.
Qed.

(** C5, as the code has it. For a request whose timer may still fire:
    - when its id is not the most recent request id, the firing changes
      nothing but the timer itself (nothing is logged, nothing is sent, the
      request is neither more nor less done than before), whether or not
      the request had finished;
    - when its id is the most recent one, the firing sends the timeout
      response;
    - any other request that arrives makes its own id the most recent one
      and leaves this request as it was, so that from then on the timer of
      this request, still pending or not, fires without effect. *)
Theorem C5_timer_replies_only_for_most_recent_request (rid : string) (s : Offline)
    (c : Ctx) (r : RequestState) (t : Timer) :
  contexts s !! rid = Some c ->
  requests s !! rid = Some r ->
  timeout r = TimeoutTimer t -> _called t = false -> cleared t = false ->
  (currentRequestId s <> Some rid ->
   step (TimerFires rid) s
   = Some (withRequests (<[rid := firedState (done r) t]> (requests s)) s))
  /\ (currentRequestId s = Some rid ->
      exists s',
        step (TimerFires rid) s = Some s'
        /\ sent rid s' = sent rid s ++ [timeoutResponse c (heldResponse rid s)])
  /\ (forall i route inv,
        routes s !! i = Some route -> invRequestId inv <> rid ->
        exists s1,
          step (Arrival i inv) s = Some s1
          /\ currentRequestId s1 = Some (invRequestId inv)
          /\ requests s1 !! rid = Some r
          /\ step (TimerFires rid) s1
             = Some (withRequests (<[rid := firedState (done r) t]> (requests s1)) s1)).
Proof.
  intros Hc Hr Ht Hcalled Hcleared. split; [|split].
  - apply (step_TimerFires_stale _ _ _ _ _ Hc Hr Ht Hcalled Hcleared).
  - intros Hcur.
    destruct (step_TimerFires_current _ _ _ _ _ Hc Hr Ht Hcalled Hcleared Hcur)
      as (s' & Hstep & _ & Hsent).
    eauto.
  - intros i route inv Hroute Hne.
    destruct (arrival_leaves_others i route inv s rid Hne) as (Hcur & Hreq & Hctx & _).
    exists (topLevel (routeHandler i route inv) s). split; [|split; [|split]].
    + unfold step. rewrite Hroute. reflexivity.
    + exact Hcur.
    + rewrite Hreq. exact Hr.
    + apply (step_TimerFires_stale rid _ c r t); try assumption.
      * rewrite Hctx. exact Hc.
      * rewrite Hreq. exact Hr.
      * rewrite Hcur. intros [= Heq]. contradiction.
Qed.

(** C4, as the code has it.
    - Once the handler is loaded and the event is built, the handler is
      called in a state in which the entry of the request holds a timer for
      the function's timeout, or [null] when timeouts are disabled.
    - When the timer of a pending request fires while that request is the
      most recent one, the request becomes [TimedOut] and one response is
      sent, with status 503 and the string naming the function and the
      timeout in milliseconds as body.
    - With timeouts disabled no request ever holds a timer, and no timer
      can fire, over any events from the start of the plugin. *)
Theorem C4_timeout_of_most_recent_request (rid : string) (s : Offline)
    (c : Ctx) (r : RequestState) (t : Timer) :
  contexts s !! rid = Some c ->
  requests s !! rid = Some r ->
  Pending r ->
  timeout r = TimeoutTimer t -> cleared t = false ->
  currentRequestId s = Some rid ->
  (exists s' resp,
      step (TimerFires rid) s = Some s'
      /\ (exists r', requests s' !! rid = Some r' /\ TimedOut r')
      /\ sent rid s' = sent rid s ++ [resp]
      /\ respStatusCode resp = 503%N
      /\ respSource resp
         = JStr ("[Serverless-Offline] Your λ handler '" +:+ ctxFunName c
                 +:+ "' timed out after " +:+ pretty (ctxFunTimeout c) +:+ "ms."))
  /\ (forall route inv s0 r0 event event',
        invLoad inv = None ->
        renderRequest
          (requestTemplateFor (routeEndpoint route)
             (Js.orElse (default "" (mime (invRequest inv))) defaultContentType))
          (invRequest inv) = Ret event ->
        markOffline event = Ret event' ->
        requests s0 !! invRequestId inv = Some r0 ->
        invokeHandler route inv s0
        = tryCatch (callHandler (ctxOf route inv) (invHandler inv event'))
            (uncaughtHandler route inv) (armedState route inv r0 s0)
        /\ (timeout <$> requests (armedState route inv r0 s0) !! invRequestId inv)
           = Some (if noTimeout (options s0) then TimeoutNull
                   else TimeoutTimer (newTimer (funTimeout (routeFun route)))))
  /\ (forall o sv es s1,
        noTimeout o = true ->
        run es (snd (_createRoutes (emptyOffline o sv))) = Some s1 ->
        noTimers s1 /\ forall id, step (TimerFires id) s1 = None).
Proof.
  intros Hc Hr [Hd Hcalled] Ht Hcleared Hcur. split; [|split].
  - rewrite Ht in Hcalled. cbn in Hcalled.
    destruct (step_TimerFires_current _ _ _ _ _ Hc Hr Ht Hcalled Hcleared Hcur)
      as (s' & Hstep & Hreq & Hsent).
    exists s', (timeoutResponse c (heldResponse rid s)).
    split; [exact Hstep|]. split; [|split; [exact Hsent|split; reflexivity]].
    exists (firedState true t). split; [exact Hreq|]. split; reflexivity.
  - intros route inv s0 r0 event event' Hload Hrender Hmark Hr0. split.
    + apply (invokeHandler_run _ _ _ _ _ _ Hload Hrender Hmark Hr0).
    + unfold armedState. cbn. rewrite lookup_insert_eq. reflexivity.
  - intros o sv es s1 Hopt Hrun.
    destruct (boot_state o sv) as (Hreq0 & _ & Hopt0 & _).
    assert (Hno0 : noTimers (snd (_createRoutes (emptyOffline o sv)))).
    { intros id r' t'. rewrite Hreq0, lookup_empty. discriminate. }
    destruct (run_noTimers es _ s1 (eq_trans (f_equal noTimeout Hopt0) Hopt) Hno0 Hrun)
      as [Hno _].
    split; [exact Hno|]. intros id. apply step_TimerFires_none.
    intros r' t' Hr'. apply (Hno _ _ _ Hr').
Qed.

End Timeouts.

Lemma C5_timer_replies_only_for_most_recent_request_witness :
  step (H := sampleEnv) (TimerFires "1")
    (default (booted false (sampleEndpoint "/hello" []))
       (run (H := sampleEnv) [pendingArrival "1"; pendingArrival "2"]
          (booted false (sampleEndpoint "/hello" []))))
  = Some overtaken.
Proof.
  set (s := default _ _).
  assert (Hc : contexts s !! "1" = Some (sampleCtxOf "1")) by (vm_compute; reflexivity).
  assert (Hr : requests s !! "1"
               = Some {| done := false; timeout := TimeoutTimer (newTimer 1000) |})
    by (vm_compute; reflexivity).
  assert (Hcur : currentRequestId s <> Some "1") by (vm_compute; discriminate).
  destruct (C5_timer_replies_only_for_most_recent_request (H := sampleEnv) "1" s
              (sampleCtxOf "1") _ (newTimer 1000) Hc Hr eq_refl eq_refl eq_refl)
    as (Hstale & _).
  rewrite (Hstale Hcur). vm_compute. reflexivity.
Defined.

(** C5, as the claim has it, fails. Request ["1"] is pending when request
    ["2"] arrives; the timer of ["1"] then fires. Request ["1"] is still
    not done, its timer has been used up, and nothing was sent for it: its
    timeout was suppressed. Had ["2"] not arrived, the same firing would
    have sent the timeout response. *)
Lemma C5_counterexample_pending_timeout_suppressed :
  (requests overtaken !! "1") = Some (firedState false (newTimer 1000))
  /\ sent "1" overtaken = []
  /\ (map respStatusCode <$>
      (sent "1" <$> run (H := sampleEnv) [pendingArrival "1"; TimerFires "1"]
                      (booted false (sampleEndpoint "/hello" []))))
     = Some [503%N].
Proof. vm_compute. repeat split. Qed.

Lemma C4_timeout_of_most_recent_request_witness :
  exists s' resp,
    step (H := sampleEnv) (TimerFires "42") (pendingState false []) = Some s'
    /\ sent "42" s' = sent "42" (pendingState false []) ++ [resp]
    /\ respStatusCode resp = 503%N
    /\ respSource resp
       = JStr "[Serverless-Offline] Your λ handler 'hello' timed out after 1000ms.".
Proof.
  assert (Hc : contexts (pendingState false []) !! "42" = Some (sampleCtxOf "42"))
    by (vm_compute; reflexivity).
  assert (Hr : requests (pendingState false []) !! "42"
               = Some {| done := false; timeout := TimeoutTimer (newTimer 1000) |})
    by (vm_compute; reflexivity).
  assert (Hcur : currentRequestId (pendingState false []) = Some "42")
    by (vm_compute; reflexivity).
  destruct (C4_timeout_of_most_recent_request (H := sampleEnv) "42" (pendingState false [])
              (sampleCtxOf "42") _ (newTimer 1000) Hc Hr (conj eq_refl eq_refl)
              eq_refl eq_refl Hcur)
    as ((s' & resp & Hstep & _ & Hsent & Hstatus & Hbody) & _).
  exists s', resp. split; [exact Hstep|]. split; [exact Hsent|]. split; [exact Hstatus|].
  rewrite Hbody. vm_compute. reflexivity.
Defined.

(** C4, as the claim has it, fails. With timeouts enabled, request ["1"]
    is pending and holds a timer that may fire; request ["2"] has arrived
    since. The timer of ["1"] fires: the request does not become
    [TimedOut] (it is not marked done) and no 503 response is sent. *)
Lemma C4_counterexample_timer_fires_without_reply :
  let before := default (booted false (sampleEndpoint "/hello" []))
                  (run (H := sampleEnv) [pendingArrival "1"; pendingArrival "2"]
                     (booted false (sampleEndpoint "/hello" []))) in
  noTimeout (options before) = false
  /\ (requests before !! "1")
     = Some {| done := false; timeout := TimeoutTimer (newTimer 1000) |}
  /\ exists after,
       step (H := sampleEnv) (TimerFires "1") before = Some after
       /\ (done <$> requests after !! "1") = Some false
       /\ output after = output before.
Proof.
  vm_compute. split; [reflexivity|]. split; [reflexivity|].
  eexists. split; [reflexivity|]. split; reflexivity.
Qed.

(** The scenario of the specification: a handler that never completes. *)
Example timeout_scenario :
  (sent "42" <$> run (H := sampleEnv) [pendingArrival "42"; TimerFires "42"]
                   (booted false (sampleEndpoint "/hello" [])))
  = Some [{| respStatusCode := 503;
             respSource := JStr "[Serverless-Offline] Your λ handler 'hello' timed out after 1000ms.";
             respHeaders := [] |}].
Proof. vm_compute. reflexivity. Qed.

(** With timeouts disabled the timer of a pending request cannot fire. *)
Example no_timer_when_disabled :
  run (H := sampleEnv) [pendingArrival "42"; TimerFires "42"]
    (booted true (sampleEndpoint "/hello" [])) = None.
Proof. vm_compute. reflexivity. Qed.

(** * Further properties *)

(** ** Strings *)

Lemma append_cons c a b : String c a +:+ b = String c (a +:+ b).
Proof. reflexivity. Qed.

Lemma append_nil_l a : "" +:+ a = a.
Proof. reflexivity. Qed.

Lemma append_nil_r s : s +:+ "" = s.
Proof.
  induction s as [|c s IH]; [reflexivity|]. rewrite append_cons, IH. reflexivity.
Qed.

Lemma append_assoc a b c : (a +:+ b) +:+ c = a +:+ (b +:+ c).
Proof.
  induction a as [|x a IH]; [reflexivity|]. rewrite !append_cons, IH. reflexivity.
Qed.

Lemma length_append a b :
  String.length (a +:+ b) = (String.length a + String.length b)%nat.
Proof.
  induction a as [|x a IH]; [reflexivity|]. rewrite append_cons. cbn. rewrite IH.
  reflexivity.
Qed.

Lemma rev_app_spec s1 : forall s2, String.rev_app s1 s2 = String.rev s1 +:+ s2.
Proof.
  unfold String.rev. induction s1 as [|c s1 IH]; intros s2; cbn; [reflexivity|].
  rewrite IH, (IH (String c "")), append_assoc. reflexivity.
Qed.

Lemma rev_cons c s : String.rev (String c s) = String.rev s +:+ String c "".
Proof. unfold String.rev at 1. cbn. apply rev_app_spec. Qed.

Lemma rev_append a b : String.rev (a +:+ b) = String.rev b +:+ String.rev a.
Proof.
  induction a as [|c a IH].
  - rewrite append_nil_l. change (String.rev "") with "". rewrite append_nil_r.
    reflexivity.
  - rewrite append_cons, !rev_cons, IH, append_assoc. reflexivity.
Qed.

Lemma rev_involutive s : String.rev (String.rev s) = s.
Proof.
  induction s as [|c s IH]; [reflexivity|].
  rewrite rev_cons, rev_append, IH. reflexivity.
Qed.

Lemma startsWith_append p t : Js.startsWith (p +:+ t) p = true.
Proof.
  unfold Js.startsWith. induction p as [|c p IH].
  - rewrite append_nil_l. destruct t; reflexivity.
  - rewrite append_cons. cbn. destruct (ascii_dec c c); [exact IH|congruence].
Qed.

Lemma startsWith_inv s p : Js.startsWith s p = true -> exists t, s = p +:+ t.
Proof.
  unfold Js.startsWith. revert s. induction p as [|c p IH]; intros s; cbn.
  - intros _. exists s. reflexivity.
  - destruct s as [|d s]; cbn; [discriminate|].
    destruct (ascii_dec c d) as [Hcd|]; [|discriminate].
    intros Hp. destruct (IH _ Hp) as [t Ht]. exists t. rewrite Hcd, Ht. reflexivity.
Qed.

Lemma endsWith_append t p : Js.endsWith (t +:+ p) p = true.
Proof. unfold Js.endsWith. rewrite rev_append. apply startsWith_append. Qed.

Lemma endsWith_inv s p : Js.endsWith s p = true -> exists t, s = t +:+ p.
Proof.
  unfold Js.endsWith. intros Hp. destruct (startsWith_inv _ _ Hp) as [t Ht].
  exists (String.rev t). rewrite <- (rev_involutive s), Ht, rev_append, rev_involutive.
  reflexivity.
Qed.

Lemma split_nonempty sep s : Js.split sep s <> [].
Proof.
  induction s as [|c s IH]; cbn; [discriminate|].
  destruct (Ascii.eqb c sep); [discriminate|].
  destruct (Js.split sep s); [congruence|discriminate].
Qed.

Lemma split_append_sep sep a b :
  Js.split sep (a +:+ String sep b) = Js.split sep a ++ Js.split sep b.
Proof.
  induction a as [|c a IH].
  - rewrite append_nil_l. cbn. rewrite Ascii.eqb_refl. reflexivity.
  - rewrite append_cons. cbn. rewrite IH. destruct (Ascii.eqb c sep); [reflexivity|].
    pose proof (split_nonempty sep a) as Hne.
    destruct (Js.split sep a) as [|w ws]; [congruence|reflexivity].
Qed.

Lemma join_split sep s : Js.join (String sep "") (Js.split sep s) = s.
Proof.
  induction s as [|c s IH]; [reflexivity|]. cbn [Js.split].
  pose proof (split_nonempty sep s) as Hne.
  destruct (Ascii.eqb_spec c sep) as [->|Hc].
  - destruct (Js.split sep s) as [|w ws]; [congruence|].
    cbn [Js.join]. cbn. rewrite <- IH. reflexivity.
  - destruct (Js.split sep s) as [|w ws]; [congruence|].
    rewrite <- IH. destruct ws; reflexivity.
Qed.

(** ** The prefix option *)

Lemma setPrefix_fixed p :
  Js.startsWith p "/" = true -> Js.endsWith p "/" = true -> setPrefix (Some p) = p.
Proof.
  intros Hs He. unfold setPrefix. change (default "" (Some p)) with p.
  assert (Hp : Js.orElse p "/" = p) by (destruct p; [discriminate|reflexivity]).
  rewrite Hp, Hs. cbn [negb]. rewrite He. reflexivity.
Qed.

Lemma setPrefix_both cli :
  Js.startsWith (setPrefix cli) "/" = true /\ Js.endsWith (setPrefix cli) "/" = true.
Proof.
  unfold setPrefix. set (p0 := Js.orElse (default "" cli) "/").
  set (p1 := if negb (Js.startsWith p0 "/") then "/" +:+ p0 else p0).
  assert (Hs1 : Js.startsWith p1 "/" = true).
  { subst p1. destruct (Js.startsWith p0 "/") eqn:Hs; cbn [negb]; [exact Hs|].
    apply (startsWith_append "/" p0). }
  destruct (Js.endsWith p1 "/") eqn:He; cbn [negb].
  - split; [exact Hs1|exact He].
  - split; [|apply endsWith_append].
    destruct (startsWith_inv _ _ Hs1) as [t ->].
    rewrite append_assoc. apply startsWith_append.
Qed.

Lemma endsWith_slash_cons p :
  p <> "" -> Js.endsWith ("/" +:+ p) "/" = Js.endsWith p "/".
Proof.
  intros Hp. destruct (Js.endsWith p "/") eqn:He.
  - destruct (endsWith_inv _ _ He) as [t ->].
    rewrite <- append_assoc. apply endsWith_append.
  - destruct (Js.endsWith ("/" +:+ p) "/") eqn:He'; [|reflexivity].
    destruct (endsWith_inv _ _ He') as [t Ht].
    destruct t as [|c t].
    + rewrite append_nil_l, append_cons, append_nil_l in Ht.
      injection Ht as Ht. contradiction.
    + rewrite !append_cons, append_nil_l in Ht. injection Ht as _ Ht.
      rewrite Ht, endsWith_append in He. discriminate He.
Qed.

Lemma setPrefix_formula p :
  p <> "" ->
  setPrefix (Some p)
  = (if Js.startsWith p "/" then "" else "/") +:+ p
    +:+ (if Js.endsWith p "/" then "" else "/").
Proof.
  intros Hp. unfold setPrefix. change (default "" (Some p)) with p.
  assert (Hor : Js.orElse p "/" = p) by (destruct p; [contradiction|reflexivity]).
  rewrite Hor. destruct (Js.startsWith p "/"); cbn [negb].
  - rewrite append_nil_l. destruct (Js.endsWith p "/"); cbn [negb];
      [rewrite append_nil_r|]; reflexivity.
  - rewrite (endsWith_slash_cons p Hp).
    destruct (Js.endsWith p "/"); cbn [negb];
      [rewrite append_nil_r|rewrite append_assoc]; reflexivity.
Qed.

(** X1. The prefix [_setOptions] leaves in the options is the prefix of the
    command line with a slash put in front unless it starts with one, and a
    slash put behind unless it ends with one; a missing or empty prefix
    gives ["/"]. So the prefix always starts and ends with a slash, one
    that already does both is kept as it is, and normalising twice changes
    nothing more. *)
Theorem setPrefix_slashes (cli : option string) :
  Js.startsWith (setPrefix cli) "/" = true
  /\ Js.endsWith (setPrefix cli) "/" = true
  /\ setPrefix (Some (setPrefix cli)) = setPrefix cli
  /\ match cli with
     | None | Some "" => setPrefix cli = "/"
     | Some p =>
         setPrefix cli
         = (if Js.startsWith p "/" then "" else "/") +:+ p
           +:+ (if Js.endsWith p "/" then "" else "/")
         /\ (Js.startsWith p "/" = true -> Js.endsWith p "/" = true -> setPrefix cli = p)
     end.
Proof.
  destruct (setPrefix_both cli) as [Hs He]. split; [exact Hs|]. split; [exact He|].
  split; [apply setPrefix_fixed; assumption|].
  destruct cli as [[|c p]|]; [reflexivity| |reflexivity].
  split; [apply setPrefix_formula; discriminate|apply setPrefix_fixed].
Qed.

Example setPrefix_samples :
  setPrefix None = "/" /\ setPrefix (Some "") = "/" /\ setPrefix (Some "/") = "/"
  /\ setPrefix (Some "dev") = "/dev/" /\ setPrefix (Some "/dev") = "/dev/"
  /\ setPrefix (Some "dev/") = "/dev/" /\ setPrefix (Some "/dev/") = "/dev/".
Proof. vm_compute. repeat split. Qed.

(** ** Keeping a property of the plugin *)

Lemma Preserves_ret {A} P (a : A) : Preserves P (ret a).
Proof. intros s Hs. exact Hs. Qed.

Lemma Preserves_throw {A} P e : Preserves P (@throw A e).
Proof. intros s Hs. exact Hs. Qed.

Lemma Preserves_exit {A} P : Preserves P (@exit A).
Proof. intros s Hs. exact Hs. Qed.

Lemma Preserves_lift {A} P (o : Outcome A) : Preserves P (lift o).
Proof. intros s Hs. exact Hs. Qed.

Lemma Preserves_get P : Preserves P get.
Proof. intros s Hs. exact Hs. Qed.

Lemma Preserves_modify P f : (forall s, P s -> P (f s)) -> Preserves P (modify f).
Proof. intros Hf s Hs. apply Hf, Hs. Qed.

Lemma Preserves_bind {A B} P (m : M A) (k : A -> M B) :
  Preserves P m -> (forall a, Preserves P (k a)) -> Preserves P (bind m k).
Proof.
  intros Hm Hk s Hs. specialize (Hm s Hs). unfold bind.
  destruct (m s) as [[a|e|] s1]; cbn [snd] in *; [apply Hk, Hm|exact Hm|exact Hm].
Qed.

Lemma Preserves_get_bind {A} P (k : Offline -> M A) :
  (forall s, P s -> P (snd (k s s))) -> Preserves P (bind get k).
Proof. intros Hk s Hs. apply Hk, Hs. Qed.

Lemma Preserves_tryCatch {A} P (m : M A) (h : JsException -> M A) :
  Preserves P m -> (forall e, Preserves P (h e)) -> Preserves P (tryCatch m h).
Proof.
  intros Hm Hh s Hs. specialize (Hm s Hs). unfold tryCatch.
  destruct (m s) as [[a|e|] s1]; cbn [snd] in *; [exact Hm|apply Hh, Hm|exact Hm].
Qed.

Lemma Preserves_forEach {A} P (f : A -> M unit) xs :
  (forall x, Preserves P (f x)) -> Preserves P (forEach f xs).
Proof.
  intros Hf. induction xs as [|x xs IH]; cbn [forEach].
  - apply Preserves_ret.
  - apply Preserves_bind; [apply Hf|intros _; exact IH].
Qed.

Lemma Preserves_emit P e :
  (forall s out, P s -> P (withOutput out s)) -> Preserves P (emit e).
Proof. intros Hout. apply Preserves_modify. intros s Hs. apply Hout, Hs. Qed.

(** ** The routes registration leaves *)

Lemma fullPathOf_well_formed pfx epath fullPath :
  Js.startsWith pfx "/" = true ->
  fullPathOf pfx epath = Ret fullPath ->
  fullPath = joinedPath pfx epath
  /\ Js.startsWith fullPath "/" = true /\ trimmedPath fullPath.
Proof.
  intros Hpfx. unfold fullPathOf.
  destruct (negb (bool_decide (joinedPath pfx epath = "/"))
            && Js.endsWith (joinedPath pfx epath) "/") eqn:Htrim; [discriminate|].
  intros [= <-]. split; [reflexivity|]. split.
  - unfold joinedPath. destruct (startsWith_inv _ _ Hpfx) as [t ->].
    rewrite append_assoc. apply startsWith_append.
  - apply andb_false_iff in Htrim as [Hroot|Hend].
    + left. apply negb_false_iff, bool_decide_eq_true in Hroot. exact Hroot.
    + right. exact Hend.
Qed.

Lemma registersOnto_output o R0 s out :
  registersOnto o R0 s -> registersOnto o R0 (withOutput out s).
Proof. intros Hs. exact Hs. Qed.

Lemma Preserves_authStrategyOf o R0 funName m epath endpoint :
  Preserves (registersOnto o R0) (authStrategyOf funName m epath endpoint).
Proof.
  pose proof (registersOnto_output o R0) as Hout.
  unfold authStrategyOf, _logAndExit, serverlessLog.
  destruct (authorizer endpoint) as [[n|arn n]|]; [destruct n| |];
    try apply Preserves_ret;
    (apply Preserves_bind;
     [|intros authFunctionName; apply Preserves_bind; [apply Preserves_emit, Hout|];
       intros _; apply Preserves_get_bind; intros s Hs;
       destruct (getFunction (service s) authFunctionName); [exact Hs|];
       cbn; apply Hout, Hs]).
  - apply Preserves_ret.
  - destruct arn as [r|]; [|apply Preserves_ret].
    destruct (Js.truthy r); [|apply Preserves_ret].
    apply Preserves_bind; [apply Preserves_emit, Hout|]. intros _.
    apply Preserves_bind; [apply Preserves_exit|]. intros _. apply Preserves_ret.
Qed.

Lemma registersOnto_route o R0 r s :
  wellFormedRoute (prefix o) r -> registersOnto o R0 s ->
  registersOnto o R0 (withRoutes (routes s ++ [r]) s).
Proof.
  intros Hr [Ho (extra & Hroutes & Hextra)]. split; [exact Ho|].
  exists (extra ++ [r]). cbn [routes withRoutes]. rewrite Hroutes, <- app_assoc.
  split; [reflexivity|]. apply Forall_app. split; [exact Hextra|].
  constructor; [exact Hr|constructor].
Qed.

Lemma Preserves_createRoute o R0 funName fn event :
  Js.startsWith (prefix o) "/" = true ->
  Preserves (registersOnto o R0) (createRoute funName fn event).
Proof.
  intros Hpfx s Hs. pose proof (registersOnto_output o R0) as Hout.
  unfold createRoute. destruct event as [http|]; [|exact Hs].
  assert (Hgo : forall k : M unit,
            registersOnto o R0 (snd (k s)) ->
            registersOnto o R0
              (snd (match http with
                    | HttpString EmptyString => ret tt
                    | _ => k
                    end s))).
  { intros k Hk. destruct http as [[|ch rest]|e]; [exact Hs|exact Hk..]. }
  apply Hgo. clear Hgo.
  unfold bind at 1. destruct (method (endpointOf http)) as [m0|]; cbn [ret throw]; [|exact Hs].
  unfold bind at 1. destruct (path (endpointOf http)) as [epath|] eqn:Hpath;
    cbn [ret throw]; [|exact Hs].
  unfold bind at 1. cbn [get]. unfold bind at 1. unfold lift.
  destruct (fullPathOf (prefix (options s)) epath) as [fullPath|e|] eqn:Hfull;
    [|exact Hs..].
  assert (Ho : options s = o) by apply Hs. rewrite Ho in Hfull.
  destruct (fullPathOf_well_formed _ _ _ Hpfx Hfull) as (Hjoin & Hstart & Htrim).
  clear Ho. revert s Hs.
  apply Preserves_bind; [apply Preserves_emit, Hout|]. intros _.
  apply Preserves_bind; [apply Preserves_authStrategyOf|]. intros auth.
  apply Preserves_get_bind. intros s Hs. cbn [setRoutes modify snd].
  apply registersOnto_route; [|exact Hs].
  split; [exists epath; split; [exact Hpath|exact Hjoin]|].
  split; [exact Hstart|]. split; [exact Htrim|reflexivity].
Qed.

Lemma Preserves__createRoutes o R0 :
  Js.startsWith (prefix o) "/" = true ->
  Preserves (registersOnto o R0) _createRoutes.
Proof.
  intros Hpfx. pose proof (registersOnto_output o R0) as Hout.
  unfold _createRoutes. apply Preserves_get_bind. intros s Hs.
  destruct (negb (supportedRuntime (runtime (service s)))).
  - refine (Preserves_bind _ _ _ _ _ s Hs); [apply Preserves_emit, Hout|].
    intros _. apply Preserves_emit, Hout.
  - refine (Preserves_forEach _ _ _ _ s Hs). intros [funName fn].
    apply Preserves_bind; [apply Preserves_emit, Hout|]. intros _.
    apply Preserves_bind; [apply Preserves_emit, Hout|]. intros _.
    apply Preserves_forEach. intros event. apply Preserves_createRoute, Hpfx.
Qed.

(** X2. Whatever the service and the options of the command line,
    [_createRoutes] only appends to the routes, and the path of every route
    it registers is the prefix followed by the path of its endpoint without
    its leading slash, exactly as joined and never shortened: that path
    starts with a slash and is either the root or free of a trailing slash,
    and the first call of the route is still to come. An endpoint whose
    joined path ends with a slash without being the root therefore
    registers nothing. *)
Theorem registered_routes_well_formed (cli : option string) (cliNoTimeout : bool)
    (sv : Service) (rs : list Route) :
  exists extra,
    routes (snd (_createRoutes (withRoutes rs (emptyOffline (_setOptions cli cliNoTimeout) sv))))
    = rs ++ extra
    /\ Forall (fun r =>
                (exists epath,
                    path (routeEndpoint r) = Some epath
                    /\ routePath r = setPrefix cli
                                      +:+ (if Js.startsWith epath "/"
                                           then Js.sliceFrom epath 1 else epath))
                /\ Js.startsWith (routePath r) "/" = true
                /\ (routePath r = "/" \/ Js.endsWith (routePath r) "/" = false)
                /\ firstCall r = true) extra.
Proof.
  set (o := _setOptions cli cliNoTimeout). set (s := withRoutes rs (emptyOffline o sv)).
  assert (Hpfx : Js.startsWith (prefix o) "/" = true) by apply setPrefix_both.
  assert (Hs : registersOnto o rs s).
  { split; [reflexivity|]. exists []. split; [symmetry; apply app_nil_r|constructor]. }
  exact (proj2 (Preserves__createRoutes o rs Hpfx s Hs)).
Qed.

(** Three endpoints under the prefix [dev]: the first is registered, the
    empty one is passed over, and the third, whose path would need
    trimming, stops the registration. *)
Example registration_stops_at_trailing_slash :
  let fn := {| events := [Some (HttpString "GET users"); Some (HttpString "");
                          Some (HttpString "GET orders/")];
               funTimeout := 1000 |} in
  let run := _createRoutes
               (emptyOffline (_setOptions (Some "dev") false)
                  {| runtime := "nodejs"; functions := [("hello", fn)] |}) in
  fst run = Throw (TypeError "path.slice is not a function")
  /\ map routePath (routes (snd run)) = ["/dev/users"].
Proof. vm_compute. split; reflexivity. Qed.

(** ** The stack trace of an error *)

Lemma findIndex_none {A} (p : A -> bool) xs :
  Forall (fun x => p x = false) xs -> Js.findIndex p xs = (-1)%Z.
Proof.
  induction 1 as [|x xs Hx _ IH]; [reflexivity|].
  cbn [Js.findIndex]. rewrite Hx, IH. reflexivity.
Qed.

Lemma findIndex_first {A} (p : A -> bool) pre x post :
  Forall (fun x => p x = false) pre -> p x = true ->
  Js.findIndex p (pre ++ x :: post) = Z.of_nat (List.length pre).
Proof.
  intros Hpre Hx. induction Hpre as [|y pre Hy _ IH]; cbn [app Js.findIndex].
  - rewrite Hx. reflexivity.
  - rewrite Hy, IH. destruct (Z.ltb_spec (Z.of_nat (List.length pre)) 0); [lia|].
    cbn [List.length]. lia.
Qed.

Lemma sliceArr_prefix {A} (pre post : list A) :
  Js.sliceArr (pre ++ post) 0 (Z.of_nat (List.length pre)) = pre.
Proof.
  unfold Js.sliceArr, Js.clamp.
  destruct (Z.ltb_spec (Z.of_nat (List.length pre)) 0); [lia|].
  change (0 <? 0)%Z with false. cbn iota.
  rewrite Nat2Z.id, length_app.
  replace (Nat.min (List.length pre) (List.length pre + List.length post)
           - Nat.min (Z.to_nat 0) (List.length pre + List.length post))%nat
    with (List.length pre) by lia.
  replace (Nat.min (Z.to_nat 0) (List.length pre + List.length post)) with 0%nat by lia.
  apply take_app_length.
Qed.

Lemma sliceArr_all_but_last {A} (xs : list A) :
  Js.sliceArr xs 0 (-1) = removelast xs.
Proof.
  unfold Js.sliceArr, Js.clamp. change (0 <? 0)%Z with false.
  change (-1 <? 0)%Z with true. cbn iota.
  replace (Nat.min (Z.to_nat 0) (List.length xs)) with 0%nat by lia.
  rewrite removelast_firstn_len. cbn [drop]. f_equal. lia.
Qed.

(** X3. For a non-empty stack, [_getArrayStackTrace] gives the lines that
    come before the first line naming the completion callback, each
    trimmed of the white space at its ends, the no-break space included:
    that line and all lines after it are cut. *)
Theorem stack_trace_cut_at_callback (st : string) (pre : list string) (line : string)
    (post : list string) :
  st <> "" ->
  Js.split "010"%char st = pre ++ line :: post ->
  Forall (fun l => namesCallback l = false) pre ->
  namesCallback line = true ->
  _getArrayStackTrace (Some st) = Some (map Js.trim pre).
Proof.
  intros Hst Hlines Hpre Hline. unfold _getArrayStackTrace.
  destruct st as [|c st']; [congruence|]. cbn [Js.truthy negb].
  rewrite Hlines.
  change (matchAnywhere "server.route.handler.createLambdaContext") with namesCallback.
  rewrite (findIndex_first _ _ _ _ Hpre Hline), sliceArr_prefix. reflexivity.
Qed.

Lemma stack_trace_cut_at_callback_witness :
  _getArrayStackTrace
    (Some ("Error: boom" +:+ String "160"%char "" +:+ nl
           +:+ "    at handler (/srv/handler.js:3:9)  " +:+ nl
           +:+ "    at server.route.handler.createLambdaContext (index.js:600:25)" +:+ nl
           +:+ "    at process._tickCallback"))
  = Some ["Error: boom"; "at handler (/srv/handler.js:3:9)"].
Proof.
  rewrite (stack_trace_cut_at_callback _
             ["Error: boom" +:+ String "160"%char ""; "    at handler (/srv/handler.js:3:9)  "]
             "    at server.route.handler.createLambdaContext (index.js:600:25)"
             ["    at process._tickCallback"]).
  - vm_compute. reflexivity.
  - vm_compute. discriminate.
  - vm_compute. reflexivity.
  - vm_compute. repeat constructor.
  - vm_compute. reflexivity.
Defined.

(** X4. When no line of a non-empty stack names the completion callback,
    [findIndex] gives [-1] and [slice(0, -1)] drops the last line: the trace
    is every line but the last, trimmed of the white space at its ends, the
    no-break space included, and a stack of one line gives the empty
    trace. *)
Theorem stack_trace_without_callback (st : string) :
  st <> "" ->
  Forall (fun l => namesCallback l = false) (Js.split "010"%char st) ->
  _getArrayStackTrace (Some st) = Some (map Js.trim (removelast (Js.split "010"%char st))).
Proof.
  intros Hst Hlines. unfold _getArrayStackTrace.
  destruct st as [|c st']; [congruence|]. cbn [Js.truthy negb].
  change (matchAnywhere "server.route.handler.createLambdaContext") with namesCallback.
  rewrite (findIndex_none _ _ Hlines), sliceArr_all_but_last. reflexivity.
Qed.

Lemma stack_trace_without_callback_witness :
  _getArrayStackTrace
    (Some (String "160"%char "" +:+ "Error: boom" +:+ nl
           +:+ "    at handler (/srv/handler.js:3:9)"))
  = Some ["Error: boom"].
Proof.
  rewrite stack_trace_without_callback.
  - vm_compute. reflexivity.
  - vm_compute. discriminate.
  - vm_compute. repeat constructor.
Defined.

(** ** Response parameters: the header named and the literal assigned *)

Lemma split_head_nonempty sep c rest :
  c <> sep -> exists w ws, Js.split sep (String c rest) = String c w :: ws.
Proof.
  intros Hc. cbn [Js.split]. destruct (Ascii.eqb_spec c sep) as [|_]; [contradiction|].
  pose proof (split_nonempty sep rest) as Hne.
  destruct (Js.split sep rest) as [|w ws]; [congruence|]. exists w, ws. reflexivity.
Qed.

Lemma headerNameOf_round_trip c rest :
  c <> "."%char ->
  headerNameOf ("method.response.header." +:+ String c rest) = Some (String c rest).
Proof.
  intros Hc. unfold headerNameOf.
  change ("method.response.header." +:+ String c rest)
    with ("method.response.header" +:+ String "." (String c rest)).
  rewrite startsWith_append, split_append_sep.
  change (Js.split "." "method.response.header") with ["method"; "response"; "header"].
  cbn [app drop]. unfold truthyAt. cbn [lookup list_lookup].
  destruct (split_head_nonempty "." c rest Hc) as (w & ws & Hsplit).
  rewrite <- (join_split "." (String c rest)) at 3. rewrite Hsplit. reflexivity.
Qed.

Lemma substring_prefix v t : String.substring 0 (String.length v) (v +:+ t) = v.
Proof.
  induction v as [|c v IH]; [destruct t; reflexivity|].
  rewrite append_cons. cbn. rewrite IH. reflexivity.
Qed.

Lemma slice_quotes v : Js.slice ("'" +:+ v +:+ "'") 1 (-1) = v.
Proof.
  unfold Js.slice, Js.clamp. change (1 <? 0)%Z with false. change (-1 <? 0)%Z with true.
  cbn iota. change ("'" +:+ v +:+ "'") with (String "'" (v +:+ "'")).
  cbn [String.length]. rewrite length_append. cbn [String.length].
  replace (Nat.min (Z.to_nat 1) (S (String.length v + 1))) with 1%nat by lia.
  replace (Z.to_nat (Z.max (Z.of_nat (S (String.length v + 1)) + -1) 0) - 1)%nat
    with (String.length v) by lia.
  cbn [String.substring]. apply substring_prefix.
Qed.

Lemma literalOf_quotes v :
  forallb (fun x => negb (Js.isLineTerminator x)) (list_ascii_of_string v) = true ->
  literalOf ("'" +:+ v +:+ "'") = v.
Proof.
  intros Hv. unfold literalOf, quoted. rewrite slice_quotes, Hv.
  change ("'" +:+ v +:+ "'") with ("'" +:+ (v +:+ "'")) at 2.
  rewrite startsWith_append.
  rewrite <- (append_assoc "'" v "'") at 2. rewrite endsWith_append.
  change ("'" +:+ v +:+ "'") with (String "'" (v +:+ "'")).
  cbn [String.length]. rewrite length_append. cbn [String.length].
  replace (2 <=? S (String.length v + 1))%nat with true
    by (symmetry; apply Nat.leb_le; lia).
  reflexivity.
Qed.

Section ParameterLiteral.
Context `{JsEnv}.

(** X5. A response parameter whose key is [method.response.header.] followed
    by a name that does not begin with a dot, and whose value is a text
    without line terminators between single quotes, assigns that text,
    less the two quotes, to the header of that very name: splitting
    the key at its dots and joining the tail again gives the name back,
    dots included. *)
Theorem quoted_literal_sets_header (rid : string) (result : JsValue) (c : ascii)
    (rest v : string) (s : Offline) :
  c <> "."%char ->
  forallb (fun x => negb (Js.isLineTerminator x)) (list_ascii_of_string v) = true ->
  processResponseParameter rid result
    ("method.response.header." +:+ String c rest, "'" +:+ v +:+ "'") s
  = (Ret tt,
     withHeld (<[rid := header (String c rest) v true (heldResponse rid s)]> (held s)) s).
Proof.
  intros Hc Hv.
  assert (Hlit : Js.startsWith ("'" +:+ v +:+ "'") "integration.response" = false)
    by reflexivity.
  rewrite (parameter_literal rid result _ _ (String c rest) s
             (headerNameOf_round_trip c rest Hc) Hlit).
  rewrite (literalOf_quotes v Hv). reflexivity.
Qed.

End ParameterLiteral.

Lemma quoted_literal_sets_header_witness :
  processResponseParameter (H := sampleEnv) "42" JNull
    ("method.response.header.X-Powered.By", "'it's offline'") (emptyOffline (_setOptions None false) (sampleService (sampleEndpoint "/" [])))
  = (Ret tt,
     withHeld (<["42" := header "X-Powered.By" "it's offline" true newResponse]> ∅)
       (emptyOffline (_setOptions None false) (sampleService (sampleEndpoint "/" [])))).
Proof.
  apply (quoted_literal_sets_header (H := sampleEnv) "42" JNull "X" "-Powered.By" "it's offline").
  - discriminate.
  - vm_compute. reflexivity.
Defined.

(** ** The short form of an endpoint *)

Lemma split_spaceless s : spaceless s -> Js.split " " s = [s].
Proof.
  unfold spaceless. induction s as [|c s IH]; [reflexivity|].
  cbn [list_ascii_of_string forallb Js.split]. intros [Hc Hs]%andb_true_iff.
  apply negb_true_iff in Hc. rewrite Hc, (IH Hs). reflexivity.
Qed.

(** X6. The short form [METHOD path] of an endpoint, both parts free of
    spaces, stands for that method and that path with no templates, no
    responses and no authorizer, and whatever follows a second space is
    dropped. A short form without any space has no path: when it is not
    empty, registering it throws at [epath.startsWith] and adds no route;
    the empty string is no endpoint at all, and is passed over without an
    error. *)
Theorem short_form_endpoint (m p : string) :
  spaceless m -> spaceless p ->
  let e := {| path := Some p; method := Some m; requestTemplates := None;
              responses := None; authorizer := None |} in
  endpointOfString (m +:+ " " +:+ p) = e
  /\ (forall tail, endpointOfString (m +:+ " " +:+ p +:+ " " +:+ tail) = e)
  /\ (forall funName fn s,
        createRoute funName fn (Some (HttpString m)) s
        = if bool_decide (m = "")
          then (Ret tt, s)
          else (Throw (TypeError "Cannot read property 'startsWith' of undefined"), s)).
Proof.
  intros Hm Hp e. unfold endpointOfString, Js.splitLimit.
  change (m +:+ " " +:+ p) with (m +:+ String " " p).
  rewrite split_append_sep, (split_spaceless m Hm), (split_spaceless p Hp).
  split; [reflexivity|]. split.
  - intros tail.
    change (m +:+ " " +:+ p +:+ " " +:+ tail) with (m +:+ String " " (p +:+ String " " tail)).
    rewrite !split_append_sep, (split_spaceless m Hm), (split_spaceless p Hp). reflexivity.
  - intros funName fn s. destruct m as [|c m']; [reflexivity|].
    rewrite bool_decide_eq_false_2 by discriminate.
    unfold createRoute, endpointOf, endpointOfString, Js.splitLimit.
    rewrite (split_spaceless _ Hm). reflexivity.
Qed.

Lemma short_form_endpoint_witness :
  endpointOfString "GET /users/{id}"
  = {| path := Some "/users/{id}"; method := Some "GET"; requestTemplates := None;
       responses := None; authorizer := None |}
  /\ (forall fn s,
        createRoute "hello" fn (Some (HttpString "GET")) s
        = (Throw (TypeError "Cannot read property 'startsWith' of undefined"), s)).
Proof.
  destruct (short_form_endpoint "GET" "/users/{id}") as (He & _ & Hshort);
    [vm_compute; reflexivity..|].
  split; [exact He|]. intros fn s. exact (Hshort "hello" fn s).
Defined.

(** ** The callbacks the plugin holds *)

Ltac keeps1 :=
  lazymatch goal with
  | |- Preserves _ (ret _) => apply Preserves_ret
  | |- Preserves _ (throw _) => apply Preserves_throw
  | |- Preserves _ exit => apply Preserves_exit
  | |- Preserves _ (lift _) => apply Preserves_lift
  | |- Preserves _ get => apply Preserves_get
  | |- Preserves _ (modify _) => apply Preserves_modify; intros ? ?
  | |- Preserves _ (bind get _) =>
      apply Preserves_get_bind; intros ? ?;
      lazymatch goal with
      | |- _ (snd (setRoutes _ _)) => cbn [setRoutes modify snd]
      | |- _ (snd (setRequests _ _)) => cbn [setRequests modify snd]
      | |- _ (snd (setHeld _ _)) => cbn [setHeld modify snd]
      | |- _ (snd (setContexts _ _)) => cbn [setContexts modify snd]
      | Hs : ?P ?s |- ?P (snd (?m ?s)) => refine ((_ : Preserves P m) s Hs)
      end
  | |- Preserves _ (bind _ _) => apply Preserves_bind; [|intros ?]
  | |- Preserves _ (tryCatch _ _) => apply Preserves_tryCatch; [|intros ?]
  | |- Preserves _ (forEach _ _) => apply Preserves_forEach; intros ?
  | |- Preserves _ (if ?b then _ else _) => destruct b
  | |- Preserves _ (match ?x with _ => _ end) => destruct x
  | |- Preserves _ ?m =>
      let rec head t := lazymatch t with ?f _ => head f | _ => t end in
      let h := head m in unfold h
  end.

Ltac keeps := repeat keeps1.

Ltac framed HF :=
  lazymatch goal with
  | Hs : ?P ?s |- ?P (withOutput _ ?s) => apply (HF s Hs)
  | Hs : ?P ?s |- ?P (withRequests _ ?s) => apply (HF s Hs)
  | Hs : ?P ?s |- ?P (withHeld _ ?s) => apply (HF s Hs)
  | Hs : ?P ?s |- ?P (withCurrentRequestId _ ?s) => apply (HF s Hs)
  end.

Section Frames.
Context `{JsEnv}.
Variable P : Offline -> Prop.
Hypothesis HF : Framed P.

Lemma Preserves_callback c err data : Preserves P (callback c err data).
Proof. keeps; framed HF. Qed.

Lemma Preserves__reply500 rid message err : Preserves P (_reply500 rid message err).
Proof. keeps; framed HF. Qed.

Lemma Preserves_fireTimer rid r t c : Preserves P (fireTimer rid r t c).
Proof. keeps; framed HF. Qed.

Lemma Preserves_topLevel (m : M unit) s : Preserves P m -> P s -> P (topLevel m s).
Proof.
  intros Hm Hs. specialize (Hm s Hs). unfold topLevel.
  destruct (m s) as [[a|e|] s1]; cbn [snd] in *; try exact Hm.
  apply (HF s1 Hm).
Qed.

Lemma Preserves_beginRequest i route inv :
  (forall s, P s -> P (withRoutes (<[i := withFirstCall false route]> (routes s)) s)) ->
  Preserves P (beginRequest i route inv).
Proof. intros Hroutes. keeps; first [framed HF | apply Hroutes; assumption]. Qed.

Lemma Preserves_invokeHandler route inv :
  (forall s, P s ->
     P (withContexts (<[invRequestId inv := ctxOf route inv]> (contexts s)) s)) ->
  Preserves P (invokeHandler route inv).
Proof.
  intros Hctx. unfold invokeHandler.
  destruct (invLoad inv); [apply Preserves__reply500|].
  destruct (renderRequest _ _); [|apply Preserves__reply500|apply Preserves_exit].
  apply Preserves_bind; [apply Preserves_lift|]. intros event.
  apply Preserves_bind.
  { apply Preserves_get_bind. intros s Hs. apply Hctx, Hs. }
  intros _. apply Preserves_bind; [keeps; framed HF|]. intros _.
  apply Preserves_tryCatch; [|intros e; apply Preserves__reply500].
  unfold callHandler. apply Preserves_bind.
  { apply Preserves_forEach. intros call. apply Preserves_callback. }
  intros _. destruct (ending _); [|apply Preserves_throw].
  unfold promiseSupport, lambdaContext_fail.
  apply Preserves_bind; [apply Preserves_get|]. intros s0.
  apply Preserves_bind; [keeps|]. intros r.
  destruct (_ && _); [|apply Preserves_ret].
  destruct x; first [apply Preserves_ret | apply Preserves_callback].
Qed.

End Frames.

Section Callbacks.

Context `{JsEnv}.

Lemma ownContexts_insert id c s :
  ctxRequestId c = id -> ownContexts s ->
  ownContexts (withContexts (<[id := c]> (contexts s)) s).
Proof.
  intros Hc Hs id' c'. cbn [contexts withContexts].
  destruct (decide (id' = id)) as [->|Hne].
  - rewrite lookup_insert_eq. intros [= <-]. exact Hc.
  - rewrite lookup_insert_ne by congruence. apply Hs.
Qed.

Lemma step_keeps P e s s' :
  HandlerProof P -> P s -> step e s = Some s' -> P s'.
Proof.
  intros (HF & Hroutes & Hctx) Hs. destruct e as [i inv|rid err data|rid]; cbn [step].
  - destruct (routes s !! i) as [route|]; [|discriminate]. intros [= <-].
    apply (Preserves_topLevel P HF); [|exact Hs]. unfold routeHandler.
    apply Preserves_bind.
    + apply (Preserves_beginRequest P HF). intros s0. apply Hroutes.
    + intros _. apply (Preserves_invokeHandler P HF). intros s0. apply Hctx.
  - destruct (contexts s !! rid) as [c|]; [|discriminate]. intros [= <-].
    apply (Preserves_topLevel P HF); [|exact Hs]. apply (Preserves_callback P HF).
  - destruct (contexts s !! rid) as [c|]; [|discriminate].
    destruct (requests s !! rid) as [r|]; [|discriminate]. cbn.
    destruct (timeout r) as [| |t]; try discriminate.
    destruct (_called t || cleared t); [discriminate|]. intros [= <-].
    apply (Preserves_topLevel P HF); [|exact Hs]. apply (Preserves_fireTimer P HF).
Qed.

Lemma run_keeps P es : forall s s',
  HandlerProof P -> P s -> run es s = Some s' -> P s'.
Proof.
  induction es as [|e es IH]; intros s s' HP Hs; cbn [run].
  - intros [= <-]. exact Hs.
  - destruct (step e s) as [s1|] eqn:Hstep; [|discriminate]. cbn.
    apply IH; [exact HP|]. exact (step_keeps P e s s1 HP Hs Hstep).
Qed.

Lemma HandlerProof_ownContexts : HandlerProof ownContexts.
Proof.
  split; [|split].
  - intros s Hs. repeat split; intros; exact Hs.
  - intros s i route Hs. exact Hs.
  - intros s route inv Hs. apply ownContexts_insert; [reflexivity|exact Hs].
Qed.

Lemma boot_ownContexts o sv : ownContexts (snd (_createRoutes (emptyOffline o sv))).
Proof.
  intros id c. destruct (boot_state o sv) as (_ & -> & _).
  rewrite lookup_empty. discriminate.
Qed.

Lemma reachable_ownContexts o sv es s :
  run es (snd (_createRoutes (emptyOffline o sv))) = Some s -> ownContexts s.
Proof.
  apply (run_keeps ownContexts es _ s HandlerProof_ownContexts), boot_ownContexts.
Qed.

Lemma topLevel_frame (m : M unit) s :
  requests (topLevel m s) = requests (snd (m s))
  /\ contexts (topLevel m s) = contexts (snd (m s))
  /\ forall rid, sent rid (topLevel m s) = sent rid (snd (m s)).
Proof.
  unfold topLevel. destruct (m s) as [[a|e|] s1]; cbn [snd]; try (repeat split; reflexivity).
  split; [reflexivity|]. split; [reflexivity|]. intros rid.
  cbn [emit modify snd]. rewrite sent_withOutput_app. cbn. apply app_nil_r.
Qed.

(** A turn of the event loop leaves the requests it is not about alone. *)
Lemma step_leaves_others e s s' rid :
  ownContexts s -> step e s = Some s' -> subject e <> rid ->
  requests s' !! rid = requests s !! rid
  /\ sent rid s' = sent rid s
  /\ contexts s' !! rid = contexts s !! rid.
Proof.
  intros Hown Hstep Hne. destruct e as [i inv|id err data|id]; cbn [step subject] in *.
  - destruct (routes s !! i) as [route|]; [|discriminate]. injection Hstep as <-.
    destruct (arrival_leaves_others i route inv s rid Hne) as (_ & Hr & Hc & Hsent).
    split; [exact Hr|]. split; [exact Hsent|exact Hc].
  - destruct (contexts s !! id) as [c|] eqn:Hc; [|discriminate]. injection Hstep as <-.
    pose proof (Hown _ _ Hc) as Hid.
    destruct (topLevel_frame (callback c err data) s) as (-> & -> & Htop). rewrite Htop.
    pose proof (callback_eff c err data s) as [[Hothers _] _]. rewrite Hid in Hothers.
    destruct (Hothers rid (not_eq_sym Hne)) as (Hr & Hs & Hc').
    split; [exact Hr|]. split; [exact Hs|exact Hc'].
  - destruct (contexts s !! id) as [c|] eqn:Hc; [|discriminate].
    destruct (requests s !! id) as [r|] eqn:Hr; [|discriminate]. cbn in Hstep.
    destruct (timeout r) as [| |t] eqn:Ht; try discriminate.
    destruct (_called t || cleared t); [discriminate|]. injection Hstep as <-.
    destruct (topLevel_frame (fireTimer id r t c) s) as (-> & -> & Htop). rewrite Htop.
    pose proof (fireTimer_eff id r t c s Hr Ht) as [[Hothers _] _].
    destruct (Hothers rid (not_eq_sym Hne)) as (Hr' & Hs & Hc').
    split; [exact Hr'|]. split; [exact Hs|exact Hc'].
Qed.

Lemma TimerFires_disabled_ext rid s s' :
  contexts s' !! rid = contexts s !! rid ->
  requests s' !! rid = requests s !! rid ->
  step (TimerFires rid) s = None -> step (TimerFires rid) s' = None.
Proof.
  intros Hc Hr. cbn [step]. rewrite Hc, Hr.
  destruct (contexts s !! rid); [|reflexivity].
  destruct (requests s !! rid) as [r|]; [|reflexivity]. cbn.
  destruct (timeout r) as [| |t]; try reflexivity.
  destruct (_called t || cleared t); [reflexivity|discriminate].
Qed.

Lemma TimerFires_disabled_dead rid s r :
  requests s !! rid = Some r -> timerLive (timeout r) = false ->
  step (TimerFires rid) s = None.
Proof.
  intros Hr Hdead. cbn [step]. rewrite Hr.
  destruct (contexts s !! rid); [|reflexivity]. cbn.
  destruct (timeout r) as [| |t]; try reflexivity. cbn [timerLive] in Hdead.
  rewrite <- negb_orb in Hdead. apply negb_false_iff in Hdead. rewrite Hdead. reflexivity.
Qed.

Lemma TimerFires_disabled_unknown rid s :
  requests s !! rid = None -> step (TimerFires rid) s = None.
Proof.
  intros Hr. cbn [step]. rewrite Hr. destruct (contexts s !! rid); reflexivity.
Qed.

(** Once its callback was called or its timer has fired, the timer of a
    request cannot fire. *)
Lemma step_disables_timer rid e s s' :
  ownContexts s -> settles rid e -> step e s = Some s' ->
  step (TimerFires rid) s' = None.
Proof.
  intros Hown Hset Hstep. destruct e as [i inv|id err data|id]; cbn [settles] in Hset;
    [contradiction|subst id..].
  - cbn [step] in Hstep.
    destruct (contexts s !! rid) as [c|] eqn:Hc; [|discriminate]. injection Hstep as <-.
    pose proof (Hown _ _ Hc) as Hid.
    destruct (topLevel_frame (callback c err data) s) as (Htop & _ & _).
    destruct (requests s !! rid) as [r|] eqn:Hr.
    + rewrite <- Hid in Hr. destruct (timerCalled (timeout r)) eqn:Hcalled.
      * apply (TimerFires_disabled_dead rid _ r).
        -- rewrite Htop, (callback_fired _ _ _ _ _ Hr Hcalled). rewrite <- Hid. exact Hr.
        -- destruct (timeout r) as [| |t]; try reflexivity. cbn in *. rewrite Hcalled.
           reflexivity.
      * destruct (done r) eqn:Hdone.
        -- apply (TimerFires_disabled_dead rid _ (clearedState r)).
           ++ rewrite Htop, (callback_done _ _ _ _ _ Hr Hcalled Hdone).
              cbn [snd requests withOutput withRequests]. rewrite Hid.
              apply lookup_insert_eq.
           ++ apply timerLive_clearedSlot.
        -- apply (TimerFires_disabled_dead rid _ (completedState r)).
           ++ rewrite Htop, (callback_pending _ _ _ _ _ Hr Hcalled Hdone).
              destruct (respond_after c err data
                          (withRequests (<[ctxRequestId c := completedState r]> (requests s)) s))
                as (-> & _).
              cbn [requests withRequests]. rewrite Hid. apply lookup_insert_eq.
           ++ apply timerLive_clearedSlot.
    + apply TimerFires_disabled_unknown.
      rewrite <- Hid in Hr. rewrite Htop, (callback_unknown _ _ _ _ Hr). cbn [snd].
      rewrite Hid in Hr. exact Hr.
  - pose proof Hstep as Hstep'. cbn [step] in Hstep.
    destruct (contexts s !! rid) as [c|] eqn:Hc; [|discriminate].
    destruct (requests s !! rid) as [r|] eqn:Hr; [|discriminate]. cbn in Hstep.
    destruct (timeout r) as [| |t] eqn:Ht; try discriminate.
    destruct (_called t || cleared t) eqn:Hlive; [discriminate|].
    apply orb_false_iff in Hlive as [Hcalled Hcleared]. clear Hstep.
    destruct (decide (currentRequestId s = Some rid)) as [Hcur|Hcur].
    + destruct (step_TimerFires_current rid s c r t Hc Hr Ht Hcalled Hcleared Hcur)
        as (s1 & Hs1 & Hr1 & _).
      rewrite Hs1 in Hstep'. injection Hstep' as <-.
      apply (TimerFires_disabled_dead rid _ _ Hr1). reflexivity.
    + rewrite (step_TimerFires_stale rid s c r t Hc Hr Ht Hcalled Hcleared Hcur) in Hstep'.
      injection Hstep' as <-.
      apply (TimerFires_disabled_dead rid _ (firedState (done r) t)); [|reflexivity].
      cbn [requests withRequests]. apply lookup_insert_eq.
Qed.

(** A timer that cannot fire stays so until a request arrives under the
    same id. *)
Lemma step_keeps_timer_disabled rid e s s' :
  ownContexts s ->
  step (TimerFires rid) s = None ->
  match e with Arrival _ inv => invRequestId inv <> rid | _ => True end ->
  step e s = Some s' ->
  step (TimerFires rid) s' = None /\ e <> TimerFires rid.
Proof.
  intros Hown Hoff Hnew Hstep.
  assert (Hne : e <> TimerFires rid) by (intros ->; congruence).
  split; [|exact Hne].
  destruct (decide (subject e = rid)) as [Hsub|Hsub].
  - apply (step_disables_timer rid e s s' Hown); [|exact Hstep].
    destruct e as [i inv|id err data|id]; cbn [subject settles] in *;
      [contradiction|exact Hsub..].
  - destruct (step_leaves_others e s s' rid Hown Hstep Hsub) as (Hr & _ & Hc).
    exact (TimerFires_disabled_ext rid s s' Hc Hr Hoff).
Qed.

Lemma run_keeps_timer_disabled rid es : forall s s',
  ownContexts s ->
  step (TimerFires rid) s = None ->
  ~ In rid (arrivalIds es) ->
  run es s = Some s' ->
  step (TimerFires rid) s' = None /\ ~ In (TimerFires rid) es.
Proof.
  induction es as [|e es IH]; intros s s' Hown Hoff Hnew; cbn [run].
  - intros [= <-]. split; [exact Hoff|intros []].
  - destruct (step e s) as [s1|] eqn:Hstep; [|discriminate]. cbn. intros Hrun.
    assert (He : match e with Arrival _ inv => invRequestId inv <> rid | _ => True end).
    { destruct e as [i inv| |]; try exact I. intros Hid. apply Hnew. left. exact Hid. }
    destruct (step_keeps_timer_disabled rid e s s1 Hown Hoff He Hstep) as [Hoff1 Hne].
    assert (Hnew1 : ~ In rid (arrivalIds es)).
    { intros Hin. apply Hnew. destruct e as [i inv| |]; cbn; [right|..]; exact Hin. }
    destruct (IH s1 s' (step_keeps ownContexts e s s1 HandlerProof_ownContexts Hown Hstep)
                Hoff1 Hnew1 Hrun) as [Hoff' Hnot].
    split; [exact Hoff'|]. intros [Heq|Hin]; [exact (Hne Heq)|exact (Hnot Hin)].
Qed.

(** X7. From the start of the plugin: once the timer of a request has fired
    or its callback was called, whatever events follow, the timer of that
    request does not fire (again), as long as no request arrives under the
    same id. A timer fires at most once, and never after a completion. *)
Theorem timer_never_fires_after_settling (o : Options) (sv : Service)
    (es0 : list Event) (s : Offline) (rid : string) (e : Event) (s1 : Offline)
    (es : list Event) (s2 : Offline) :
  run es0 (snd (_createRoutes (emptyOffline o sv))) = Some s ->
  settles rid e ->
  step e s = Some s1 ->
  ~ In rid (arrivalIds es) ->
  run es s1 = Some s2 ->
  ~ In (TimerFires rid) es /\ step (TimerFires rid) s2 = None.
Proof.
  intros Hreach Hset Hstep Hnew Hrun.
  pose proof (reachable_ownContexts o sv es0 s Hreach) as Hown.
  pose proof (step_disables_timer rid e s s1 Hown Hset Hstep) as Hoff.
  pose proof (step_keeps ownContexts e s s1 HandlerProof_ownContexts Hown Hstep) as Hown1.
  destruct (run_keeps_timer_disabled rid es s1 s2 Hown1 Hoff Hnew Hrun) as [Hoff2 Hnot].
  split; [exact Hnot|exact Hoff2].
Qed.

Lemma run_leaves_others rid es : forall s s',
  ownContexts s ->
  Forall (fun e => subject e <> rid) es ->
  run es s = Some s' ->
  requests s' !! rid = requests s !! rid
  /\ sent rid s' = sent rid s
  /\ contexts s' !! rid = contexts s !! rid.
Proof.
  induction es as [|e es IH]; intros s s' Hown Hes; cbn [run].
  - intros [= <-]. repeat split; reflexivity.
  - destruct (step e s) as [s1|] eqn:Hstep; [|discriminate]. cbn. intros Hrun.
    apply Forall_cons in Hes as [He Hes].
    destruct (step_leaves_others e s s1 rid Hown Hstep He) as (Hr & Hs & Hc).
    destruct (IH s1 s' (step_keeps ownContexts e s s1 HandlerProof_ownContexts Hown Hstep)
                Hes Hrun) as (Hr' & Hs' & Hc').
    rewrite Hr', Hs', Hc'. split; [exact Hr|]. split; [exact Hs|exact Hc].
Qed.

(** X8. From the start of the plugin: events on behalf of other requests,
    their arrivals, completions and timers, leave the entry of a request,
    the responses sent for it and its callback as they are. *)
Theorem events_leave_other_requests (o : Options) (sv : Service) (es0 : list Event)
    (s : Offline) (rid : string) (es : list Event) (s' : Offline) :
  run es0 (snd (_createRoutes (emptyOffline o sv))) = Some s ->
  Forall (fun e => subject e <> rid) es ->
  run es s = Some s' ->
  requests s' !! rid = requests s !! rid
  /\ sent rid s' = sent rid s
  /\ contexts s' !! rid = contexts s !! rid.
Proof.
  intros Hreach Hes Hrun.
  exact (run_leaves_others rid es s s' (reachable_ownContexts o sv es0 s Hreach) Hes Hrun).
Qed.

Lemma terminal_timer_dead r : Completed r \/ TimedOut r -> timerLive (timeout r) = false.
Proof.
  intros [(_ & _ & Hdead)|(_ & Hcalled)]; [exact Hdead|].
  destruct (timeout r) as [| |t]; try reflexivity. cbn in *. rewrite Hcalled. reflexivity.
Qed.

Lemma step_terminal rid r e s s' :
  ownContexts s ->
  requests s !! rid = Some r -> Completed r \/ TimedOut r ->
  match e with Arrival _ inv => invRequestId inv <> rid | _ => True end ->
  step e s = Some s' ->
  requests s' !! rid = Some r /\ sent rid s' = sent rid s.
Proof.
  intros Hown Hr Hterm Hnew Hstep.
  destruct (decide (subject e = rid)) as [Hsub|Hsub].
  - destruct e as [i inv|id err data|id]; cbn [subject] in Hsub; [contradiction|subst id..].
    + cbn [step] in Hstep.
      destruct (contexts s !! rid) as [c|] eqn:Hc; [|discriminate]. injection Hstep as <-.
      pose proof (Hown _ _ Hc) as Hid. rewrite <- Hid in Hr.
      destruct (topLevel_frame (callback c err data) s) as (-> & _ & ->).
      destruct Hterm as [Hcompleted|(_ & Hcalled)].
      * rewrite (callback_completed _ _ _ _ _ Hr Hcompleted). cbn [snd].
        rewrite sent_withOutput_app. cbn [requests withOutput]. rewrite <- Hid.
        split; [exact Hr|apply app_nil_r].
      * rewrite (callback_fired _ _ _ _ _ Hr Hcalled). cbn [snd]. rewrite <- Hid.
        split; [exact Hr|reflexivity].
    + rewrite (TimerFires_disabled_dead rid s r Hr (terminal_timer_dead r Hterm)) in Hstep.
      discriminate.
  - destruct (step_leaves_others e s s' rid Hown Hstep Hsub) as (-> & -> & _).
    split; [exact Hr|reflexivity].
Qed.

(** X9. From the start of the plugin: a request whose state is terminal,
    completed or timed out, stays as it is whatever events follow, as long
    as no request arrives under the same id; its entry does not change
    and no further response is sent for it. *)
Theorem terminal_request_is_settled (o : Options) (sv : Service) (es0 : list Event)
    (s : Offline) (rid : string) (r : RequestState) (es : list Event) (s' : Offline) :
  run es0 (snd (_createRoutes (emptyOffline o sv))) = Some s ->
  requests s !! rid = Some r ->
  Completed r \/ TimedOut r ->
  ~ In rid (arrivalIds es) ->
  run es s = Some s' ->
  requests s' !! rid = Some r /\ sent rid s' = sent rid s.
Proof.
  intros Hreach. pose proof (reachable_ownContexts o sv es0 s Hreach) as Hown.
  clear Hreach. revert s s' Hown.
  induction es as [|e es IH]; intros s s' Hown Hr Hterm Hnew; cbn [run].
  - intros [= <-]. split; [exact Hr|reflexivity].
  - destruct (step e s) as [s1|] eqn:Hstep; [|discriminate]. cbn. intros Hrun.
    assert (He : match e with Arrival _ inv => invRequestId inv <> rid | _ => True end).
    { destruct e as [i inv| |]; try exact I. intros Hid. apply Hnew. left. exact Hid. }
    assert (Hnew1 : ~ In rid (arrivalIds es)).
    { intros Hin. apply Hnew. destruct e as [i inv| |]; cbn; [right|..]; exact Hin. }
    destruct (step_terminal rid r e s s1 Hown Hr Hterm He Hstep) as [Hr1 Hs1].
    destruct (IH s1 s' (step_keeps ownContexts e s s1 HandlerProof_ownContexts Hown Hstep)
                Hr1 Hterm Hnew1 Hrun) as [Hr' Hs'].
    split; [exact Hr'|]. rewrite Hs'. exact Hs1.
Qed.

End Callbacks.

Lemma timer_never_fires_after_settling_witness :
  let boot := booted false (sampleEndpoint "/hello" []) in
  let s := default boot (run (H := sampleEnv) [pendingArrival "1"] boot) in
  let s1 := default s (step (H := sampleEnv) (TimerFires "1") s) in
  let es := [pendingArrival "2"; Completion "1" ErrNullish (JStr "late")] in
  let s2 := default s1 (run (H := sampleEnv) es s1) in
  ~ In (TimerFires "1") es /\ step (H := sampleEnv) (TimerFires "1") s2 = None.
Proof.
  intros boot s s1 es s2.
  apply (timer_never_fires_after_settling (H := sampleEnv) (_setOptions None false)
           (sampleService (sampleEndpoint "/hello" [])) [pendingArrival "1"] s "1"
           (TimerFires "1") s1 es s2).
  - vm_compute. reflexivity.
  - reflexivity.
  - vm_compute. reflexivity.
  - vm_compute. intros [Heq|[]]. discriminate Heq.
  - vm_compute. reflexivity.
Defined.

Lemma events_leave_other_requests_witness :
  let boot := booted false (sampleEndpoint "/hello" []) in
  let s := default boot (run (H := sampleEnv) [pendingArrival "1"] boot) in
  let es := [pendingArrival "2"; Completion "2" ErrNullish (JStr "ok")] in
  let s' := default s (run (H := sampleEnv) es s) in
  requests s' !! "1" = requests s !! "1"
  /\ sent "1" s' = sent "1" s
  /\ contexts s' !! "1" = contexts s !! "1".
Proof.
  intros boot s es s'.
  apply (events_leave_other_requests (H := sampleEnv) (_setOptions None false)
           (sampleService (sampleEndpoint "/hello" [])) [pendingArrival "1"] s "1" es s').
  - vm_compute. reflexivity.
  - repeat (constructor; [vm_compute; discriminate|]). constructor.
  - vm_compute. reflexivity.
Defined.

Lemma terminal_request_is_settled_witness :
  let boot := booted false (sampleEndpoint "/hello" []) in
  let s := default boot
             (run (H := sampleEnv) [pendingArrival "1"; Completion "1" ErrNullish (JStr "ok")]
                boot) in
  let es := [Completion "1" ErrNullish (JStr "again"); pendingArrival "2"; TimerFires "2";
             Completion "1" (ErrString "late") JNull] in
  let s' := default s (run (H := sampleEnv) es s) in
  requests s' !! "1" = Some (completedState {| done := false;
                                               timeout := TimeoutTimer (newTimer 1000) |})
  /\ sent "1" s' = sent "1" s.
Proof.
  intros boot s es s'.
  apply (terminal_request_is_settled (H := sampleEnv) (_setOptions None false)
           (sampleService (sampleEndpoint "/hello" []))
           [pendingArrival "1"; Completion "1" ErrNullish (JStr "ok")] s "1" _ es s').
  - vm_compute. reflexivity.
  - vm_compute. reflexivity.
  - left. vm_compute. repeat split; reflexivity.
  - vm_compute. intros [Heq|[]]. discriminate Heq.
  - vm_compute. reflexivity.
Defined.

(** ** The request table and the most recent request *)

Section RequestTable.
Context `{JsEnv}.

Lemma topLevel_current (m : M unit) s :
  currentRequestId (topLevel m s) = currentRequestId (snd (m s)).
Proof. unfold topLevel. destruct (m s) as [[a|e|] s1]; reflexivity. Qed.

Lemma step_requests e s s' rid :
  step e s = Some s' ->
  (requests s' !! rid = None
   <-> requests s !! rid = None
       /\ match e with Arrival _ inv => invRequestId inv <> rid | _ => True end)
  /\ currentRequestId s'
     = match e with
       | Arrival _ inv => Some (invRequestId inv)
       | _ => currentRequestId s
       end.
Proof.
  intros Hstep. destruct e as [i inv|id err data|id]; cbn [step] in Hstep.
  - destruct (routes s !! i) as [route|]; [|discriminate]. injection Hstep as <-.
    destruct (topLevel_frame (routeHandler i route inv) s) as (-> & _ & _).
    rewrite topLevel_current.
    destruct (routeHandler_effArrival i route inv s) as ([Hothers _] & Hcur & _).
    split; [|exact Hcur].
    destruct (decide (invRequestId inv = rid)) as [<-|Hne].
    + split; [|intros [_ []]; reflexivity]. intros Hnone. exfalso.
      destruct (beginRequest_run i route inv s) as (s1 & Hbegin & Hreq & _).
      assert (Hs1 : is_Some (requests s1 !! invRequestId inv))
        by (rewrite Hreq, lookup_insert_eq; eauto).
      destruct (invokeHandler_effArrival route inv s1) as (_ & _ & _ & Hkept).
      apply Hkept in Hs1. unfold routeHandler in Hnone.
      rewrite (bind_Ret _ _ _ _ _ Hbegin) in Hnone. rewrite Hnone in Hs1.
      destruct Hs1 as [? [=]].
    + destruct (Hothers rid (not_eq_sym Hne)) as (-> & _). tauto.
  - destruct (contexts s !! id) as [c|]; [|discriminate]. injection Hstep as <-.
    destruct (topLevel_frame (callback c err data) s) as (-> & _ & _).
    rewrite topLevel_current.
    destruct (callback_eff c err data s) as ([Hothers _] & _ & Hcur & _ & Hknown).
    split; [|exact Hcur].
    destruct (decide (ctxRequestId c = rid)) as [<-|Hne]; [tauto|].
    destruct (Hothers rid (not_eq_sym Hne)) as (-> & _). tauto.
  - destruct (contexts s !! id) as [c|]; [|discriminate].
    destruct (requests s !! id) as [r|] eqn:Hr; [|discriminate]. cbn in Hstep.
    destruct (timeout r) as [| |t] eqn:Ht; try discriminate.
    destruct (_called t || cleared t); [discriminate|]. injection Hstep as <-.
    destruct (topLevel_frame (fireTimer id r t c) s) as (-> & _ & _).
    rewrite topLevel_current.
    destruct (fireTimer_eff id r t c s Hr Ht) as ([Hothers _] & _ & Hcur & _ & Hknown).
    split; [|exact Hcur].
    destruct (decide (id = rid)) as [<-|Hne]; [tauto|].
    destruct (Hothers rid (not_eq_sym Hne)) as (-> & _). tauto.
Qed.

Lemma arrivalIds_Arrival i inv es :
  arrivalIds (Arrival i inv :: es) = invRequestId inv :: arrivalIds es.
Proof. reflexivity. Qed.

(** X10. Over any events, [this.requests] only grows: after them it holds
    exactly the ids it held before and the ids under which a request has
    arrived; no entry is ever removed, whether the request was answered
    or not. And [this.currentRequestId] is the id of the last request that
    arrived. *)
Theorem requests_only_grow (es : list Event) (s s' : Offline) (rid : string) :
  run es s = Some s' ->
  (requests s' !! rid = None <-> requests s !! rid = None /\ ~ In rid (arrivalIds es))
  /\ currentRequestId s'
     = match last (arrivalIds es) with
       | Some id => Some id
       | None => currentRequestId s
       end.
Proof.
  revert s. induction es as [|e es IH]; intros s; cbn [run].
  - intros [= <-]. cbn. tauto.
  - destruct (step e s) as [s1|] eqn:Hstep; [|discriminate].
    cbn [mbind option_bind]. intros Hrun.
    destruct (step_requests e s s1 rid Hstep) as [Hreq Hcur].
    destruct (IH s1 Hrun) as [Hreq' Hcur']. split.
    + rewrite Hreq', Hreq. destruct e as [i inv| |]; [rewrite arrivalIds_Arrival|..];
        cbn; tauto.
    + destruct e as [i inv| |]; [|rewrite Hcur', Hcur; reflexivity..].
      rewrite arrivalIds_Arrival, last_cons, Hcur', Hcur.
      destruct (last (arrivalIds es)); reflexivity.
Qed.

End RequestTable.

Lemma requests_only_grow_witness :
  let s := booted false (sampleEndpoint "/hello" []) in
  let es := [pendingArrival "1"; pendingArrival "2"; TimerFires "1";
             Completion "2" ErrNullish (JStr "ok")] in
  let s' := default s (run (H := sampleEnv) es s) in
  (requests s' !! "1" = None <-> requests s !! "1" = None /\ ~ In "1" (arrivalIds es))
  /\ currentRequestId s'
     = match last (arrivalIds es) with
       | Some id => Some id
       | None => currentRequestId s
       end.
Proof.
  intros s es s'.
  apply (requests_only_grow (H := sampleEnv) es s s' "1").
  vm_compute. reflexivity.
Defined.

(** ** The message, the type and the stack of an error *)

(** What the failure block reads off [err]: nothing when [err] is falsy;
    otherwise [err.message] when that is truthy and [err.toString()] when
    not, the name of the constructor, and the stack, which only objects
    have. *)
Lemma error_shape (err : ErrValue) :
  match err with
    | ErrObject ctor name message stack =>
        Some (if Js.truthy message then message else name, ctor, stack)
    | ErrPlain ctor text message stack =>
        Some (if Js.truthy message then message else text, ctor, stack)
    | ErrString str => if Js.truthy str then Some (str, "String", None) else None
    | ErrNumber repr =>
        if bool_decide (repr = "0") || bool_decide (repr = "NaN") then None
        else Some (repr, "Number", None)
    | ErrBool true => Some ("true", "Boolean", None)
    | ErrBool false | ErrNullish => None
    end
  = if errTruthy err
    then match errorTypeOf err, errStack err with
         | Ret ty, Ret stack => Some (errorMessageOf err, ty, stack)
         | _, _ => None
         end
    else None.
Proof.
  destruct err as [ctor name message st|str| |repr|[]|ctor text message st]; cbn;
    try reflexivity.
  - destruct message, name; reflexivity.
  - destruct (bool_decide (repr = "0")), (bool_decide (repr = "NaN")); reflexivity.
Qed.

Lemma error_shape_some err msg ty stack :
  match err with
    | ErrObject ctor name message stack =>
        Some (if Js.truthy message then message else name, ctor, stack)
    | ErrPlain ctor text message stack =>
        Some (if Js.truthy message then message else text, ctor, stack)
    | ErrString str => if Js.truthy str then Some (str, "String", None) else None
    | ErrNumber repr =>
        if bool_decide (repr = "0") || bool_decide (repr = "NaN") then None
        else Some (repr, "Number", None)
    | ErrBool true => Some ("true", "Boolean", None)
    | ErrBool false | ErrNullish => None
    end = Some (msg, ty, stack) ->
  errTruthy err = true /\ msg = errorMessageOf err
  /\ errorTypeOf err = Ret ty /\ errStack err = Ret stack.
Proof.
  rewrite error_shape. destruct (errTruthy err); [|discriminate].
  destruct (errorTypeOf err) as [ty'|e|]; try discriminate.
  destruct (errStack err) as [stack'|e|]; try discriminate.
  intros [= <- <- <-]. repeat split.
Qed.

Lemma resultFor_shape err data :
  resultFor err data
  = match match err with
    | ErrObject ctor name message stack =>
        Some (if Js.truthy message then message else name, ctor, stack)
    | ErrPlain ctor text message stack =>
        Some (if Js.truthy message then message else text, ctor, stack)
    | ErrString str => if Js.truthy str then Some (str, "String", None) else None
    | ErrNumber repr =>
        if bool_decide (repr = "0") || bool_decide (repr = "NaN") then None
        else Some (repr, "Number", None)
    | ErrBool true => Some ("true", "Boolean", None)
    | ErrBool false | ErrNullish => None
    end with
    | Some (msg, ty, stack) =>
        JObj [("errorMessage", JStr msg); ("errorType", JStr ty);
                ("stackTrace", match _getArrayStackTrace stack with
                               | Some lines => JArr (map JStr lines)
                               | None => JNull
                               end)]
    | None => data
    end.
Proof.
  rewrite error_shape. unfold resultFor. destruct (errTruthy err); [|reflexivity].
  destruct (errorTypeOf err) as [ty|e|]; try reflexivity.
  destruct (errStack err) as [stack|e|]; reflexivity.
Qed.

(** ** A selection pattern that is not a regular expression *)

Section InvalidPattern.
Context `{JsEnv}.

Lemma selectResponse_invalid msg pre key rule post :
  Forall (passedOver msg) pre ->
  key <> "default" ->
  regexpSearch ("^" +:+ patternOf key rule +:+ "$") msg = None ->
  exists text, selectResponse msg (pre ++ (key, rule) :: post) = Throw (SyntaxError text).
Proof.
  intros Hpre Hkey Hbad.
  induction Hpre as [|[k r] rest Hhead _ IH]; cbn [app selectResponse].
  - rewrite bool_decide_eq_false_2 by exact Hkey.
    unfold matchesRule. rewrite Hbad. eexists. reflexivity.
  - destruct Hhead as [Hd|Hno]; cbn [fst snd] in *.
    + rewrite bool_decide_eq_true_2 by exact Hd. exact IH.
    + case_bool_decide; [exact IH|]. unfold matchesRule. rewrite Hno. exact IH.
Qed.

Lemma failureHandling_throw endpoint err ty stack rs e s :
  errorTypeOf err = Ret ty ->
  errStack err = Ret stack ->
  responses endpoint = Some rs ->
  selectResponse (errorMessageOf err) rs = Throw e ->
  failureHandling endpoint err s
  = (Throw e,
     withOutput (output s ++ failureLines (errorMessageOf err) (_getArrayStackTrace stack)) s).
Proof.
  intros Hty Hstack Hrs Hsel. unfold failureHandling, failureLines.
  rewrite Hty, Hstack, Hrs, Hsel.
  unfold serverlessLog, emit, modify, lift, bind, ret. cbn.
  destruct (_getArrayStackTrace stack) as [lines|]; cbn; rewrite <- ?app_assoc; reflexivity.
Qed.

Lemma Completed_completedState r :
  timerCalled (timeout r) = false -> Completed (completedState r).
Proof.
  intros Hcalled. split; [reflexivity|]. cbn [timeout completedState].
  rewrite timerCalled_clearedSlot, timerLive_clearedSlot. split; [exact Hcalled|reflexivity].
Qed.

(** X11. A failure on a pending request, with message [msg] and stack
    [stack], whose endpoint has, before any rule that matches, a rule whose
    anchored pattern is not a regular expression: building the [RegExp]
    throws a [SyntaxError] out of the callback. By then the request is
    marked done and its timer is cleared, the line [Failure: msg] and the
    stack trace, when there is one, are printed, and no response is
    sent. *)
Theorem invalid_pattern_aborts_callback (c : Ctx) (err : ErrValue) (data : JsValue)
    (s : Offline) (r : RequestState) (pre : list (string * ResponseRule)) (key : string)
    (rule : ResponseRule) (post : list (string * ResponseRule))
    (msg ty : string) (stack : option string) :
  requests s !! ctxRequestId c = Some r ->
  Pending r ->
  match err with
    | ErrObject ctor name message stack =>
        Some (if Js.truthy message then message else name, ctor, stack)
    | ErrPlain ctor text message stack =>
        Some (if Js.truthy message then message else text, ctor, stack)
    | ErrString str => if Js.truthy str then Some (str, "String", None) else None
    | ErrNumber repr =>
        if bool_decide (repr = "0") || bool_decide (repr = "NaN") then None
        else Some (repr, "Number", None)
    | ErrBool true => Some ("true", "Boolean", None)
    | ErrBool false | ErrNullish => None
    end = Some (msg, ty, stack) ->
  responses (ctxEndpoint c) = Some (pre ++ (key, rule) :: post) ->
  Forall (passedOver msg) pre ->
  key <> "default" ->
  regexpSearch ("^" +:+ patternOf key rule +:+ "$") msg = None ->
  exists text,
    callback c err data s
    = (Throw (SyntaxError text),
       withOutput (output s
                   ++ Log ("Failure: " +:+ msg)
                      :: match _getArrayStackTrace stack with
                         | Some lines => [Console (Js.join (nl +:+ "  ") lines)]
                         | None => []
                         end)
         (withRequests (<[ctxRequestId c := completedState r]> (requests s)) s))
    /\ Completed (completedState r)
    /\ forall rid, sent rid (snd (callback c err data s)) = sent rid s.
Proof.
  intros Hr [Hdone Hcalled] Hshape Hrs Hpre Hkey Hbad.
  destruct (error_shape_some _ _ _ _ Hshape) as (Herr & -> & Hty & Hstack).
  destruct (selectResponse_invalid _ pre key rule post Hpre Hkey Hbad) as [text Hsel].
  exists text.
  assert (Hrun : callback c err data s
          = (Throw (SyntaxError text),
             withOutput (output s ++ failureLines (errorMessageOf err)
                                       (_getArrayStackTrace stack))
               (withRequests (<[ctxRequestId c := completedState r]> (requests s)) s))).
  { rewrite (callback_pending _ _ _ _ _ Hr Hcalled Hdone). unfold respond. rewrite Herr.
    rewrite (bind_Throw _ _ _ _ _
               (failureHandling_throw (ctxEndpoint c) err ty stack _ _ _ Hty Hstack Hrs Hsel)).
    reflexivity. }
  split; [exact Hrun|]. split; [apply Completed_completedState, Hcalled|].
  intros rid. rewrite Hrun. cbn [snd].
  unfold sent. cbn [output withOutput]. rewrite sentIn_app.
  rewrite (sentIn_quiet rid (failureLines _ _)); [apply app_nil_r|].
  unfold failureLines. constructor; [exact I|].
  destruct (_getArrayStackTrace stack); repeat constructor.
Qed.

End InvalidPattern.

Lemma invalid_pattern_aborts_callback_witness :
  let rules := [("default", plainRule);
                ("Oops", {| statusCode := Some 500%N; selectionPattern := Some "Oops(";
                            responseParameters := None; responseTemplates := None |})] in
  let s := pendingState false rules in
  let err := ErrPlain "Object" "[object Object]" "" None in
  exists text,
    callback (H := sampleEnv) (sampleCtx rules) err JNull s
    = (Throw (SyntaxError text),
       withOutput (output s ++ [Log "Failure: [object Object]"])
         (withRequests
            (<["42" := completedState {| done := false;
                                         timeout := TimeoutTimer (newTimer 1000) |}]>
               (requests s)) s))
    /\ Completed (completedState {| done := false; timeout := TimeoutTimer (newTimer 1000) |})
    /\ forall rid,
         sent rid (snd (callback (H := sampleEnv) (sampleCtx rules) err JNull s))
         = sent rid s.
Proof.
  intros rules s err.
  apply (invalid_pattern_aborts_callback (H := sampleEnv) (sampleCtx rules) err
           JNull s {| done := false; timeout := TimeoutTimer (newTimer 1000) |}
           [("default", plainRule)] "Oops"
           {| statusCode := Some 500%N; selectionPattern := Some "Oops(";
              responseParameters := None; responseTemplates := None |}
           [] "[object Object]" "Object" None).
  - vm_compute. reflexivity.
  - split; reflexivity.
  - reflexivity.
  - reflexivity.
  - constructor; [left; reflexivity|constructor].
  - discriminate.
  - vm_compute. reflexivity.
Defined.

(** ** An endpoint without responses *)

Section NoResponses.
Context `{JsEnv}.

Lemma resultFor_run endpoint err data s :
  responses endpoint = None ->
  exists new,
    Forall notSend new
    /\ (if errTruthy err then failureHandling endpoint err else ret (data, "default")) s
       = (Ret (resultFor err data, "default"), withOutput (output s ++ new) s).
Proof.
  intros Hrs. unfold resultFor. destruct (errTruthy err) eqn:Herr.
  - destruct (truthy_error_fields err Herr) as (ty & stack & Hty & Hstack).
    exists (failureLines (errorMessageOf err) (_getArrayStackTrace stack)).
    split.
    + unfold failureLines. constructor; [exact I|].
      destruct (_getArrayStackTrace stack); repeat constructor.
    + rewrite Hty, Hstack.
      apply failureHandling_run; [exact Hty|exact Hstack|]. rewrite Hrs. reflexivity.
  - exists []. split; [constructor|].
    unfold ret. rewrite app_nil_r. destruct s; reflexivity.
Qed.

Lemma no_responses_run c err data s r :
  requests s !! ctxRequestId c = Some r ->
  Pending r ->
  responses (ctxEndpoint c) = None ->
  exists new,
    Forall notSend new
    /\ let result := resultFor err data in
       let resp := finalResponse None result defaultContentType
                     (heldResponse (ctxRequestId c) s) in
       callback c err data s
       = (Ret tt,
          withOutput (output s ++ new ++ closingLines None "default" err result
                      ++ [Send (ctxRequestId c) resp])
            (withHeld (<[ctxRequestId c := resp]> (held s))
               (withRequests (<[ctxRequestId c := completedState r]> (requests s)) s))).
Proof.
  intros Hr [Hdone Hcalled] Hrs.
  set (s0 := withRequests (<[ctxRequestId c := completedState r]> (requests s)) s).
  destruct (resultFor_run (ctxEndpoint c) err data s0 Hrs) as (new & Hnew & Hsel).
  set (result := resultFor err data) in *.
  set (s1 := withOutput (output s0 ++ new) s0) in *.
  assert (Hchosen : responses (ctxEndpoint c) ≫= assocGet "default" = None)
    by (rewrite Hrs; reflexivity).
  pose proof (respond_run c err data s0 result "default" s1 s1 result defaultContentType s1
                Hsel (no_parameters_run _ _ _ _ (f_equal (fun o => o ≫= responseParameters) Hchosen))
                (no_templates_run _ _ _ _ (f_equal (fun o => o ≫= responseTemplates) Hchosen)))
    as Hrun.
  cbv zeta in Hrun. rewrite Hchosen in Hrun.
  exists new. split; [exact Hnew|]. cbv zeta.
  rewrite (callback_pending _ _ _ _ _ Hr Hcalled Hdone). fold s0. rewrite Hrun.
  subst s1 s0. unfold heldResponse. cbn [output held withOutput withRequests].
  rewrite <- app_assoc. reflexivity.
Qed.

Lemma closingLines_quiet chosen name err result :
  Forall notSend (closingLines chosen name err result).
Proof.
  unfold closingLines. destruct (configuredStatusCode chosen); cbn; repeat constructor.
Qed.

(** X12. For an endpoint without [responses], which every endpoint given in
    the short form is, a call of the callback on a pending request, success
    or failure, sends one response with status 200. Its body is the data
    when [err] is falsy, and otherwise the object
    [{errorMessage, errorType, stackTrace}] made of the message, the
    constructor name and the stack trace of [err]; the content type is
    [application/json] unless the response already has one, and the
    missing status code is warned about. *)
Theorem no_responses_replies_200 (c : Ctx) (err : ErrValue) (data : JsValue) (s : Offline)
    (r : RequestState) :
  requests s !! ctxRequestId c = Some r ->
  Pending r ->
  responses (ctxEndpoint c) = None ->
  let result :=
    match match err with
    | ErrObject ctor name message stack =>
        Some (if Js.truthy message then message else name, ctor, stack)
    | ErrPlain ctor text message stack =>
        Some (if Js.truthy message then message else text, ctor, stack)
    | ErrString str => if Js.truthy str then Some (str, "String", None) else None
    | ErrNumber repr =>
        if bool_decide (repr = "0") || bool_decide (repr = "NaN") then None
        else Some (repr, "Number", None)
    | ErrBool true => Some ("true", "Boolean", None)
    | ErrBool false | ErrNullish => None
    end with
    | Some (msg, ty, stack) =>
        JObj [("errorMessage", JStr msg); ("errorType", JStr ty);
                ("stackTrace", match _getArrayStackTrace stack with
                               | Some lines => JArr (map JStr lines)
                               | None => JNull
                               end)]
    | None => data
    end in
  exists s',
    callback c err data s = (Ret tt, s')
    /\ sent (ctxRequestId c) s'
       = sent (ctxRequestId c) s
         ++ [setSource result
               (setStatusCode 200
                  (header "Content-Type" "application/json" false
                     (heldResponse (ctxRequestId c) s)))]
    /\ In (Log ("Warning: No statusCode found for response " +:+ dq +:+ "default" +:+ dq
                +:+ ".")) (output s').
Proof.
  intros Hr Hpending Hrs result.
  destruct (no_responses_run c err data s r Hr Hpending Hrs) as (new & Hnew & Hrun).
  cbv zeta in Hrun. subst result. rewrite <- resultFor_shape.
  eexists. split; [exact Hrun|]. split.
  - unfold sent. cbn [output withOutput withHeld withRequests]. rewrite !sentIn_app.
    rewrite (sentIn_quiet (ctxRequestId c) new Hnew).
    rewrite (sentIn_quiet (ctxRequestId c) _
               (closingLines_quiet None "default" err (resultFor err data))).
    rewrite sentIn_send. cbn [app]. reflexivity.
  - cbn [output withOutput withHeld withRequests]. apply in_or_app. right.
    apply in_or_app. right. apply in_or_app. left.
    unfold closingLines. cbn. right. left. reflexivity.
Qed.

End NoResponses.

Lemma no_responses_replies_200_witness :
  let c := {| ctxFunName := "hello"; ctxFunTimeout := 1000;
              ctxEndpoint := endpointOfString "GET /hello"; ctxRequest := sampleRequest;
              ctxRequestId := "42" |} in
  let s := pendingState false [] in
  exists s',
    callback (H := sampleEnv) c (ErrPlain "Object" "[object Object]" "" None) JNull s
    = (Ret tt, s')
    /\ sent "42" s'
       = sent "42" s
         ++ [setSource (JObj [("errorMessage", JStr "[object Object]");
                              ("errorType", JStr "Object"); ("stackTrace", JNull)])
               (setStatusCode 200
                  (header "Content-Type" "application/json" false (heldResponse "42" s)))]
    /\ In (Log ("Warning: No statusCode found for response " +:+ dq +:+ "default" +:+ dq
                +:+ ".")) (output s').
Proof.
  intros c s.
  apply (no_responses_replies_200 (H := sampleEnv) c
           (ErrPlain "Object" "[object Object]" "" None) JNull s
           {| done := false; timeout := TimeoutTimer (newTimer 1000) |}).
  - vm_compute. reflexivity.
  - split; reflexivity.
  - reflexivity.
Defined.

(** ** A handler that throws after having completed *)

Section ThrowAfterCompletion.
Context `{JsEnv}.

Lemma thrown_fields e :
  e <> Uncaught ErrNullish ->
  exists ty stack,
    errorTypeOf (thrownValue e) = Ret ty /\ errStack (thrownValue e) = Ret stack.
Proof.
  intros He. destruct (error_fields (thrownValue e)) as [Hnull|Hfields]; [|exact Hfields].
  destruct e as [m|m|m|v]; try discriminate Hnull. cbn in Hnull. congruence.
Qed.

Lemma armedSlot_not_called o ms : timerCalled (armedSlot o ms) = false.
Proof. unfold armedSlot. destruct (noTimeout o); reflexivity. Qed.

(** X13. A handler that calls the callback once and then throws, on an
    endpoint without responses. The callback sends its response, status 200
    with the data or the mock of the error as the body. The [catch] around
    the handler call then hands what was thrown to [_reply500], which does
    not look at the [done] flag: unless the value thrown is [null] or
    [undefined], a second response is sent for the same request, status 200
    with [{errorMessage, errorType, stackTrace, offlineInfo}] and the
    message [Uncaught error in your '<function>' handler]. A thrown [null]
    or [undefined] makes [_reply500] itself throw a [TypeError] at
    [err.stack], and the first response stays the only one. *)
Theorem throw_after_completion_sends_twice (i : nat) (route : Route) (inv : Invocation)
    (s : Offline) (event event' : JsValue) (err : ErrValue) (data : JsValue)
    (e : JsException) :
  routes s !! i = Some route ->
  invLoad inv = None ->
  renderRequest
    (requestTemplateFor (routeEndpoint route)
       (Js.orElse (default "" (mime (invRequest inv))) defaultContentType))
    (invRequest inv) = Ret event ->
  markOffline event = Ret event' ->
  responses (routeEndpoint route) = None ->
  invHandler inv event' = {| completions := [(err, data)]; ending := Throws e |} ->
  let result :=
    match match err with
    | ErrObject ctor name message stack =>
        Some (if Js.truthy message then message else name, ctor, stack)
    | ErrPlain ctor text message stack =>
        Some (if Js.truthy message then message else text, ctor, stack)
    | ErrString str => if Js.truthy str then Some (str, "String", None) else None
    | ErrNumber repr =>
        if bool_decide (repr = "0") || bool_decide (repr = "NaN") then None
        else Some (repr, "Number", None)
    | ErrBool true => Some ("true", "Boolean", None)
    | ErrBool false | ErrNullish => None
    end with
    | Some (msg, ty, stack) =>
        JObj [("errorMessage", JStr msg); ("errorType", JStr ty);
                ("stackTrace", match _getArrayStackTrace stack with
                               | Some lines => JArr (map JStr lines)
                               | None => JNull
                               end)]
    | None => data
    end in
  exists s' first,
    step (Arrival i inv) s = Some s'
    /\ respStatusCode first = 200%N
    /\ respSource first = result
    /\ match e with
       | Uncaught ErrNullish =>
           sent (invRequestId inv) s' = sent (invRequestId inv) s ++ [first]
           /\ exists text, In (Escaped (TypeError text)) (output s')
       | _ =>
           exists ty stack second,
             errorTypeOf (thrownValue e) = Ret ty
             /\ errStack (thrownValue e) = Ret stack
             /\ sent (invRequestId inv) s' = sent (invRequestId inv) s ++ [first; second]
             /\ respStatusCode second = 200%N
             /\ respSource second
                = JObj [("errorMessage",
                         JStr ("Uncaught error in your '" +:+ routeFunName route
                               +:+ "' handler"));
                        ("errorType", JStr ty);
                        ("stackTrace", match _getArrayStackTrace stack with
                                       | Some lines => JArr (map JStr lines)
                                       | None => JNull
                                       end);
                        ("offlineInfo",
                         JStr "If you believe this is an issue with the plugin please submit it, thanks. https://github.com/dherault/serverless-offline/issues")]
       end.
Proof.
  intros Hroute Hload Hrender Hmark Hrs Hrun result.
  set (id := invRequestId inv).
  destruct (beginRequest_run i route inv s) as (s1 & Hbegin & Hreq & _ & _ & _ & _ & Hsent).
  assert (Hr1 : requests s1 !! id = Some freshState)
    by (rewrite Hreq; apply lookup_insert_eq).
  pose proof (invokeHandler_run route inv s1 freshState event event' Hload Hrender Hmark Hr1)
    as Hinvoke.
  set (A := armedState route inv freshState s1) in *.
  set (c := ctxOf route inv) in *.
  set (rA := {| done := done freshState;
                timeout := armedSlot (options s1) (funTimeout (routeFun route)) |}).
  assert (HrA : requests A !! ctxRequestId c = Some rA)
    by (subst A c; cbn [armedState requests withRequests ctxOf ctxRequestId];
        apply lookup_insert_eq).
  assert (HpA : Pending rA) by (split; [reflexivity|apply armedSlot_not_called]).
  destruct (no_responses_run c err data A rA HrA HpA Hrs) as (new & Hnew & Hcall).
  cbv zeta in Hcall. rewrite resultFor_shape in Hcall. fold result in Hcall.
  set (one := finalResponse None result defaultContentType (heldResponse (ctxRequestId c) A))
    in *.
  set (A1 := withOutput _ _) in Hcall.
  assert (Hhandler : callHandler c (invHandler inv event') A = (Throw e, A1)).
  { rewrite callHandler_unfold, Hrun. cbn [completions ending forEach fst snd].
    unfold bind at 1. rewrite Hcall. reflexivity. }
  assert (HrA1 : requests A1 !! id = Some (completedState rA))
    by (subst A1; cbn [requests withOutput withHeld withRequests]; apply lookup_insert_eq).
  assert (HcA1 : timerCalled (timeout (completedState rA)) = false)
    by (cbn [timeout completedState]; rewrite timerCalled_clearedSlot;
        apply armedSlot_not_called).
  assert (Hfirst : sent id A1 = sent id s ++ [one]).
  { subst A1 A. unfold sent.
    cbn [output withOutput withHeld withRequests armedState withContexts].
    change (ctxRequestId c) with id. clearbody one. subst id.
    rewrite !sentIn_app.
    rewrite (sentIn_quiet (invRequestId inv) _
               (closingLines_quiet None "default" err result)).
    rewrite (sentIn_quiet (invRequestId inv) new Hnew).
    rewrite sentIn_send. cbn [app].
    fold (sent (invRequestId inv) s1). rewrite Hsent. reflexivity. }
  assert (Htwo : e <> Uncaught ErrNullish ->
            exists s', step (Arrival i inv) s = Some s'
              /\ exists ty stack two,
                   errorTypeOf (thrownValue e) = Ret ty
                   /\ errStack (thrownValue e) = Ret stack
                   /\ sent id s' = sent id s ++ [one; two]
                   /\ respStatusCode two = 200%N
                   /\ respSource two
                      = errorBody ("Uncaught error in your '" +:+ routeFunName route
                                   +:+ "' handler") ty (_getArrayStackTrace stack)).
  { intros He. destruct (thrown_fields e He) as (ty & stack & Hty & Hstack).
    pose proof (_reply500_run id
                  ("Uncaught error in your '" +:+ routeFunName route +:+ "' handler")
                  (thrownValue e) A1 _ stack ty HrA1 HcA1 Hstack Hty) as Hreply.
    cbv zeta in Hreply.
    set (two := setSource _ (setStatusCode 200 (heldResponse id A1))) in Hreply.
    set (A2 := withOutput _ _) in Hreply.
    exists A2. split.
    { cbn [step]. rewrite Hroute. cbn. f_equal. unfold topLevel, routeHandler.
      rewrite (bind_Ret _ _ _ _ _ Hbegin), Hinvoke. unfold tryCatch. rewrite Hhandler.
      unfold uncaughtHandler. fold id. rewrite Hreply. reflexivity. }
    exists ty, stack, two. split; [exact Hty|]. split; [exact Hstack|]. split.
    { subst A2. unfold sent in *. cbn [output withOutput withHeld withRequests].
      rewrite sentIn_app, Hfirst.
      assert (Hlast : sentIn id
                        [Log ("Uncaught error in your '" +:+ routeFunName route +:+ "' handler");
                         traceEffect (thrownValue e) (_getArrayStackTrace stack);
                         Log "Replying error in handler"; Send id two]
                      = [two]).
      { unfold sentIn. cbn [omap]. unfold traceEffect.
        destruct (_getArrayStackTrace stack); cbn;
          rewrite bool_decide_eq_true_2 by reflexivity; reflexivity. }
      rewrite Hlast, <- app_assoc. reflexivity. }
    split; reflexivity. }
  assert (Hone : e = Uncaught ErrNullish ->
            exists s', step (Arrival i inv) s = Some s'
              /\ sent id s' = sent id s ++ [one]
              /\ exists text, In (Escaped (TypeError text)) (output s')).
  { intros ->.
    pose proof (_reply500_nullish id
                  ("Uncaught error in your '" +:+ routeFunName route +:+ "' handler")
                  A1 _ HrA1 HcA1) as Hreply.
    set (A2 := withRequests _ A1) in Hreply.
    assert (Htop : topLevel (routeHandler i route inv) s
                   = snd (emit (Escaped (TypeError "Cannot read property 'stack' of null"))
                            A2)).
    { unfold topLevel, routeHandler.
      rewrite (bind_Ret _ _ _ _ _ Hbegin), Hinvoke. unfold tryCatch. rewrite Hhandler.
      unfold uncaughtHandler. fold id. cbn [thrownValue]. rewrite Hreply. reflexivity. }
    exists (topLevel (routeHandler i route inv) s). split.
    { cbn [step]. rewrite Hroute. reflexivity. }
    rewrite Htop. subst A2. split.
    { unfold sent in *. cbn [emit modify snd output withOutput withRequests].
      rewrite sentIn_app, Hfirst. cbn. apply app_nil_r. }
    eexists. cbn [emit modify snd output withOutput withRequests].
    apply in_or_app. right. left. reflexivity. }
  assert (Hhead : respStatusCode one = 200%N /\ respSource one = result)
    by (split; reflexivity).
  clearbody one. clear Hfirst Hcall Hhandler.
  destruct e as [m|m|m|v]; [| | |destruct v];
    first [ destruct (Hone eq_refl) as (s' & Hstep & Hsent' & Hesc);
            exists s', one; split; [exact Hstep|]; split; [apply Hhead|];
            split; [apply Hhead|]; split; [exact Hsent'|exact Hesc]
          | destruct (Htwo ltac:(discriminate))
              as (s' & Hstep & ty' & st' & two & Hty & Hstack & Hsent' & Hcode & Hsrc);
            exists s', one; split; [exact Hstep|]; split; [apply Hhead|];
            split; [apply Hhead|];
            exists ty', st', two; split; [exact Hty|]; split; [exact Hstack|];
            split; [exact Hsent'|]; split; [exact Hcode|exact Hsrc] ].
Qed.

End ThrowAfterCompletion.

Lemma throw_after_completion_sends_twice_witness :
  let e := endpointOfString "GET /hello" in
  let route := {| routeMethod := "GET"; routePath := "/hello"; routeAuth := None;
                  routeFunName := "hello";
                  routeFun := {| events := [Some (HttpString "GET /hello")];
                                 funTimeout := 1000 |};
                  routeEndpoint := e; firstCall := true |} in
  let inv := sampleInvocation "42"
               (fun _ => {| completions := [(ErrNullish, JStr "ok")];
                            ending := Throws (Uncaught (ErrString "boom")) |}) in
  let s := snd (_createRoutes
                  (emptyOffline (_setOptions None false)
                     {| runtime := "nodejs";
                        functions := [("hello", routeFun route)] |})) in
  exists s' first second,
    step (H := sampleEnv) (Arrival 0 inv) s = Some s'
    /\ sent "42" s' = sent "42" s ++ [first; second]
    /\ respStatusCode first = 200%N
    /\ respSource first = JStr "ok"
    /\ respStatusCode second = 200%N
    /\ respSource second
       = JObj [("errorMessage", JStr "Uncaught error in your 'hello' handler");
               ("errorType", JStr "String");
               ("stackTrace", JNull);
               ("offlineInfo",
                JStr "If you believe this is an issue with the plugin please submit it, thanks. https://github.com/dherault/serverless-offline/issues")].
Proof.
  intros e route inv s.
  destruct (throw_after_completion_sends_twice (H := sampleEnv) 0 route inv s
              (JObj [("body", JNull)]) (JObj [("body", JNull); ("isOffline", JBool true)])
              ErrNullish (JStr "ok") (Uncaught (ErrString "boom")))
    as (s' & first & Hstep & Hcode & Hsrc & ty & stack & second & Hty & Hstack & Hsent
        & Hcode2 & Hsrc2).
  - vm_compute. reflexivity.
  - reflexivity.
  - vm_compute. reflexivity.
  - vm_compute. reflexivity.
  - reflexivity.
  - reflexivity.
  - injection Hty as <-. injection Hstack as <-.
    exists s', first, second. repeat split; assumption.
Defined.

Example thrown_null_after_completion_sends_once :
  let route := {| routeMethod := "GET"; routePath := "/hello"; routeAuth := None;
                  routeFunName := "hello";
                  routeFun := {| events := [Some (HttpString "GET /hello")];
                                 funTimeout := 1000 |};
                  routeEndpoint := endpointOfString "GET /hello"; firstCall := true |} in
  let inv := sampleInvocation "42"
               (fun _ => {| completions := [(ErrNullish, JStr "ok")];
                            ending := Throws (Uncaught ErrNullish) |}) in
  let s := snd (_createRoutes
                  (emptyOffline (_setOptions None false)
                     {| runtime := "nodejs";
                        functions := [("hello", routeFun route)] |})) in
  exists s' first,
    step (H := sampleEnv) (Arrival 0 inv) s = Some s'
    /\ sent "42" s' = [first]
    /\ respSource first = JStr "ok"
    /\ last (output s') = Some (Escaped (TypeError "Cannot read property 'stack' of null")).
Proof. vm_compute. eexists _, _. repeat split. Qed.

(** ** The notice of the first request *)

Lemma grownQuietly_emit out e s :
  notNotice e -> grownQuietly out s -> grownQuietly out (withOutput (output s ++ [e]) s).
Proof.
  intros He (new & Hout & Hnew). exists (new ++ [e]). cbn [output withOutput].
  rewrite Hout, <- app_assoc. split; [reflexivity|].
  apply Forall_app. split; [exact Hnew|]. constructor; [exact He|constructor].
Qed.

Ltac notNoticeLine :=
  repeat match goal with
         | |- context [if ?b then _ else _] => destruct b
         | |- context [match ?x with _ => _ end] => destruct x
         end;
  cbn [notNotice];
  first [ exact I
        | let Heq := fresh "Heq" in
          intros Heq;
          unfold firstCallNotice, doneTwiceWarning in Heq;
          cbn [String.append] in Heq; discriminate Heq ].

Ltac grows :=
  lazymatch goal with
  | Hs : grownQuietly ?out ?s |- grownQuietly ?out (withOutput (output ?s ++ [_]) ?s) =>
      apply grownQuietly_emit; [notNoticeLine|exact Hs]
  | Hs : grownQuietly ?out ?s |- grownQuietly ?out _ => exact Hs
  end.

Section FirstCall.
Context `{JsEnv}.

Lemma grows_callback out c err data : Preserves (grownQuietly out) (callback c err data).
Proof. keeps; grows. Qed.

Lemma grows__reply500 out rid message err :
  message <> firstCallNotice -> Preserves (grownQuietly out) (_reply500 rid message err).
Proof.
  intros Hmessage. keeps; try grows.
  apply grownQuietly_emit; [exact Hmessage|assumption].
Qed.

Lemma grows_invokeHandler out route inv :
  Preserves (grownQuietly out) (invokeHandler route inv).
Proof.
  unfold invokeHandler.
  destruct (invLoad inv); [apply grows__reply500; notNoticeLine|].
  destruct (renderRequest _ _); [|apply grows__reply500; notNoticeLine|apply Preserves_exit].
  apply Preserves_bind; [apply Preserves_lift|]. intros event.
  apply Preserves_bind; [keeps; grows|]. intros _.
  apply Preserves_bind; [keeps; grows|]. intros _.
  apply Preserves_tryCatch; [|intros e; apply grows__reply500; notNoticeLine].
  unfold callHandler. apply Preserves_bind.
  { apply Preserves_forEach. intros call. apply grows_callback. }
  intros _. destruct (ending _); [|apply Preserves_throw].
  unfold promiseSupport, lambdaContext_fail.
  apply Preserves_bind; [apply Preserves_get|]. intros s0.
  apply Preserves_bind; [keeps|]. intros r.
  destruct (_ && _); [|apply Preserves_ret].
  destruct x; first [apply Preserves_ret | apply grows_callback].
Qed.

Lemma Framed_routes (R : list Route) : Framed (fun s => routes s = R).
Proof. intros s Hs. repeat split; intros; exact Hs. Qed.

Lemma beginRequest_first_call i route inv s :
  exists s1,
    beginRequest i route inv s = (Ret tt, s1)
    /\ routes s1 = (if firstCall route then <[i := withFirstCall false route]> (routes s)
                    else routes s)
    /\ output s1
       = output s
         ++ [Console "";
             Log (routeMethod route +:+ " " +:+ reqPath (invRequest inv) +:+ " (λ: "
                  +:+ routeFunName route +:+ ")")]
         ++ (if firstCall route then [Log firstCallNotice] else []).
Proof.
  unfold beginRequest, printBlankLine, serverlessLog, emit, putRequest, setRoutes,
    setRequests, setCurrentRequestId, setHeld, modify, bind, get, ret.
  destruct (firstCall route); cbn; eexists; (split; [reflexivity|]); cbn;
    rewrite <- ?app_assoc; split; reflexivity.
Qed.

Lemma withFirstCall_id route : firstCall route = false -> withFirstCall false route = route.
Proof. destruct route; cbn. intros ->. reflexivity. Qed.

(** X15. A request clears the first-call flag of the route that serves it
    and changes no other route. Its output begins with the blank line and
    the line naming the method, the path and the function; the notice of
    the first request follows exactly when the flag was still set, and
    nothing the rest of the handling prints is that notice. *)
Theorem first_call_notice (i : nat) (route : Route) (inv : Invocation) (s s' : Offline) :
  routes s !! i = Some route ->
  step (Arrival i inv) s = Some s' ->
  routes s' = <[i := withFirstCall false route]> (routes s)
  /\ exists rest,
       output s'
       = output s
         ++ [Console "";
             Log (routeMethod route +:+ " " +:+ reqPath (invRequest inv) +:+ " (λ: "
                  +:+ routeFunName route +:+ ")")]
         ++ (if firstCall route then [Log firstCallNotice] else [])
         ++ rest
       /\ Forall notNotice rest.
Proof.
  intros Hroute. cbn [step]. rewrite Hroute. cbn. intros [= <-].
  destruct (beginRequest_first_call i route inv s) as (s1 & Hbegin & Hroutes & Hout).
  assert (Hstep : topLevel (routeHandler i route inv) s
                  = topLevel (invokeHandler route inv) s1).
  { unfold topLevel, routeHandler. rewrite (bind_Ret _ _ _ _ _ Hbegin). reflexivity. }
  rewrite Hstep. split.
  - assert (Hkept : routes (topLevel (invokeHandler route inv) s1) = routes s1).
    { apply (Preserves_topLevel (fun s0 => routes s0 = routes s1) (Framed_routes _));
        [|reflexivity].
      apply (Preserves_invokeHandler _ (Framed_routes _)). intros s0 Hs0. exact Hs0. }
    rewrite Hkept, Hroutes. destruct (firstCall route) eqn:Hfirst; [reflexivity|].
    rewrite (withFirstCall_id route Hfirst). symmetry. apply list_insert_id, Hroute.
  - assert (Hgrown : grownQuietly (output s1) (topLevel (invokeHandler route inv) s1)).
    { pose proof (grows_invokeHandler (output s1) route inv s1) as Hinvoke.
      assert (Hs1 : grownQuietly (output s1) s1)
        by (exists []; split; [symmetry; apply app_nil_r|constructor]).
      specialize (Hinvoke Hs1). unfold topLevel.
      destruct (invokeHandler route inv s1) as [[a|e|] s2]; cbn [snd] in *;
        try exact Hinvoke.
      apply grownQuietly_emit; [exact I|exact Hinvoke]. }
    destruct Hgrown as (rest & Hrest & Hquiet). exists rest. split; [|exact Hquiet].
    rewrite Hrest, Hout, <- !app_assoc. reflexivity.
Qed.

End FirstCall.

Lemma first_call_notice_witness :
  let s := booted false (sampleEndpoint "/hello" []) in
  let route := {| routeMethod := "GET"; routePath := "/hello"; routeAuth := None;
                  routeFunName := "hello";
                  routeFun := {| events := [Some (HttpObject (sampleEndpoint "/hello" []))];
                                 funTimeout := 1000 |};
                  routeEndpoint := sampleEndpoint "/hello" []; firstCall := true |} in
  let s' := default s (step (H := sampleEnv) (pendingArrival "1") s) in
  routes s' = <[0%nat := withFirstCall false route]> (routes s)
  /\ exists rest,
       output s'
       = output s
         ++ [Console ""; Log ("GET" +:+ " " +:+ "/hello" +:+ " (λ: " +:+ "hello" +:+ ")")]
         ++ [Log firstCallNotice]
         ++ rest
       /\ Forall notNotice rest.
Proof.
  intros s route s'.
  apply (first_call_notice (H := sampleEnv) 0 route (sampleInvocation "1" pendingHandler) s s').
  - vm_compute. reflexivity.
  - vm_compute. reflexivity.
Defined.

(** ** A header taken from a body that is not there *)

Section BodyOfNothing.
Context `{JsEnv}.

Lemma parameter_body_throws rid result key value name e s :
  headerNameOf key = Some name ->
  Js.startsWith value "integration.response" = true ->
  Js.split "." value !! 2%nat = Some "body" ->
  bodyValueOf result value = Throw e ->
  processResponseParameter rid result (key, value) s = (Throw e, s).
Proof.
  unfold headerNameOf, bodyValueOf, processResponseParameter.
  destruct (Js.startsWith key _ && truthyAt _ 3); [|discriminate].
  intros _ -> Hbody Hthrow. rewrite bool_decide_eq_true_2 by exact Hbody.
  unfold bind, lift. rewrite Hthrow. reflexivity.
Qed.

(** X16. A success on a pending request whose default rule takes its first
    header from the integration response body, when there is nothing to
    print there (the data, or what the JSON path finds in it, is [null] or
    [undefined]): [toString] throws a [TypeError] out of the callback, the
    request is left done with its timer cleared, no header is set and no
    response is sent. *)
Theorem body_header_of_nothing_aborts (c : Ctx) (data : JsValue) (s : Offline)
    (r : RequestState) (rule : ResponseRule) (key name value : string)
    (post : list (string * string)) (e : JsException) :
  requests s !! ctxRequestId c = Some r ->
  Pending r ->
  responses (ctxEndpoint c) ≫= assocGet "default" = Some rule ->
  responseParameters rule = Some ((key, value) :: post) ->
  headerNameOf key = Some name ->
  Js.startsWith value "integration.response" = true ->
  Js.split "." value !! 2%nat = Some "body" ->
  bodyValueOf data value = Throw e ->
  callback c ErrNullish data s
  = (Throw e, withRequests (<[ctxRequestId c := completedState r]> (requests s)) s).
Proof.
  intros Hr [Hdone Hcalled] Hrule Hparams Hname Hvalue Hbody Hthrow.
  rewrite (callback_pending _ _ _ _ _ Hr Hcalled Hdone). unfold respond.
  cbn [errTruthy]. unfold bind at 1. cbn [ret]. rewrite Hrule.
  apply bind_Throw. unfold processResponseParameters. cbn [mbind option_bind].
  rewrite Hparams. cbn [forEach]. apply bind_Throw.
  apply (parameter_body_throws _ _ _ _ name); assumption.
Qed.

End BodyOfNothing.

Lemma body_header_of_nothing_aborts_witness :
  let rules := [("default", ruleWithParameters
                              [("method.response.header.X-Result",
                                "integration.response.body")])] in
  let s := pendingState false rules in
  callback (H := sampleEnv) (sampleCtx rules) ErrNullish JUndefined s
  = (Throw (TypeError "Cannot read property 'toString' of undefined"),
     withRequests
       (<["42" := completedState {| done := false; timeout := TimeoutTimer (newTimer 1000) |}]>
          (requests s)) s).
Proof.
  intros rules s.
  apply (body_header_of_nothing_aborts (H := sampleEnv) (sampleCtx rules) JUndefined s _
           (ruleWithParameters [("method.response.header.X-Result",
                                 "integration.response.body")])
           "method.response.header.X-Result" "X-Result" "integration.response.body" []).
  - vm_compute. reflexivity.
  - split; reflexivity.
  - reflexivity.
  - reflexivity.
  - vm_compute. reflexivity.
  - vm_compute. reflexivity.
  - vm_compute. reflexivity.
  - vm_compute. reflexivity.
Defined.

(** ** Start-up *)

Lemma assignAll_union (source envVars : gmap string JsValue) :
  assignAll source envVars = source ∪ envVars.
Proof.
  unfold assignAll.
  apply (map_fold_weak_ind (fun acc m => acc = m ∪ envVars)).
  - symmetry. apply (left_id_L ∅ (∪)).
  - intros key value m acc _ ->. apply insert_union_l.
Qed.

(** X17. When the stage and the region named by the options exist and the
    three objects of variables are there, [_mergeEnvVars] returns, and in
    [this.envVars] a variable of the region overrides one of the stage,
    which overrides one of the service, which overrides what was there. *)
Theorem mergeEnvVars_precedence (env : Environment) (stage region : option string)
    (envVars : gmap string JsValue) (sts : list (string * StageEnv)) (st : StageEnv)
    (rgs : list (string * RegionEnv)) (rg : RegionEnv) (ev sv rv : gmap string JsValue) :
  stages env = Some sts ->
  assocGet (keyOf stage) sts = Some st ->
  regions st = Some rgs ->
  assocGet (keyOf region) rgs = Some rg ->
  vars env = Some ev ->
  stageVars st = Some sv ->
  regionVars rg = Some rv ->
  exists envVars',
    _mergeEnvVars (Some env) stage region envVars = (Ret tt, envVars')
    /\ forall key,
         envVars' !! key
         = match rv !! key, sv !! key, ev !! key with
           | Some v, _, _ => Some v
           | None, Some v, _ => Some v
           | None, None, Some v => Some v
           | None, None, None => envVars !! key
           end.
Proof.
  intros Hsts Hst Hrgs Hrg Hev Hsv Hrv. eexists. split.
  { unfold _mergeEnvVars. rewrite Hsts, Hst, Hrgs, Hev, Hsv, Hrg, Hrv. reflexivity. }
  intros key. rewrite !assignAll_union, !lookup_union.
  destruct (rv !! key), (sv !! key), (ev !! key), (envVars !! key); reflexivity.
Qed.

Lemma mergeEnvVars_precedence_witness :
  let rg := {| regionVars := Some {["TABLE" := JStr "users-eu"]} |} in
  let st := {| stageVars := Some {["TABLE" := JStr "users-dev"; "LEVEL" := JStr "debug"]};
               regions := Some [("eu-west-1", rg)] |} in
  let env := {| vars := Some {["TABLE" := JStr "users"; "NAME" := JStr "svc"]};
                stages := Some [("dev", st)] |} in
  exists envVars',
    _mergeEnvVars (Some env) (Some "dev") (Some "eu-west-1") ∅ = (Ret tt, envVars')
    /\ forall key,
         envVars' !! key
         = match ({["TABLE" := JStr "users-eu"]} : gmap string JsValue) !! key,
                 ({["TABLE" := JStr "users-dev"; "LEVEL" := JStr "debug"]}
                    : gmap string JsValue) !! key,
                 ({["TABLE" := JStr "users"; "NAME" := JStr "svc"]}
                    : gmap string JsValue) !! key with
           | Some v, _, _ => Some v
           | None, Some v, _ => Some v
           | None, None, Some v => Some v
           | None, None, None => (∅ : gmap string JsValue) !! key
           end.
Proof.
  intros rg st env.
  apply (mergeEnvVars_precedence env (Some "dev") (Some "eu-west-1") ∅
           [("dev", st)] st [("eu-west-1", rg)] rg); reflexivity.
Defined.

(** An unknown region is found out only after the variables of the service
    and of the stage are merged. *)
Example mergeEnvVars_unknown_region :
  let st := {| stageVars := Some {["LEVEL" := JStr "debug"]};
               regions := Some [] |} in
  let env := {| vars := Some {["NAME" := JStr "svc"]}; stages := Some [("dev", st)] |} in
  _mergeEnvVars (Some env) (Some "dev") (Some "eu-west-1") ∅
  = (Throw (TypeError "Cannot read property 'vars' of undefined"),
     {["LEVEL" := JStr "debug"; "NAME" := JStr "svc"]}).
Proof. vm_compute. reflexivity. Qed.

(** X18. Whatever the command line gives, the options object [_setOptions]
    builds has no property other than the ten it lists. So
    [corsDisallowCredentials] is [undefined] in it, the test on it fails, and
    [corsConfig.credentials] is [true] whether or not the option is
    given. *)
Theorem corsDisallowCredentials_is_dropped (cli : list (string * JsValue)) :
  (forall key, ~ In key keptOptions -> getField key (optionsObject cli) = JUndefined)
  /\ getField "corsDisallowCredentials" (optionsObject cli) = JUndefined
  /\ corsConfigCredentials cli = JBool true.
Proof.
  split; [|split; reflexivity].
  intros key Hkey. unfold getField, optionsObject. cbn [assocGet].
  repeat (case_bool_decide as Heq;
          [exfalso; apply Hkey; rewrite <- Heq; cbn; tauto|clear Heq]).
  reflexivity.
Qed.
